(** * langchain-scrapingbee: the parameter coercer, the image classifier and
      the image persister of [langchain_scrapingbee/tools.py]

    A shallow embedding of the decision logic of [tools.py] and the
    properties its specification states about it.

    Conventions of the model.
    - A Python [str] is a list of Unicode code points ([pystr], code points
      as [N]); a [bytes] object is a list of octets ([pybytes]).  [py "..."]
      turns an ASCII literal into a [pystr].
    - The standard-library functions the code calls ([base64.b64decode],
      [json.loads], [str.split], [re.sub] with the two patterns used, ...)
      are modelled after CPython 3.11, the C accelerated versions where
      CPython has both.
    - Character data that lives in the Unicode database ([str.isdigit],
      [str.lower], [\w]) is exact on ASCII and taken from a [UnicodeData]
      record elsewhere; [ast.literal_eval] is a parameter as well.  Theorems
      hold for every such environment.
    - The file system and the clock are explicit: functions that write take
      and return a [filesystem], functions that read the time take it as an
      argument.  The file system can refuse to make a directory or to open
      a file; a write to a file that is open succeeds, text that UTF-8 does
      not encode apart.
    - Of a [print] the model keeps whether it raises, which the stream
      decides; what is printed is not kept. *)

From Stdlib Require Import NArith ZArith Ascii String DecimalString Lia.
From stdpp Require Import gmap strings list fin_maps.

Set Warnings "-register-all".
Open Scope N_scope.

(** ** Python strings *)

Module Str.

Abbreviation pystr := (list N).
Abbreviation pybytes := (list N).

Definition py (s : string) : pystr := map N_of_ascii (list_ascii_of_string s).

(** [s.startswith(p)] *)
Fixpoint startswith (p s : pystr) : bool :=
  match p, s with
  | [], _ => true
  | _ :: _, [] => false
  | a :: p', b :: s' => (a =? b) && startswith p' s'
  end.

(** [s.endswith(p)] *)
Definition endswith (p s : pystr) : bool := startswith (rev p) (rev s).

(** [sub in s] *)
Fixpoint contains (sub s : pystr) : bool :=
  startswith sub s ||
  match s with
  | [] => false
  | _ :: s' => contains sub s'
  end.

(** [s.split(sep, 1)] for a non-empty [sep]: the whole string when [sep]
    does not occur, else the text before and the text after its first
    occurrence. *)
Fixpoint split1 (sep s : pystr) : list pystr :=
  if startswith sep s then [[]; drop (length sep) s]
  else match s with
       | [] => [[]]
       | c :: s' =>
           match split1 sep s' with
           | before :: more => (c :: before) :: more
           | [] => [[c]]
           end
       end.

(** [s.split(sep)] for a one-character [sep]. *)
Fixpoint split_char (sep : N) (s : pystr) : list pystr :=
  match s with
  | [] => [[]]
  | c :: s' =>
      if c =? sep then [] :: split_char sep s'
      else match split_char sep s' with
           | field :: more => (c :: field) :: more
           | [] => [[c]]
           end
  end.

(** [Py_UNICODE_ISSPACE]: what [str.isspace], [str.strip] and the [\s] of
    [re] (on [str] patterns) take for white space. *)
Definition isspace (c : N) : bool :=
  ((0x09 <=? c) && (c <=? 0x0D)) || ((0x1C <=? c) && (c <=? 0x20))
  || (c =? 0x85) || (c =? 0xA0) || (c =? 0x1680)
  || ((0x2000 <=? c) && (c <=? 0x200A))
  || (c =? 0x2028) || (c =? 0x2029) || (c =? 0x202F) || (c =? 0x205F)
  || (c =? 0x3000).

(** [re.sub(r'\s+', '', s)] *)
Definition remove_whitespace (s : pystr) : pystr :=
  List.filter (fun c => negb (isspace c)) s.

Fixpoint lstrip (s : pystr) : pystr :=
  match s with
  | c :: s' => if isspace c then lstrip s' else s
  | [] => []
  end.

(** [s.strip()] *)
Definition strip (s : pystr) : pystr := rev (lstrip (rev (lstrip s))).

Definition is_ascii (c : N) : bool := c <? 128.

(** [str(n)] for a natural number. *)
Definition str_of_N (n : N) : pystr := py (NilEmpty.string_of_uint (N.to_uint n)).

(** [str(z)] for an integer. *)
Definition str_of_Z (z : Z) : pystr :=
  match z with
  | Zneg p => py "-" ++ str_of_N (Npos p)
  | _ => str_of_N (Z.to_N z)
  end.

End Str.
Import Str.

(** ** [base64.b64decode] *)

Module Base64.

(** What a call that may raise gives to a handler that catches [Exception]
    and reads [str(e)]: the value, or the message. *)
Inductive result (A : Type) : Type :=
| Ok (a : A)
| Err (msg : pystr).
Arguments Ok {A} a.
Arguments Err {A} msg.

(** [table_a2b_base64]: the value of an alphabet character. *)
Definition table_a2b_base64 (c : N) : option N :=
  if (65 <=? c) && (c <=? 90) then Some (c - 65)
  else if (97 <=? c) && (c <=? 122) then Some (c - 97 + 26)
  else if (48 <=? c) && (c <=? 57) then Some (c - 48 + 52)
  else if c =? 43 then Some 62
  else if c =? 47 then Some 63
  else None.

Definition BASE64_PAD : N := 61.

(** The store into an [unsigned char]. *)
Definition u8 (n : N) : N := N.land n 255.

(** The loop of [binascii.a2b_base64] with [strict_mode] off.  [out] is the
    output so far, last octet first. *)
Fixpoint a2b_loop (quad_pos leftchar pads : N) (out : pybytes) (ascii_data : pystr)
  : result pybytes :=
  match ascii_data with
  | [] =>
      if quad_pos =? 0 then Ok (rev out)
      else if quad_pos =? 1 then
        Err (py "Invalid base64-encoded string: number of data characters ("
             ++ str_of_N (N.of_nat (length out) / 3 * 4 + 1)
             ++ py ") cannot be 1 more than a multiple of 4")
      else Err (py "Incorrect padding")
  | this_ch :: rest =>
      if this_ch =? BASE64_PAD then
        if 2 <=? quad_pos then
          if 4 <=? quad_pos + (pads + 1) then Ok (rev out)
          else a2b_loop quad_pos leftchar (pads + 1) out rest
        else a2b_loop quad_pos leftchar pads out rest
      else
        match table_a2b_base64 this_ch with
        | None => a2b_loop quad_pos leftchar pads out rest
        | Some v =>
            if quad_pos =? 0 then a2b_loop 1 v 0 out rest
            else if quad_pos =? 1 then
              a2b_loop 2 (N.land v 0x0f) 0
                (u8 (N.lor (N.shiftl leftchar 2) (N.shiftr v 4)) :: out) rest
            else if quad_pos =? 2 then
              a2b_loop 3 (N.land v 0x03) 0
                (u8 (N.lor (N.shiftl leftchar 4) (N.shiftr v 2)) :: out) rest
            else
              a2b_loop 0 0 0 (u8 (N.lor (N.shiftl leftchar 6) v) :: out) rest
        end
  end.

Definition a2b_base64 (ascii_data : pystr) : result pybytes :=
  a2b_loop 0 0 0 [] ascii_data.

(** [base64.b64decode(s)] on a [str]: the string is first encoded as ASCII,
    which fails on any other character. *)
Definition b64decode (s : pystr) : result pybytes :=
  if forallb is_ascii s then a2b_base64 s
  else Err (py "string argument should contain only ASCII characters").

Definition succeeds {A} (r : result A) : bool :=
  match r with Ok _ => true | Err _ => false end.

End Base64.
Import Base64.

(** ** The classifier: [GoogleSearchTool._is_base64_image] *)

(** The cleaning both the classifier and the persister do before decoding:
    the text after the first [base64,], without white space, padded with
    [=] to a multiple of four characters.  [split1 .. !! 1] is the
    [split('base64,', 1)[1]] of the source. *)
Definition clean_b64_data (image_data : pystr) : result pystr :=
  match
    (if contains (py "base64,") image_data
     then split1 (py "base64,") image_data !! 1%nat
     else Some image_data)
  with
  | None => Err (py "list index out of range")
  | Some clean_data =>
      let clean_data := remove_whitespace clean_data in
      let missing_padding := (length clean_data mod 4)%nat in
      if (missing_padding =? 0)%nat then Ok clean_data
      else Ok (clean_data ++ replicate (4 - missing_padding) BASE64_PAD)
  end.

Definition decode_image_data (image_data : pystr) : result pybytes :=
  match clean_b64_data image_data with
  | Ok clean_data => b64decode clean_data
  | Err msg => Err msg
  end.

Definition is_url (image_data : pystr) : bool :=
  startswith (py "http://") image_data || startswith (py "https://") image_data
  || startswith (py "//") image_data || startswith (py "/") image_data.

Definition _is_base64_image (image_data : pystr) : bool :=
  match image_data with
  | [] => false
  | _ =>
      if startswith (py "data:image/") image_data && contains (py "base64,") image_data
      then true
      else if is_url image_data then false
      else succeeds (decode_image_data image_data)
  end.

(** ** The Unicode database *)

(** The character data CPython reads from its Unicode database, for the
    code points above ASCII.  The functions below decide the ASCII range
    themselves and ask the record for the rest. *)
Record UnicodeData := {
  (** [str.isalnum] of one character *)
  uc_isalnum : N -> bool;
  (** [str.isdigit] of one character (Numeric_Type Digit or Decimal) *)
  uc_isdigit : N -> bool;
  (** the value of a decimal digit (category Nd), which is what [int]
      accepts *)
  uc_decimal : N -> option N;
  (** [str.lower] of a string that is not all ASCII *)
  uc_lower : pystr -> pystr
}.

(** The database restricted to U+0080..U+00FF, every code point above
    taken as a caseless symbol.  The closed examples run with it. *)
Definition latin1 : UnicodeData := {|
  uc_isalnum c :=
    (c =? 0xAA) || (c =? 0xB2) || (c =? 0xB3) || (c =? 0xB5) || (c =? 0xB9)
    || (c =? 0xBA) || ((0xBC <=? c) && (c <=? 0xBE))
    || ((0xC0 <=? c) && (c <=? 0xD6)) || ((0xD8 <=? c) && (c <=? 0xF6))
    || ((0xF8 <=? c) && (c <=? 0xFF));
  uc_isdigit c := (c =? 0xB2) || (c =? 0xB3) || (c =? 0xB9);
  uc_decimal _ := None;
  uc_lower s :=
    map (fun c =>
           if ((65 <=? c) && (c <=? 90))
              || ((0xC0 <=? c) && (c <=? 0xDE) && negb (c =? 0xD7))
           then c + 32 else c) s
|}.

Section Unicode.
Context (ucd : UnicodeData).

Definition isalnum (c : N) : bool :=
  if is_ascii c
  then ((48 <=? c) && (c <=? 57)) || ((65 <=? c) && (c <=? 90))
       || ((97 <=? c) && (c <=? 122))
  else uc_isalnum ucd c.

(** [\w] of [re] on a [str] pattern *)
Definition is_word (c : N) : bool := isalnum c || (c =? 95).

Definition isdigit_char (c : N) : bool :=
  if is_ascii c then (48 <=? c) && (c <=? 57) else uc_isdigit ucd c.

(** [s.isdigit()]: at least one character, and all of them digits. *)
Definition isdigit (s : pystr) : bool :=
  match s with
  | [] => false
  | _ => forallb isdigit_char s
  end.

Definition decimal_value (c : N) : option N :=
  if is_ascii c
  then (if (48 <=? c) && (c <=? 57) then Some (c - 48) else None)
  else uc_decimal ucd c.

(** [s.lower()] *)
Definition lower (s : pystr) : pystr :=
  if forallb is_ascii s
  then map (fun c => if (65 <=? c) && (c <=? 90) then c + 32 else c) s
  else uc_lower ucd s.

(** [GoogleSearchTool._sanitize_filename] *)

Definition is_hyphen_or_space (c : N) : bool := (c =? 45) || isspace c.

(** [re.sub(r'[-\s]+', '_', name)]: [in_run] tells that the previous
    character was already replaced. *)
Fixpoint collapse_runs (in_run : bool) (name : pystr) : pystr :=
  match name with
  | [] => []
  | c :: name' =>
      if is_hyphen_or_space c
      then (if in_run then collapse_runs true name'
            else 95 :: collapse_runs true name')
      else c :: collapse_runs false name'
  end.

Definition _sanitize_filename (name : pystr) : pystr :=
  let name := strip (List.filter (fun c => is_word c || isspace c || (c =? 45)) name) in
  let name := collapse_runs false name in
  take 100 name.

End Unicode.

(** ** The file system *)

Module FS.

Inductive file_data :=
| Text (s : pystr)
| Binary (b : pybytes).

(** The files with their contents, the directories made, and the paths on
    which the operating system refuses to work ([io_fault] gives the
    message of the [OSError]). *)
Record filesystem := {
  files : gmap pystr file_data;
  dirs : gset pystr;
  io_fault : pystr -> option pystr
}.

(** A computation on the file system that returns or raises. *)
Definition io (A : Type) : Type := filesystem -> filesystem * result A.

Definition ret {A} (a : A) : io A := fun fs => (fs, Ok a).
Definition bind {A B} (m : io A) (k : A -> io B) : io B :=
  fun fs =>
    match m fs with
    | (fs', Ok a) => k a fs'
    | (fs', Err msg) => (fs', Err msg)
    end.
Definition lift {A} (r : result A) : io A := fun fs => (fs, r).

(** [try: body except Exception as e: handler(str(e))] *)
Definition try_except {A} (body : io A) (handler : pystr -> io A) : io A :=
  fun fs =>
    match body fs with
    | (fs', Ok a) => (fs', Ok a)
    | (fs', Err msg) => handler msg fs'
    end.

Declare Scope io_scope.
Delimit Scope io_scope with io.
Notation "x <- m ;; k" := (bind m (fun x => k))
  (at level 100, m at next level, right associativity) : io_scope.
Notation "m ;;; k" := (bind m (fun _ => k))
  (at level 100, right associativity) : io_scope.

(** [os.path.join(a, b)] on POSIX *)
Definition path_join (a b : pystr) : pystr :=
  if startswith (py "/") b then b
  else match a with
       | [] => b
       | _ => if endswith (py "/") a then a ++ b else a ++ py "/" ++ b
       end.

(** [os.makedirs(path, exist_ok=True)] *)
Definition makedirs (path : pystr) : io unit :=
  fun fs =>
    match io_fault fs path with
    | Some msg => (fs, Err msg)
    | None => ({| files := files fs; dirs := {[path]} ∪ dirs fs;
                  io_fault := io_fault fs |}, Ok tt)
    end.

(** [open(path, 'w')] and [open(path, 'wb')]: the file is created, or
    emptied when it was there. *)
Definition open_write (path : pystr) (empty : file_data) : io unit :=
  fun fs =>
    match io_fault fs path with
    | Some msg => (fs, Err msg)
    | None => ({| files := <[path := empty]> (files fs); dirs := dirs fs;
                  io_fault := io_fault fs |}, Ok tt)
    end.

Definition is_surrogate (c : N) : bool := (0xD800 <=? c) && (c <=? 0xDFFF).

Definition hex_digit (n : N) : N := if n <? 10 then 48 + n else 87 + n.

Definition hex4 (c : N) : pystr :=
  [hex_digit (N.shiftr c 12 mod 16); hex_digit (N.shiftr c 8 mod 16);
   hex_digit (N.shiftr c 4 mod 16); hex_digit (c mod 16)].

(** How many surrogates [s] starts with. *)
Fixpoint surrogate_run (s : pystr) : nat :=
  match s with
  | c :: s' => if is_surrogate c then S (surrogate_run s') else O
  | [] => O
  end.

(** The [UnicodeEncodeError] of [s.encode('utf-8')], if any: lone
    surrogates cannot be encoded.  [pos] is the index of the head of [s]. *)
Fixpoint utf8_error (pos : N) (s : pystr) : option pystr :=
  match s with
  | [] => None
  | c :: s' =>
      if is_surrogate c then
        let run := surrogate_run s' in
        Some (py "'utf-8' codec can't encode character"
              ++ (match run with
                  | O => py " '\ud" ++ drop 1 (hex4 c) ++ py "' in position "
                         ++ str_of_N pos
                  | _ => py "s in position " ++ str_of_N pos ++ py "-"
                         ++ str_of_N (pos + N.of_nat run)
                  end)
              ++ py ": surrogates not allowed")
      else utf8_error (pos + 1) s'
  end.

(** [f.write(s)] on a file opened for text in UTF-8 *)
Definition write_text (path : pystr) (s : pystr) : io unit :=
  fun fs =>
    match utf8_error 0 s with
    | Some msg => (fs, Err msg)
    | None =>
        let old := match files fs !! path with
                   | Some (Text t) => t
                   | _ => []
                   end in
        ({| files := <[path := Text (old ++ s)]> (files fs); dirs := dirs fs;
            io_fault := io_fault fs |}, Ok tt)
    end.

(** [f.write(b)] on a file opened for bytes.  The write to a file that
    is open succeeds: the faults of the model are those of [os.makedirs]
    and [open]. *)
Definition write_bytes (path : pystr) (b : pybytes) : io unit :=
  fun fs =>
    let old := match files fs !! path with
               | Some (Binary t) => t
               | _ => []
               end in
    ({| files := <[path := Binary (old ++ b)]> (files fs); dirs := dirs fs;
        io_fault := io_fault fs |}, Ok tt).

End FS.
Import FS.
Open Scope io_scope.

(** ** The persister: [GoogleSearchTool._save_base64_image] *)

Definition PNG_MAGIC : pybytes := [0x89; 0x50; 0x4E; 0x47; 0x0D; 0x0A; 0x1A; 0x0A].
Definition GIF_MAGIC : pybytes := py "GIF8".
Definition RIFF_MAGIC : pybytes := py "RIFF".
Definition WEBP_MARK : pybytes := py "WEBP".
Definition JPEG_MAGIC : pybytes := [0xFF; 0xD8; 0xFF].

(** The format read from the decoded bytes (the [if]/[elif] chain on
    [image_bytes]). *)
Definition detect_format (image_bytes : pybytes) : pystr :=
  if startswith PNG_MAGIC image_bytes then py "png"
  else if startswith GIF_MAGIC image_bytes then py "gif"
  else if startswith RIFF_MAGIC image_bytes && contains WEBP_MARK image_bytes
       then py "webp"
  else if startswith JPEG_MAGIC image_bytes then py "jpg"
  else py "jpg".

Section Persister.
Context (ucd : UnicodeData).

Definition save_failure (title msg : pystr) : pystr :=
  py "Failed to save '" ++ title ++ py "': " ++ msg.

Definition image_filename (filename_prefix title image_format : pystr) : pystr :=
  filename_prefix ++ py "_" ++ _sanitize_filename ucd title ++ py "." ++ image_format.

Definition _save_base64_image (image_data folder_path filename_prefix title : pystr)
  : io pystr :=
  try_except
    (image_bytes <- lift (decode_image_data image_data) ;;
     let image_format := detect_format image_bytes in
     let filename := image_filename filename_prefix title image_format in
     makedirs folder_path ;;;
     let file_path := path_join folder_path filename in
     open_write file_path (Binary []) ;;;
     write_bytes file_path image_bytes ;;;
     ret (py "Saved: " ++ file_path))
    (fun e => ret (save_failure title e)).

(** ** The manifest writer: [GoogleSearchTool._save_image_links] *)

Record link_info := {
  link_url : pystr;
  link_title : pystr;
  link_position : Z
}.

(** The three lines written for the [i]-th link. *)
Definition link_block (i : nat) (l : link_info) : list pystr :=
  [ str_of_N (N.of_nat i) ++ py ". Title: " ++ link_title l ++ [10];
    py "   URL: " ++ link_url l ++ [10];
    py "   Position: " ++ str_of_Z (link_position l) ++ [10; 10] ].

(** The strings handed to [f.write], in order; [enumerate(image_links, 1)]
    counts from [i]. *)
Fixpoint link_blocks (i : nat) (image_links : list link_info) : list pystr :=
  match image_links with
  | [] => []
  | l :: rest => link_block i l ++ link_blocks (S i) rest
  end.

Definition manifest_header (now : pystr) : list pystr :=
  [ py "# Image Links from Google Search" ++ [10];
    py "# Generated: " ++ now ++ [10; 10] ].

Fixpoint write_all (path : pystr) (chunks : list pystr) : io unit :=
  match chunks with
  | [] => ret tt
  | s :: rest => write_text path s ;;; write_all path rest
  end.

(** [now] is what [datetime.datetime.now().isoformat()] gives when the
    header is written. *)
Definition _save_image_links (now : pystr) (image_links : list link_info)
  (folder_path : pystr) : io pystr :=
  match image_links with
  | [] => ret (py "No image links to save")
  | _ =>
      makedirs folder_path ;;;
      let links_file := path_join folder_path (py "image_links.txt") in
      try_except
        (open_write links_file (Text []) ;;;
         write_all links_file (manifest_header now ++ link_blocks 1 image_links) ;;;
         ret (py "Saved " ++ str_of_N (N.of_nat (length image_links))
              ++ py " image links to: " ++ links_file))
        (fun e => ret (py "Failed to save image links: " ++ e))
  end.

(** ** The image branch of the search: the loops of
    [GoogleSearchTool._handle_image_search] *)

(** One entry of the [images] list of the response; a field is [None] when
    the key is absent. *)
Record image_result := {
  res_image : option pystr;
  res_title : option pystr;
  res_position : option Z
}.

Record base64_entry := {
  b64_data : pystr;
  b64_title : pystr;
  b64_position : Z
}.

(** [item.get(key, default)] *)
Definition get {A} (field : option A) (default : A) : A :=
  match field with Some a => a | None => default end.

(** The first loop: every item is appended to one of the two lists. *)
Fixpoint separate (image_results : list image_result)
  (base64_images : list base64_entry) (image_links : list link_info)
  : list base64_entry * list link_info :=
  match image_results with
  | [] => (base64_images, image_links)
  | item :: rest =>
      let image_data := get (res_image item) [] in
      let title := get (res_title item) (py "untitled") in
      let position := get (res_position item) 0%Z in
      if _is_base64_image image_data
      then separate rest
             (base64_images ++ [{| b64_data := image_data; b64_title := title;
                                   b64_position := position |}])
             image_links
      else separate rest base64_images
             (image_links ++ [{| link_url := image_data; link_title := title;
                                 link_position := position |}])
  end.

(** [f"{position:02d}"] *)
Definition format_02d (position : Z) : pystr :=
  if (position <? 0)%Z then str_of_Z position
  else if (position <? 10)%Z then py "0" ++ str_of_Z position
  else str_of_Z position.

(** The second loop: one result string per base64 image, in order. *)
Fixpoint save_base64_images (folder_path : pystr) (base64_images : list base64_entry)
  (saved_images : list pystr) : io (list pystr) :=
  match base64_images with
  | [] => ret saved_images
  | item :: rest =>
      result <- _save_base64_image (b64_data item) folder_path
                  (format_02d (b64_position item)) (b64_title item) ;;
      save_base64_images folder_path rest (saved_images ++ [result])
  end.

(** From the two empty lists to the call of [_save_image_links]. *)
Definition save_image_results (now : pystr) (image_results : list image_result)
  (folder_path : pystr) : io (list pystr * pystr) :=
  let '(base64_images, image_links) := separate image_results [] [] in
  saved_images <- save_base64_images folder_path base64_images [] ;;
  links_result <- _save_image_links now image_links folder_path ;;
  ret (saved_images, links_result).

End Persister.

(** ** The transport errors of the two [_run] methods *)

Module Http.

(** A [requests.exceptions.RequestException]: [str(e)], and the text of the
    response it carries, if it carries one. *)
Record RequestException := {
  exc_str : pystr;
  exc_response : option pystr
}.

(** [getattr(e.response, 'text', str(e))] *)
Definition response_text_or_str (e : RequestException) : pystr :=
  match exc_response e with
  | Some text => text
  | None => exc_str e
  end.

(** What [requests.get] followed by [raise_for_status] comes to. *)
Inductive outcome (R : Type) :=
| Response (r : R)
| Raised (e : RequestException).
Arguments Response {R} r.
Arguments Raised {R} e.

Section Run.
Context {R : Type}.

(** [ScrapeUrlTool._run] from the request on: [on_response] is the rest of
    the [try] block.  A [RequestException] always has the attribute
    [response], so the [hasattr] test of the source holds. *)
Definition scrape_run (http : outcome R) (on_response : R -> io pystr) : io pystr :=
  match http with
  | Response r => on_response r
  | Raised e =>
      let error_detail := take 1000 (response_text_or_str e) in
      ret (py "Error: Request failed. Details: " ++ error_detail)
  end.

(** [GoogleSearchTool._run] from the request on: [on_response] is the
    dispatch on the search type that follows the [try] block. *)
Definition google_run (http : outcome R) (on_response : R -> io pystr) : io pystr :=
  match http with
  | Response r => on_response r
  | Raised e =>
      ret (py "Error during Google Search API call: " ++ response_text_or_str e)
  end.

End Run.
End Http.

(** ** Python values and exceptions *)

Inductive pyval :=
| PNone
| PBool (b : bool)
| PInt (z : Z)
(** a float, by the literal it was read from *)
| PFloat (literal : pystr)
| PStr (s : pystr)
| PList (l : list pyval)
| PDict (d : gmap pystr pyval)
(** any other object, by its [repr] *)
| PObject (repr : pystr).

Definition is_mapping (v : pyval) : bool :=
  match v with PDict _ => true | _ => false end.

Inductive exn :=
| JSONDecodeError
| ValueError
| SyntaxError
| TypeError
| RecursionError
| MemoryError
| OSError.

(** What a call gives to handlers that select on the class of the
    exception. *)
Inductive outcome (A : Type) : Type :=
| Return (a : A)
| Raise (e : exn).
Arguments Return {A} a.
Arguments Raise {A} e.

Definition returns {A} (o : outcome A) : bool :=
  match o with Return _ => true | Raise _ => false end.

(** ** [json.loads] *)

Module Json.

(** [IS_WHITESPACE] of the scanner *)
Definition is_ws (c : N) : bool := (c =? 32) || (c =? 9) || (c =? 10) || (c =? 13).

Fixpoint skip_ws (s : pystr) : pystr :=
  match s with
  | c :: s' => if is_ws c then skip_ws s' else s
  | [] => []
  end.

Definition is_digit (c : N) : bool := (48 <=? c) && (c <=? 57).

Definition hex_value (c : N) : option N :=
  if (48 <=? c) && (c <=? 57) then Some (c - 48)
  else if (97 <=? c) && (c <=? 102) then Some (c - 97 + 10)
  else if (65 <=? c) && (c <=? 70) then Some (c - 65 + 10)
  else None.

(** Four hexadecimal digits at the head of [s]. *)
Definition hex4_value (s : pystr) : option (N * pystr) :=
  match s with
  | a :: b :: c :: d :: rest =>
      match hex_value a, hex_value b, hex_value c, hex_value d with
      | Some a, Some b, Some c, Some d =>
          Some (N.lor (N.shiftl (N.lor (N.shiftl (N.lor (N.shiftl a 4) b) 4) c) 4) d,
                rest)
      | _, _, _, _ => None
      end
  | _ => None
  end.

Definition is_high_surrogate (c : N) : bool := (0xD800 <=? c) && (c <=? 0xDBFF).
Definition is_low_surrogate (c : N) : bool := (0xDC00 <=? c) && (c <=? 0xDFFF).

(** [scanstring] in strict mode, from the character after the opening
    quote; [acc] is the text read so far, last character first. *)
Fixpoint scanstring (acc : pystr) (s : pystr) {struct s} : outcome (pystr * pystr) :=
  match s with
  | [] => Raise JSONDecodeError
  | c :: s' =>
      if c =? 34 then Return (rev acc, s')
      else if c =? 92 then
        match s' with
        | [] => Raise JSONDecodeError
        | e :: s'' =>
            if e =? 117 then
              match s'' with
              | h1 :: h2 :: h3 :: h4 :: after =>
                  match hex4_value [h1; h2; h3; h4] with
                  | None => Raise JSONDecodeError
                  | Some (u, _) =>
                      match after with
                      | b :: u' :: l1 :: l2 :: l3 :: l4 :: after' =>
                          if is_high_surrogate u && (b =? 92) && (u' =? 117) then
                            match hex4_value [l1; l2; l3; l4] with
                            | None => Raise JSONDecodeError
                            | Some (u2, _) =>
                                if is_low_surrogate u2 then
                                  scanstring
                                    (0x10000 + N.lor (N.shiftl (u - 0xD800) 10) (u2 - 0xDC00)
                                     :: acc) after'
                                else scanstring (u :: acc) after
                            end
                          else scanstring (u :: acc) after
                      | _ => scanstring (u :: acc) after
                      end
                  end
              | _ => Raise JSONDecodeError
              end
            else if (e =? 34) || (e =? 92) || (e =? 47) then scanstring (e :: acc) s''
            else if e =? 98 then scanstring (8 :: acc) s''
            else if e =? 102 then scanstring (12 :: acc) s''
            else if e =? 110 then scanstring (10 :: acc) s''
            else if e =? 114 then scanstring (13 :: acc) s''
            else if e =? 116 then scanstring (9 :: acc) s''
            else Raise JSONDecodeError
        end
      else if c <=? 0x1f then Raise JSONDecodeError
      else scanstring (c :: acc) s'
  end.

(** The digits [s] starts with, and what follows them. *)
Fixpoint span_digits (s : pystr) : pystr * pystr :=
  match s with
  | c :: s' =>
      if is_digit c then let '(ds, rest) := span_digits s' in (c :: ds, rest)
      else ([], s)
  | [] => ([], [])
  end.

(** The value of a string of ASCII decimal digits. *)
Definition digits_value (ds : pystr) : Z :=
  fold_left (fun acc c => (acc * 10 + Z.of_N (c - 48))%Z) ds 0%Z.

Section Scanner.
(** [sys.get_int_max_str_digits()]; zero is no limit. *)
Context (int_max_str_digits : nat).

(** [PyLong_FromString] on an optional sign and decimal digits *)
Definition long_from_digits (negative : bool) (ds : pystr) : outcome pyval :=
  if ((0 <? int_max_str_digits) && (int_max_str_digits <? length ds))%nat
  then Raise ValueError
  else Return (PInt (if negative then - digits_value ds else digits_value ds)%Z).

(** [_match_number_unicode] reads an optional minus, an integer part
    without a leading zero, an optional fraction and an optional exponent;
    a fraction or an exponent needs a digit, otherwise the number ends
    before it.  Each part gives the text it read and what follows. *)
Definition number_sign (s : pystr) : bool * pystr :=
  match s with
  | c :: s' => if c =? 45 then (true, s') else (false, s)
  | [] => (false, s)
  end.

Definition number_integer (s : pystr) : option (pystr * pystr) :=
  match s with
  | [] => None
  | c :: s' =>
      if (49 <=? c) && (c <=? 57)
      then let '(ds, rest) := span_digits s' in Some (c :: ds, rest)
      else if c =? 48 then Some ([48], s')
      else None
  end.

Definition number_fraction (s : pystr) : pystr * pystr :=
  match s with
  | dot :: (d :: _) as s' =>
      if (dot =? 46) && is_digit d
      then let '(ds, rest) := span_digits s' in (dot :: ds, rest)
      else ([], s)
  | _ => ([], s)
  end.

Definition number_exponent (s : pystr) : pystr * pystr :=
  match s with
  | e :: s' =>
      if (e =? 101) || (e =? 69) then
        let '(esign, s'') :=
          match s' with
          | sg :: (_ :: _) as r =>
              if (sg =? 45) || (sg =? 43) then ([sg], r) else ([], s')
          | _ => ([], s')
          end in
        match span_digits s'' with
        | ([], _) => ([], s)
        | (ds, rest) => (e :: esign ++ ds, rest)
        end
      else ([], s)
  | [] => ([], s)
  end.

Definition match_number (s : pystr) : outcome (pyval * pystr) :=
  let '(negative, s) := number_sign s in
  match number_integer s with
  | None => Raise JSONDecodeError
  | Some (integer, s) =>
      let '(frac, s) := number_fraction s in
      let '(exp, s) := number_exponent s in
      match frac, exp with
      | [], [] =>
          match long_from_digits negative integer with
          | Return v => Return (v, s)
          | Raise e => Raise e
          end
      | _, _ =>
          Return (PFloat ((if negative then [45] else []) ++ integer ++ frac ++ exp), s)
      end
  end.

(** The loop of [_parse_array_unicode], from the first element.  [scan] is
    the scanner for the elements.  Every turn takes at least one character:
    [fuel] bounds the turns, and the length of the text is enough of it
    (see [parse_fuel_is_enough]). *)
Fixpoint array_loop (scan : pystr -> outcome (pyval * pystr)) (fuel : nat)
  (rval : list pyval) (s : pystr) : outcome (pyval * pystr) :=
  match fuel with
  | O => Raise JSONDecodeError
  | S fuel =>
      match scan s with
      | Raise e => Raise e
      | Return (val, s) =>
          let rval := rval ++ [val] in
          match skip_ws s with
          | c :: s' =>
              if c =? 93 then Return (PList rval, s')
              else if c =? 44 then array_loop scan fuel rval (skip_ws s')
              else Raise JSONDecodeError
          | [] => Raise JSONDecodeError
          end
      end
  end.

Definition parse_array (scan : pystr -> outcome (pyval * pystr)) (s : pystr)
  : outcome (pyval * pystr) :=
  match skip_ws s with
  | c :: s' =>
      if c =? 93 then Return (PList [], s')
      else array_loop scan (length s) [] (skip_ws s)
  | [] => Raise JSONDecodeError
  end.

(** The loop of [_parse_object_unicode], from the first key. *)
Fixpoint object_loop (scan : pystr -> outcome (pyval * pystr)) (fuel : nat)
  (rval : gmap pystr pyval) (s : pystr) : outcome (pyval * pystr) :=
  match fuel with
  | O => Raise JSONDecodeError
  | S fuel =>
      match s with
      | q :: s =>
          if q =? 34 then
            match scanstring [] s with
            | Raise e => Raise e
            | Return (key, s) =>
                match skip_ws s with
                | colon :: s =>
                    if colon =? 58 then
                      match scan (skip_ws s) with
                      | Raise e => Raise e
                      | Return (val, s) =>
                          let rval := <[key := val]> rval in
                          match skip_ws s with
                          | c :: s' =>
                              if c =? 125 then Return (PDict rval, s')
                              else if c =? 44
                                   then object_loop scan fuel rval (skip_ws s')
                              else Raise JSONDecodeError
                          | [] => Raise JSONDecodeError
                          end
                      end
                    else Raise JSONDecodeError
                | [] => Raise JSONDecodeError
                end
            end
          else Raise JSONDecodeError
      | [] => Raise JSONDecodeError
      end
  end.

Definition parse_object (scan : pystr -> outcome (pyval * pystr)) (s : pystr)
  : outcome (pyval * pystr) :=
  match skip_ws s with
  | c :: s' =>
      if c =? 125 then Return (PDict ∅, s')
      else object_loop scan (length s) ∅ (skip_ws s)
  | [] => Raise JSONDecodeError
  end.

(** The named constants of [scan_once_unicode], and the numbers when the
    text starts with none of them. *)
Definition scan_constant (s : pystr) : outcome (pyval * pystr) :=
  if startswith (py "null") s then Return (PNone, drop 4 s)
  else if startswith (py "true") s then Return (PBool true, drop 4 s)
  else if startswith (py "false") s then Return (PBool false, drop 5 s)
  else if startswith (py "NaN") s then Return (PFloat (py "NaN"), drop 3 s)
  else if startswith (py "Infinity") s then Return (PFloat (py "Infinity"), drop 8 s)
  else if startswith (py "-Infinity") s then Return (PFloat (py "-Infinity"), drop 9 s)
  else match_number s.

(** [scan_once_unicode].  [depth] is the number of nested arrays and
    objects the interpreter lets the scanner enter before
    [Py_EnterRecursiveCall] raises [RecursionError].  A scan that finds no
    value raises [StopIteration], which [raw_decode] turns into a
    [JSONDecodeError]: it is one here. *)
Fixpoint scan_once (depth : nat) (s : pystr) : outcome (pyval * pystr) :=
  match s with
  | [] => Raise JSONDecodeError
  | c :: s' =>
      if c =? 34 then
        match scanstring [] s' with
        | Return (str, rest) => Return (PStr str, rest)
        | Raise e => Raise e
        end
      else if c =? 123 then
        match depth with
        | O => Raise RecursionError
        | S depth => parse_object (scan_once depth) s'
        end
      else if c =? 91 then
        match depth with
        | O => Raise RecursionError
        | S depth => parse_array (scan_once depth) s'
        end
      else scan_constant s
  end.

(** [json.loads(s)] on a [str]: [JSONDecoder.decode] after the test for a
    byte order mark. *)
Definition loads (depth : nat) (s : pystr) : outcome pyval :=
  if startswith [0xFEFF] s then Raise JSONDecodeError
  else
    match scan_once depth (skip_ws s) with
    | Raise e => Raise e
    | Return (obj, rest) =>
        match skip_ws rest with
        | [] => Return obj
        | _ => Raise JSONDecodeError
        end
    end.

End Scanner.
End Json.

(** ** The coercer: [str_to_dict_validator] *)

(** What the coercer takes from the interpreter it runs on. *)
Record Interpreter := {
  unicode : UnicodeData;
  (** [sys.get_int_max_str_digits()]; zero is no limit *)
  int_max_str_digits : nat;
  (** how many nested arrays and objects [json.loads] can enter before the
      recursion limit is hit *)
  json_depth : nat;
  (** [ast.literal_eval] *)
  literal_eval : pystr -> outcome pyval;
  (** what [print(text)] raises on [sys.stdout], if anything: a
      [UnicodeEncodeError] (a [ValueError]) where the stream cannot encode
      the text, an [OSError] where the stream is broken *)
  print_error : pystr -> option exn;
  (** what [print(e)] raises, if anything, for the exception [e] that the
      third strategy raised on the string given *)
  print_exception_error : pystr -> option exn
}.

Section Coercer.
Context (interp : Interpreter).

Definition json_loads (s : pystr) : outcome pyval :=
  Json.loads (int_max_str_digits interp) (json_depth interp) s.

(** [int(value)] on a string of digits, the only strings the code
    converts: every character must be a decimal digit, and there must not
    be more of them than the interpreter converts. *)
Definition int (value : pystr) : outcome Z :=
  match mapM (decimal_value (unicode interp)) value with
  | None => Raise ValueError
  | Some ds =>
      if ((0 <? int_max_str_digits interp)
          && (int_max_str_digits interp <? length ds))%nat
      then Raise ValueError
      else Return (fold_left (fun acc d => (acc * 10 + Z.of_N d)%Z) ds 0%Z)
  end.

(** The [if]/[elif] chain on one value of the query string. *)
Definition convert_value (value : pystr) : outcome pyval :=
  if bool_decide (lower (unicode interp) value = py "true") then Return (PBool true)
  else if bool_decide (lower (unicode interp) value = py "false") then Return (PBool false)
  else if isdigit (unicode interp) value then
    match int value with
    | Return n => Return (PInt n)
    | Raise e => Raise e
    end
  else Return (PStr value).

(** The loop over the pairs ([kv] is the [pair] of the source);
    [key, value = pair.split('=', 1)] needs the two parts. *)
Fixpoint url_pairs (pairs : list pystr) (params : gmap pystr pyval)
  : outcome (gmap pystr pyval) :=
  match pairs with
  | [] => Return params
  | kv :: pairs =>
      if contains (py "=") kv then
        match split1 (py "=") kv with
        | [key; value] =>
            match convert_value value with
            | Return x => url_pairs pairs (<[key := x]> params)
            | Raise e => Raise e
            end
        | _ => Raise ValueError
        end
      else url_pairs pairs params
  end.

(** [print(text)] in a handler, and what follows it: nothing catches
    what [print] raises there. *)
Definition print_then {A} (text : pystr) (rest : outcome A) : outcome A :=
  match print_error interp text with
  | Some e => Raise e
  | None => rest
  end.

(** The third [try]: [except Exception] catches every failure, prints
    the exception, prints the string and the [None] that this [print]
    returns, and falls to the final [return v]. *)
Definition url_parameters (v : pystr) : outcome pyval :=
  if contains (py "=") v then
    match url_pairs (split_char 38 v) ∅ with
    | Return params => Return (PDict params)
    | Raise _ =>
        match print_exception_error interp v with
        | Some e => Raise e
        | None => print_then v (print_then (py "None") (Return (PStr v)))
        end
    end
  else Return (PStr v).

Definition looks_like_dict (v : pystr) : bool :=
  startswith (py "{") (strip v) && endswith (py "}") (strip v).

(** [except (ValueError, SyntaxError, TypeError)]; [JSONDecodeError] is a
    subclass of [ValueError]. *)
Definition literal_handler_catches (e : exn) : bool :=
  match e with
  | ValueError | JSONDecodeError | SyntaxError | TypeError => true
  | RecursionError | MemoryError | OSError => false
  end.

(** The second [try], whose handler prints the string, and what follows
    it. *)
Definition python_literal (v : pystr) : outcome pyval :=
  if looks_like_dict v then
    match literal_eval interp v with
    | Return obj => Return obj
    | Raise e =>
        if literal_handler_catches e then print_then v (url_parameters v)
        else Raise e
    end
  else url_parameters v.

(** The handler of the first [try] prints the string before the second
    strategy is tried. *)
Definition str_to_dict_validator (v : pyval) : outcome pyval :=
  match v with
  | PStr [] => Return (PDict ∅)
  | PStr s =>
      match json_loads s with
      | Return obj => Return obj
      | Raise JSONDecodeError => print_then s (python_literal s)
      | Raise e => Raise e
      end
  | _ => Return v
  end.

(** A stream that prints what the handlers of the coercer print on the
    string. *)
Definition prints (v : pystr) : Prop :=
  print_error interp v = None
  /\ print_error interp (py "None") = None
  /\ print_exception_error interp v = None.

End Coercer.

(** CPython with its defaults: at most 4300 digits in a conversion, a
    recursion limit of 1000, and a standard output in UTF-8, which prints
    every text without a lone surrogate; the messages of the exceptions of
    [int] hold ASCII text and digits, which it prints.  [ast.literal_eval]
    is left out: this evaluator refuses every input, so the closed examples
    below are on strings that the coercer does not hand to it (see
    [validator_without_literal_eval]). *)
Definition cpython : Interpreter := {|
  unicode := latin1;
  int_max_str_digits := 4300;
  json_depth := 1000;
  literal_eval := fun _ => Raise SyntaxError;
  print_error := fun text =>
    match utf8_error 0 text with
    | Some _ => Some ValueError
    | None => None
    end;
  print_exception_error := fun _ => None
|}.

(** * The rest of [tools.py] *)

(** ** File names from URLs and queries: [sanitize_filename] *)

(** [s[:n]] for an integer [n]: the first [n] characters, or all but the
    last [-n] when [n] is negative. *)
Definition slice_to (n : Z) (s : pystr) : pystr :=
  if (n <? 0)%Z then take (length s - Z.to_nat (- n)) s
  else take (Z.to_nat n) s.

(** [re.sub(r'^https?://', '', url)] *)
Definition strip_scheme (url : pystr) : pystr :=
  if startswith (py "http://") url then drop 7 url
  else if startswith (py "https://") url then drop 8 url
  else url.

Section UrlNames.
Context (ucd : UnicodeData).

(** The class [\w\s.-] that [re.sub(r'[^\w\s.-]', '_', ...)] keeps. *)
Definition keeps_in_url (c : N) : bool :=
  is_word ucd c || isspace c || (c =? 46) || (c =? 45).

Definition sanitize_filename (url : pystr) (max_length : Z) : pystr :=
  let clean_name := strip_scheme url in
  let clean_name := map (fun c => if keeps_in_url c then c else 95) clean_name in
  let clean_name := collapse_runs false clean_name in
  slice_to max_length clean_name.

(** A character of a sanitized URL: a word character or a dot, and never a
    hyphen or white space. *)
Definition url_name_char (c : N) : Prop :=
  (is_word ucd c = true \/ c = 46) /\ is_hyphen_or_space c = false.

(** A character of a sanitized title: a word character, and never a hyphen
    or white space. *)
Definition title_name_char (c : N) : Prop :=
  is_word ucd c = true /\ is_hyphen_or_space c = false.

End UrlNames.

(** ** [ScrapeUrlTool._get_extension_from_content_type] *)

Definition _get_extension_from_content_type (content_type : pystr) : pystr :=
  if contains (py "image/png") content_type then py "png"
  else if contains (py "image/jpeg") content_type
          || contains (py "image/jpg") content_type then py "jpg"
  else if contains (py "application/pdf") content_type then py "pdf"
  else if contains (py "image/webp") content_type then py "webp"
  else if contains (py "image/gif") content_type then py "gif"
  else py "bin".

(** ** The summary of the image search *)

(** [sum(1 for r in saved_images if r.startswith("Saved:"))] *)
Definition success_count (saved_images : list pystr) : nat :=
  length (List.filter (startswith (py "Saved:")) saved_images).

(** An entry whose payload the persister can decode. *)
Definition decodes (entry : base64_entry) : bool :=
  succeeds (decode_image_data (b64_data entry)).

(** ** Characters of the base64 alphabet *)

Definition in_alphabet (c : N) : bool :=
  match table_a2b_base64 c with
  | Some _ => true
  | None => false
  end.

(** ** The request of [ScrapeUrlTool._run] *)

(** The test on the content type in [is_binary]:
    [any(sub in content_type for sub in ['image/', 'application/pdf',
    'octet-stream'])]. *)
Definition has_binary_content_type (content_type : pystr) : bool :=
  existsb (fun sub => contains sub content_type)
    [py "image/"; py "application/pdf"; py "octet-stream"].

Section Stringify.
(** [json.dumps] on a dictionary or a list. *)
Context (json_dumps : pyval -> pystr).

(** The body of the loop of [stringify_nested_objects]:
    [isinstance(value, (dict, list))]. *)
Definition stringify_value (value : pyval) : pyval :=
  match value with
  | PDict _ | PList _ => PStr (json_dumps value)
  | _ => value
  end.

(** [stringify_nested_objects]: every key gets the processed value. *)
Definition stringify_nested_objects (params : gmap pystr pyval) : gmap pystr pyval :=
  stringify_value <$> params.

(** [f"Spb-{key}"] *)
Definition spb_key (key : pystr) : pystr := py "Spb-" ++ key.

(** The parameters and the headers that [ScrapeUrlTool._run] hands to
    [requests.get]; [None] stands for an argument left out. *)
Definition scrape_request (api_key url : pystr) (params : option (gmap pystr pyval))
  (headers : option (gmap pystr pystr)) : gmap pystr pyval * gmap pystr pystr :=
  let params := default ∅ params in
  let processed_params := stringify_nested_objects params in
  let headers := default ∅ headers in
  let final_headers : gmap pystr pystr :=
    map_fold (fun key value final_headers => <[spb_key key := value]> final_headers)
      ∅ headers in
  let processed_params :=
    if bool_decide (headers = ∅) then processed_params
    else <[py "forward_headers" := PBool true]> processed_params in
  let final_headers := <[py "User-Agent" := py "LangChain"]> final_headers in
  let request_params : gmap pystr pyval :=
    processed_params ∪ <[py "url" := PStr url]> {[py "api_key" := PStr api_key]} in
  (request_params, final_headers).

End Stringify.

(** ** The file that [ScrapeUrlTool._run] saves *)

Section ScrapeFile.
Context (ucd : UnicodeData).

(** The name of the file: [custom_filename] when it is given and not
    empty ([if custom_filename:]), else the name made from the URL with
    the extension of the content type or [html]. *)
Definition scrape_filename (url : pystr) (custom_filename : option pystr)
  (is_binary : bool) (content_type : pystr) : pystr :=
  match custom_filename with
  | Some (c :: name) => c :: name
  | _ =>
      if is_binary then
        let base_name := sanitize_filename ucd url 100 in
        let ext := _get_extension_from_content_type content_type in
        base_name ++ py "." ++ ext
      else sanitize_filename ucd url 100 ++ py ".html"
  end.

(** [os.path.join(folder_path, filename)] *)
Definition scrape_file_path (folder_path url : pystr) (custom_filename : option pystr)
  (is_binary : bool) (content_type : pystr) : pystr :=
  path_join folder_path (scrape_filename url custom_filename is_binary content_type).

End ScrapeFile.

(** * The specification's words

    The definitions the theorems compare the code with. *)

(** The text after the first occurrence of [p], when there is one. *)
Fixpoint after_first (p s : pystr) : option pystr :=
  if startswith p s then Some (drop (length p) s)
  else match s with
       | [] => None
       | _ :: s' => after_first p s'
       end.

(** The three steps as the specification words them. *)
Module Policy.

(** Step 1: a [data:image/] prefix and a [base64,] marker. *)
Definition matches_data_uri (data : pystr) : bool :=
  startswith (py "data:image/") data && contains (py "base64,") data.

(** Step 2: one of the four URL prefixes. *)
Definition starts_like_url (data : pystr) : bool :=
  existsb (fun prefix => startswith prefix data)
    [py "http://"; py "https://"; py "//"; py "/"].

(** Step 3: what precedes the payload is dropped, ... *)
Definition strip_base64_prefix (data : pystr) : pystr :=
  default data (after_first (py "base64,") data).

(** ... the payload is padded to the next multiple of four, ... *)
Definition pad_to_multiple_of_4 (s : pystr) : pystr :=
  s ++ replicate ((4 - length s mod 4) mod 4)%nat BASE64_PAD.

(** ... and decoded. *)
Definition decodes (data : pystr) : bool :=
  succeeds
    (b64decode (pad_to_multiple_of_4 (remove_whitespace (strip_base64_prefix data)))).

Definition isBase64Image (data : pystr) : bool :=
  if matches_data_uri data then true
  else if starts_like_url data then false
  else decodes data.

End Policy.


(** The table of magic bytes: the format [fmt] that the leading bytes of
    [image_bytes] stand for, [jpg] when none of the four matches. *)
Inductive sniffed (image_bytes : pybytes) : pystr -> Prop :=
| sniffed_png :
    startswith [0x89; 0x50; 0x4E; 0x47; 0x0D; 0x0A; 0x1A; 0x0A] image_bytes = true ->
    sniffed image_bytes (py "png")
| sniffed_gif :
    startswith [0x47; 0x49; 0x46; 0x38] image_bytes = true ->
    sniffed image_bytes (py "gif")
| sniffed_webp :
    startswith [0x52; 0x49; 0x46; 0x46] image_bytes = true ->
    contains [0x57; 0x45; 0x42; 0x50] image_bytes = true ->
    sniffed image_bytes (py "webp")
| sniffed_jpg :
    startswith [0xFF; 0xD8; 0xFF] image_bytes = true ->
    sniffed image_bytes (py "jpg")
| sniffed_default :
    startswith [0x89; 0x50; 0x4E; 0x47; 0x0D; 0x0A; 0x1A; 0x0A] image_bytes = false ->
    startswith [0x47; 0x49; 0x46; 0x38] image_bytes = false ->
    startswith [0x52; 0x49; 0x46; 0x46] image_bytes
    && contains [0x57; 0x45; 0x42; 0x50] image_bytes = false ->
    startswith [0xFF; 0xD8; 0xFF] image_bytes = false ->
    sniffed image_bytes (py "jpg").

(** The numbered block of the manifest for one link. *)
Definition manifest_entry (number : nat) (l : link_info) : pystr :=
  str_of_N (N.of_nat number) ++ py ". Title: " ++ link_title l ++ [10]
  ++ py "   URL: " ++ link_url l ++ [10]
  ++ py "   Position: " ++ str_of_Z (link_position l) ++ [10; 10].

(** The manifest: the header with the time stamp, then the blocks, numbered
    from one, in the order of the links. *)
Definition manifest_text (now : pystr) (image_links : list link_info) : pystr :=
  py "# Image Links from Google Search" ++ [10]
  ++ py "# Generated: " ++ now ++ [10; 10]
  ++ concat (imap (fun i l => manifest_entry (S i) l) image_links).

(** Text that UTF-8 can encode: no surrogate code point. *)
Definition encodable (s : pystr) : Prop := Forall (fun c => is_surrogate c = false) s.

(** The verdict of the classifier on an item of the response, and the two
    entries an item can become. *)
Definition is_inline_image (item : image_result) : bool :=
  _is_base64_image (get (res_image item) []).

Definition base64_entry_of (item : image_result) : base64_entry :=
  {| b64_data := get (res_image item) [];
     b64_title := get (res_title item) (py "untitled");
     b64_position := get (res_position item) 0%Z |}.

Definition link_info_of (item : image_result) : link_info :=
  {| link_url := get (res_image item) [];
     link_title := get (res_title item) (py "untitled");
     link_position := get (res_position item) 0%Z |}.


(** The query string as the specification reads it: a pair is cut at its
    first [=], ... *)
Fixpoint cut_at_first (sep : N) (s : pystr) : option (pystr * pystr) :=
  match s with
  | [] => None
  | c :: s' =>
      if c =? sep then Some ([], s')
      else match cut_at_first sep s' with
           | Some (before, after) => Some (c :: before, after)
           | None => None
           end
  end.

Section QueryString.
Context (interp : Interpreter).

(** ... its value becomes a boolean, an integer or stays a string, ... *)
Definition coerced_value (value : pystr) : pyval :=
  if bool_decide (lower (unicode interp) value = py "true") then PBool true
  else if bool_decide (lower (unicode interp) value = py "false") then PBool false
  else if isdigit (unicode interp) value
       then match int interp value with
            | Return n => PInt n
            | Raise _ => PStr value
            end
  else PStr value.

(** ... and a later pair replaces an earlier one with the same key. *)
Definition add_pair (params : gmap pystr pyval) (kv : pystr) : gmap pystr pyval :=
  match cut_at_first 61 kv with
  | Some (key, value) => <[key := coerced_value value]> params
  | None => params
  end.

Definition query_mapping (v : pystr) : gmap pystr pyval :=
  foldl add_pair ∅ (split_char 38 v).

(** The values that the conversion to an integer refuses: digits by
    [str.isdigit] that [int] does not read. *)
Definition unreadable_digits (value : pystr) : bool :=
  negb (bool_decide (lower (unicode interp) value = py "true"))
  && negb (bool_decide (lower (unicode interp) value = py "false"))
  && isdigit (unicode interp) value
  && negb (returns (int interp value)).

Definition readable_pair (kv : pystr) : Prop :=
  forall key value, cut_at_first 61 kv = Some (key, value) ->
                    unreadable_digits value = false.

End QueryString.

(** The same interpreter with another [ast.literal_eval]. *)
Definition with_literal_eval (interp : Interpreter) (f : pystr -> outcome pyval)
  : Interpreter :=
  {| unicode := unicode interp;
     int_max_str_digits := int_max_str_digits interp;
     json_depth := json_depth interp;
     literal_eval := f;
     print_error := print_error interp;
     print_exception_error := print_exception_error interp |}.

(** [base64.b64encode]: three octets give four characters of the
    alphabet, and a last group of one or two octets is filled with [=]. *)
Module Encode.

Definition table_b2a_base64 (v : N) : N :=
  if v <? 26 then 65 + v
  else if v <? 52 then 97 + (v - 26)
  else if v <? 62 then 48 + (v - 52)
  else if v =? 62 then 43
  else 47.

(** The four six-bit values of the octets [a], [b], [c]. *)
Definition sextet1 (a : N) : N := N.shiftr a 2.
Definition sextet2 (a b : N) : N := N.lor (N.shiftl (N.land a 3) 4) (N.shiftr b 4).
Definition sextet3 (b c : N) : N := N.lor (N.shiftl (N.land b 15) 2) (N.shiftr c 6).
Definition sextet4 (c : N) : N := N.land c 63.

Fixpoint b64encode (s : pybytes) : pystr :=
  match s with
  | [] => []
  | [a] =>
      [table_b2a_base64 (sextet1 a); table_b2a_base64 (sextet2 a 0);
       BASE64_PAD; BASE64_PAD]
  | [a; b] =>
      [table_b2a_base64 (sextet1 a); table_b2a_base64 (sextet2 a b);
       table_b2a_base64 (sextet3 b 0); BASE64_PAD]
  | a :: b :: c :: rest =>
      table_b2a_base64 (sextet1 a) :: table_b2a_base64 (sextet2 a b)
      :: table_b2a_base64 (sextet3 b c) :: table_b2a_base64 (sextet4 c)
      :: b64encode rest
  end.

(** A [bytes] object holds octets. *)
Definition is_bytes (s : pybytes) : Prop := Forall (fun b => b < 256) s.

End Encode.

(** The numbers below [n], to check a property of small numbers by running
    it on all of them. *)
Definition below (n : nat) : list N := map N.of_nat (seq 0 n).

(** A character that the cleaning of a payload keeps, that the decoder can
    read as ASCII, and that is no comma. *)
Definition clean_char (c : N) : Prop :=
  is_ascii c = true /\ isspace c = false /\ c <> 44.

(** ** Well-formed JSON

    The grammar of RFC 8259, with the three constants that [json.loads]
    reads beyond it. *)

Definition json_ws (c : N) : Prop := c = 32 \/ c = 9 \/ c = 10 \/ c = 13.

Definition json_digit (c : N) : Prop := 48 <= c <= 57.

Definition json_hex (c : N) : Prop :=
  48 <= c <= 57 \/ 97 <= c <= 102 \/ 65 <= c <= 70.

(** The characters between the quotes of a string: any character from
    U+0020 on but the quote and the backslash, or an escape. *)
Inductive json_chars : pystr -> Prop :=
| chars_none : json_chars []
| chars_plain c s :
    32 <= c -> c <> 34 -> c <> 92 -> json_chars s -> json_chars (c :: s)
| chars_escape e s :
    e ∈ [34; 92; 47; 98; 102; 110; 114; 116] -> json_chars s ->
    json_chars (92 :: e :: s)
| chars_unicode h1 h2 h3 h4 s :
    Forall json_hex [h1; h2; h3; h4] -> json_chars s ->
    json_chars (92 :: 117 :: h1 :: h2 :: h3 :: h4 :: s).

Definition json_digits (ds : pystr) : Prop := ds <> [] /\ Forall json_digit ds.

(** A number: an optional minus, an integer part without a leading zero,
    an optional fraction and an optional exponent, each with a digit at
    least. *)
Definition json_number (text : pystr) : Prop :=
  exists sign integer frac exp,
    text = sign ++ integer ++ frac ++ exp
    /\ (sign = [] \/ sign = [45])
    /\ (integer = [48]
        \/ exists d ds, integer = d :: ds /\ 49 <= d <= 57 /\ Forall json_digit ds)
    /\ (frac = [] \/ exists ds, frac = 46 :: ds /\ json_digits ds)
    /\ (exp = []
        \/ exists e esign ds,
             exp = e :: esign ++ ds /\ (e = 101 \/ e = 69)
             /\ (esign = [] \/ esign = [43] \/ esign = [45]) /\ json_digits ds).

(** A value; the elements of an array, from the first value to the white
    space before the closing bracket; the members of an object, from the
    quote of the first name to the white space before the closing brace. *)
Inductive json_value : pystr -> Prop :=
| value_string body :
    json_chars body -> json_value (34 :: body ++ [34])
| value_number text :
    json_number text -> json_value text
| value_constant text :
    text ∈ [py "null"; py "true"; py "false"] -> json_value text
| value_python_constant text :
    text ∈ [py "NaN"; py "Infinity"; py "-Infinity"] -> json_value text
| value_empty_array ws :
    Forall json_ws ws -> json_value (91 :: ws ++ [93])
| value_array ws elements :
    Forall json_ws ws -> json_elements elements ->
    json_value (91 :: ws ++ elements ++ [93])
| value_empty_object ws :
    Forall json_ws ws -> json_value (123 :: ws ++ [125])
| value_object ws members :
    Forall json_ws ws -> json_members members ->
    json_value (123 :: ws ++ members ++ [125])
with json_elements : pystr -> Prop :=
| elements_last value ws :
    json_value value -> Forall json_ws ws -> json_elements (value ++ ws)
| elements_more value ws ws' elements :
    json_value value -> Forall json_ws ws -> Forall json_ws ws' ->
    json_elements elements ->
    json_elements (value ++ ws ++ 44 :: ws' ++ elements)
with json_members : pystr -> Prop :=
| members_last name ws ws' value ws'' :
    json_chars name -> Forall json_ws ws -> Forall json_ws ws' ->
    json_value value -> Forall json_ws ws'' ->
    json_members (34 :: name ++ 34 :: ws ++ 58 :: ws' ++ value ++ ws'')
| members_more name ws ws' value ws'' ws''' members :
    json_chars name -> Forall json_ws ws -> Forall json_ws ws' ->
    json_value value -> Forall json_ws ws'' -> Forall json_ws ws''' ->
    json_members members ->
    json_members (34 :: name ++ 34 :: ws ++ 58 :: ws' ++ value ++ ws''
                  ++ 44 :: ws''' ++ members).

(** A JSON text: one value, with white space around it. *)
Definition well_formed_json (s : pystr) : Prop :=
  exists ws value ws',
    s = ws ++ value ++ ws' /\ Forall json_ws ws /\ json_value value
    /\ Forall json_ws ws'.

(** A scanner that returns has read at least one character. *)
Definition consumes (scan : pystr -> outcome (pyval * pystr)) : Prop :=
  forall s v rest, scan s = Return (v, rest) -> (length rest < length s)%nat.

(** A scanner that reads texts of a kind: what it takes from the head of
    the string when it returns is of this kind. *)
Definition reads (kind : pystr -> Prop) (scan : pystr -> outcome (pyval * pystr))
  : Prop :=
  forall s v rest, scan s = Return (v, rest) -> exists text, s = text ++ rest /\ kind text.

(** * Properties *)

(** ** Strings *)

Section StrFacts.
Implicit Types (p s t : pystr) (c : N).

Lemma startswith_spec p s : startswith p s = true <-> exists t, s = p ++ t.
Proof.
  revert s. induction p as [|a p IH]; intros s; simpl.
  - split; eauto.
  - destruct s as [|b s].
    + split; [done | intros [t Ht]; done].
    + rewrite andb_true_iff, N.eqb_eq, IH. split.
      * intros [-> [t ->]]. eauto.
      * intros [t Ht]. injection Ht as -> ->. eauto.
Qed.

Lemma startswith_app p t : startswith p (p ++ t) = true.
Proof. apply startswith_spec. eauto. Qed.

Lemma startswith_nil_r p : startswith p [] = true -> p = [].
Proof. destruct p; done. Qed.

Lemma split1_not_nil p s : split1 p s <> [].
Proof.
  destruct s as [|c s]; simpl; destruct (startswith p _); try done.
  destruct (split1 p s); done.
Qed.

Lemma split1_second p s : split1 p s !! 1%nat = after_first p s.
Proof.
  induction s as [|c s IH]; simpl.
  - destruct (startswith p []); done.
  - destruct (startswith p (c :: s)); [done|].
    rewrite <- IH. pose proof (split1_not_nil p s).
    destruct (split1 p s); done.
Qed.

Lemma after_first_contains p s : is_Some (after_first p s) <-> contains p s = true.
Proof.
  induction s as [|c s IH]; simpl.
  - destruct (startswith p []); simpl; [by split; eauto|].
    split; [by intros [? ?] | done].
  - destruct (startswith p (c :: s)); simpl; [by split; eauto | done].
Qed.

Lemma after_first_none p s : contains p s = false -> after_first p s = None.
Proof.
  intros H. destruct (after_first p s) eqn:E; [|done].
  assert (contains p s = true) by (apply after_first_contains; eauto). congruence.
Qed.

End StrFacts.

(** ** The classifier against its decision policy *)

Lemma pad_policy (s : pystr) :
  (if (length s mod 4 =? 0)%nat then s
   else s ++ replicate (4 - length s mod 4) BASE64_PAD)
  = Policy.pad_to_multiple_of_4 s.
Proof.
  unfold Policy.pad_to_multiple_of_4.
  pose proof (Nat.mod_upper_bound (length s) 4 ltac:(lia)) as Hlt.
  destruct (Nat.eqb_spec (length s mod 4) 0) as [Hz | Hnz].
  - rewrite Hz. simpl. by rewrite app_nil_r.
  - by rewrite (Nat.mod_small (4 - length s mod 4) 4) by lia.
Qed.

Lemma clean_b64_data_policy data :
  clean_b64_data data
  = Ok (Policy.pad_to_multiple_of_4
          (remove_whitespace (Policy.strip_base64_prefix data))).
Proof.
  unfold clean_b64_data, Policy.strip_base64_prefix.
  rewrite split1_second.
  destruct (contains (py "base64,") data) eqn:Hc.
  - apply after_first_contains in Hc as [payload Hp]. rewrite Hp. simpl.
    rewrite <- pad_policy. by destruct (_ =? _)%nat.
  - rewrite (after_first_none _ _ Hc). simpl.
    rewrite <- pad_policy. by destruct (_ =? _)%nat.
Qed.

Lemma decode_image_data_policy data :
  succeeds (decode_image_data data) = Policy.decodes data.
Proof. unfold decode_image_data. by rewrite clean_b64_data_policy. Qed.

Lemma is_url_policy data : is_url data = Policy.starts_like_url data.
Proof. unfold is_url, Policy.starts_like_url. simpl. by rewrite orb_false_r, !orb_assoc. Qed.

(** C1 (as amended).  On every non-empty string the classifier follows the
    three-step policy in order: true for a [data:image/] prefix with a
    [base64,] marker, without decoding; else false for a string starting
    with [http://], [https://], [//] or [/]; else true exactly when the
    payload (what follows the first [base64,], without white space, padded
    with [=] to a multiple of four) decodes as base64. *)
Theorem is_base64_image_follows_policy (image_data : pystr) :
  image_data <> [] ->
  _is_base64_image image_data = Policy.isBase64Image image_data.
Proof.
  intros Hne. unfold _is_base64_image, Policy.isBase64Image.
  destruct image_data as [|c rest]; [done|].
  fold (Policy.matches_data_uri (c :: rest)).
  by rewrite is_url_policy, decode_image_data_policy.
Qed.

Lemma is_base64_image_follows_policy_witness :
  py "iVBORw0KGgo=" <> []
  /\ _is_base64_image (py "iVBORw0KGgo=") = Policy.isBase64Image (py "iVBORw0KGgo=").
Proof.
  split; [discriminate | apply is_base64_image_follows_policy; discriminate].
Defined.

(** C1, as stated, fails on the empty string: the three steps give true
    (no prefix matches and the empty payload decodes), the classifier
    gives false. *)
Lemma is_base64_image_policy_fails_on_empty :
  Policy.isBase64Image (py "") = true /\ _is_base64_image (py "") = false.
Proof. split; vm_compute; reflexivity. Qed.

(** C10.  The classifier rejects the empty string, although the empty
    payload decodes (to no bytes at all): the test for an empty field comes
    before any decoding. *)
Theorem is_base64_image_rejects_empty :
  _is_base64_image (py "") = false /\ decode_image_data (py "") = Ok [].
Proof. split; vm_compute; reflexivity. Qed.

(** ** The persister *)

Section PersisterFacts.
Context (ucd : UnicodeData).
Implicit Types (fs : filesystem) (title folder_path : pystr).

Lemma contains_app (p a b : pystr) : contains p (a ++ p ++ b) = true.
Proof.
  induction a as [|c a IH]; simpl.
  - destruct (p ++ b) eqn:E; simpl; rewrite <- ?E, startswith_app; done.
  - rewrite IH. apply orb_true_r.
Qed.

Lemma save_failure_names_title title msg :
  contains title (save_failure title msg) = true.
Proof. apply contains_app. Qed.

(** A payload that does not decode: the failure is returned and the file
    system is as it was. *)
Lemma save_base64_image_decode_error image_data folder_path filename_prefix title msg fs :
  decode_image_data image_data = Err msg ->
  _save_base64_image ucd image_data folder_path filename_prefix title fs
  = (fs, Ok (save_failure title msg)).
Proof.
  intros H. unfold _save_base64_image, try_except, bind, lift. by rewrite H.
Qed.

(** A payload that decodes, on a file system that lets the directory and
    the file be written. *)
Lemma save_base64_image_saved image_data folder_path filename_prefix title image_bytes fs :
  let file_path :=
    path_join folder_path
      (image_filename ucd filename_prefix title (detect_format image_bytes)) in
  decode_image_data image_data = Ok image_bytes ->
  io_fault fs folder_path = None ->
  io_fault fs file_path = None ->
  _save_base64_image ucd image_data folder_path filename_prefix title fs
  = ({| files := <[file_path := Binary image_bytes]> (files fs);
        dirs := {[folder_path]} ∪ dirs fs;
        io_fault := io_fault fs |},
     Ok (py "Saved: " ++ file_path)).
Proof.
  intros file_path Hdec Hdir Hfile.
  unfold _save_base64_image, try_except, bind, lift. rewrite Hdec.
  unfold makedirs. rewrite Hdir. unfold open_write. cbn [io_fault files dirs].
  fold file_path. rewrite Hfile. unfold write_bytes, ret. cbn [io_fault files dirs].
  rewrite lookup_insert_eq, insert_insert_eq. done.
Qed.


Lemma detect_format_sniffed image_bytes : sniffed image_bytes (detect_format image_bytes).
Proof.
  unfold detect_format.
  destruct (startswith PNG_MAGIC image_bytes) eqn:Hpng; [by constructor 1|].
  destruct (startswith GIF_MAGIC image_bytes) eqn:Hgif; [by constructor 2|].
  destruct (startswith RIFF_MAGIC image_bytes && contains WEBP_MARK image_bytes) eqn:Hwebp.
  { apply andb_true_iff in Hwebp as [? ?]. by constructor 3. }
  destruct (startswith JPEG_MAGIC image_bytes) eqn:Hjpg; [by constructor 4|].
  by constructor 5.
Qed.

Lemma sniffed_unique image_bytes fmt :
  sniffed image_bytes fmt -> fmt = detect_format image_bytes.
Proof.
  unfold detect_format, PNG_MAGIC, GIF_MAGIC, RIFF_MAGIC, WEBP_MARK, JPEG_MAGIC.
  change (py "GIF8") with [0x47; 0x49; 0x46; 0x38].
  change (py "RIFF") with [0x52; 0x49; 0x46; 0x46].
  change (py "WEBP") with [0x57; 0x45; 0x42; 0x50].
  inversion 1 as [Hp | Hg | Hr Hw | Hj | Hp Hg Hw Hj].
  - by rewrite Hp.
  - apply startswith_spec in Hg as [t ->]. reflexivity.
  - rewrite Hw. apply startswith_spec in Hr as [t ->]. reflexivity.
  - apply startswith_spec in Hj as [t ->]. reflexivity.
  - by rewrite Hp, Hg, Hw, Hj.
Qed.

End PersisterFacts.

(** ** The loops of the image search *)

Section LoopFacts.
Context (ucd : UnicodeData).

Lemma separate_filter image_results base64_images image_links :
  separate image_results base64_images image_links
  = (base64_images ++ map base64_entry_of (List.filter is_inline_image image_results),
     image_links
     ++ map link_info_of
          (List.filter (fun item => negb (is_inline_image item)) image_results)).
Proof.
  revert base64_images image_links.
  induction image_results as [|item rest IH]; intros b64s links.
  - simpl. by rewrite !app_nil_r.
  - cbn [separate List.filter].
    change (_is_base64_image (get (res_image item) [])) with (is_inline_image item).
    destruct (is_inline_image item); cbn [negb map]; rewrite IH, <- app_assoc; done.
Qed.

Lemma filter_partition_length {A} (f : A -> bool) (l : list A) :
  (length (List.filter f l) + length (List.filter (fun a => negb (f a)) l)
   = length l)%nat.
Proof. induction l as [|a l IH]; simpl; [done|]. destruct (f a); simpl; lia. Qed.

Lemma save_base64_images_app folder_path before after saved_images fs :
  save_base64_images ucd folder_path (before ++ after) saved_images fs
  = (saved <- save_base64_images ucd folder_path before saved_images ;;
     save_base64_images ucd folder_path after saved) fs.
Proof.
  revert saved_images fs.
  induction before as [|item before IH]; intros saved fs; simpl.
  - unfold bind, ret. reflexivity.
  - unfold bind.
    destruct (_save_base64_image _ _ _ _ _ fs) as [fs' [report | msg]]; [|done].
    apply IH.
Qed.


End LoopFacts.

(** C6.  When the payload of a record does not decode (after the prefix is
    dropped, white space removed and padding added), the persister returns
    a failure that carries the title of the record and leaves the file
    system as it was; in the loop over the records the failure takes the
    place of that record's report, and the records before and after it are
    processed as they would be without it. *)
Theorem decode_failure_is_local (ucd : UnicodeData) (image_data title msg : pystr) :
  decode_image_data image_data = Err msg ->
  (forall folder_path filename_prefix fs,
      _save_base64_image ucd image_data folder_path filename_prefix title fs
      = (fs, Ok (save_failure title msg)))
  /\ contains title (save_failure title msg) = true
  /\ (forall folder_path position before after saved_images fs,
         save_base64_images ucd folder_path
           (before
            ++ {| b64_data := image_data; b64_title := title; b64_position := position |}
            :: after)
           saved_images fs
         = (saved <- save_base64_images ucd folder_path before saved_images ;;
            save_base64_images ucd folder_path after
              (saved ++ [save_failure title msg])) fs).
Proof.
  intros Hdec. split; [|split].
  - intros. by apply save_base64_image_decode_error.
  - apply save_failure_names_title.
  - intros. rewrite save_base64_images_app. unfold bind.
    destruct (save_base64_images ucd folder_path before saved_images fs)
      as [fs' [saved | e]]; [|done].
    simpl. unfold bind.
    by rewrite (save_base64_image_decode_error ucd _ _ _ _ msg).
Qed.

Lemma decode_failure_is_local_witness :
  decode_image_data (py "data:image/png;base64,A") = Err
    (py "Invalid base64-encoded string: number of data characters (1) cannot be 1 more than a multiple of 4")
  /\ forall fs,
      _save_base64_image latin1 (py "data:image/png;base64,A") (py "out") (py "01")
        (py "logo") fs
      = (fs, Ok (py "Failed to save 'logo': Invalid base64-encoded string: number of data characters (1) cannot be 1 more than a multiple of 4")).
Proof.
  split; [vm_compute; reflexivity|].
  intros fs.
  apply (proj1 (decode_failure_is_local latin1 (py "data:image/png;base64,A") (py "logo") _
                  ltac:(vm_compute; reflexivity))).
Defined.


(** ** The manifest *)

Section ManifestFacts.
Implicit Types (s now path : pystr) (fs : filesystem).

Lemma utf8_error_encodable pos s : encodable s -> utf8_error pos s = None.
Proof.
  intros H. revert pos. induction H as [|c s Hc _ IH]; intros pos; simpl; [done|].
  by rewrite Hc.
Qed.

Lemma encodable_app s t : encodable s -> encodable t -> encodable (s ++ t).
Proof. apply Forall_app_2. Qed.

Lemma encodable_uint (u : Decimal.uint) : encodable (py (NilEmpty.string_of_uint u)).
Proof. induction u; simpl; constructor; done. Qed.

Lemma encodable_str_of_N (n : N) : encodable (str_of_N n).
Proof. apply encodable_uint. Qed.

Lemma encodable_str_of_Z (z : Z) : encodable (str_of_Z z).
Proof.
  destruct z; unfold str_of_Z; try apply encodable_str_of_N.
  apply encodable_app; [by vm_compute; repeat constructor | apply encodable_str_of_N].
Qed.

Lemma encodable_block i (l : link_info) :
  encodable (link_title l) -> encodable (link_url l) ->
  Forall encodable (link_block i l).
Proof.
  intros Ht Hu. unfold link_block.
  repeat first
    [ apply Forall_cons; split | apply Forall_nil_2 | apply encodable_app
    | apply encodable_str_of_N | apply encodable_str_of_Z | assumption
    | by repeat constructor ].
Qed.

Lemma encodable_blocks i (image_links : list link_info) :
  Forall (fun l => encodable (link_title l) /\ encodable (link_url l)) image_links ->
  Forall encodable (link_blocks i image_links).
Proof.
  intros H. revert i. induction H as [|l rest [Ht Hu] _ IH]; intros i;
    cbn [link_blocks].
  - constructor.
  - apply Forall_app_2; [by apply encodable_block | apply IH].
Qed.

Lemma encodable_header now : encodable now -> Forall encodable (manifest_header now).
Proof.
  intros H. unfold manifest_header.
  repeat first
    [ apply Forall_cons; split | apply Forall_nil_2 | apply encodable_app
    | assumption | by repeat constructor ].
Qed.

(** Text that can be encoded is appended to the file, write after write. *)
Lemma write_all_appends path chunks old fs :
  Forall encodable chunks ->
  files fs !! path = Some (Text old) ->
  write_all path chunks fs
  = ({| files := <[path := Text (old ++ concat chunks)]> (files fs);
        dirs := dirs fs; io_fault := io_fault fs |}, Ok tt).
Proof.
  intros H. revert old fs.
  induction H as [|s chunks Hs _ IH]; intros old fs Hold; cbn [write_all concat].
  - unfold ret. rewrite app_nil_r, insert_id by done. by destruct fs.
  - unfold bind, write_text. rewrite utf8_error_encodable, Hold by done.
    rewrite (IH (old ++ s)) by (cbn [files]; apply lookup_insert_eq).
    cbn [files dirs io_fault]. by rewrite insert_insert_eq, <- app_assoc.
Qed.

Lemma link_blocks_entries i (image_links : list link_info) :
  concat (link_blocks i image_links)
  = concat (imap (fun j l => manifest_entry (i + j) l) image_links).
Proof.
  revert i. induction image_links as [|l rest IH]; intros i; [done|].
  cbn [link_blocks imap]. rewrite concat_app, IH. cbn [concat]. f_equal.
  - unfold link_block, manifest_entry. cbn [concat]. rewrite Nat.add_0_r.
    by rewrite app_nil_r, <- !app_assoc.
  - f_equal. apply imap_ext. intros j x _. cbn [compose]. f_equal. lia.
Qed.

Lemma manifest_chunks now image_links :
  concat (manifest_header now ++ link_blocks 1 image_links)
  = manifest_text now image_links.
Proof.
  rewrite concat_app, link_blocks_entries. unfold manifest_header, manifest_text.
  cbn [concat]. by rewrite app_nil_r, <- !app_assoc.
Qed.

End ManifestFacts.




(** ** Transport errors *)

Section TransportFacts.
Context {R : Type}.
Implicit Types (e : Http.RequestException) (on_response : R -> io pystr).

(** The scrape path: the error comes back as a string, whose detail is at
    most the first 1000 characters of the text of the error. *)
Lemma scrape_error_is_capped e on_response fs :
  exists error_detail,
    Http.scrape_run (Http.Raised e) on_response fs
    = (fs, Ok (py "Error: Request failed. Details: " ++ error_detail))
    /\ (length error_detail <= 1000)%nat
    /\ error_detail = take 1000 (Http.response_text_or_str e).
Proof.
  eexists. split; [reflexivity|]. split; [|done].
  rewrite length_take. lia.
Qed.

(** The search path: the error comes back as a string as well, with the
    whole text of the error in it. *)
Lemma google_error_is_whole e on_response fs :
  Http.google_run (Http.Raised e) on_response fs
  = (fs, Ok (py "Error during Google Search API call: "
             ++ Http.response_text_or_str e)).
Proof. reflexivity. Qed.

End TransportFacts.

(** C8 (the code departs from it).  An HTTP error whose response carries
    1001 characters: the scrape path returns the first 1000 of them after
    its message, the search path returns all 1001, so that the detail of a
    search error has no bound. *)
Theorem google_error_detail_is_not_capped {R : Type} (on_response : R -> io pystr)
  (fs : filesystem) :
  let e := {| Http.exc_str := py "500 Server Error";
              Http.exc_response := Some (replicate 1001 120) |} in
  Http.scrape_run (Http.Raised e) on_response fs
  = (fs, Ok (py "Error: Request failed. Details: " ++ replicate 1000 120))
  /\ Http.google_run (Http.Raised e) on_response fs
     = (fs, Ok (py "Error during Google Search API call: " ++ replicate 1001 120)).
Proof. split; reflexivity. Qed.

(** ** [json.loads]: what kind of value comes back *)

Section JsonFacts.
Context (digits : nat).
Implicit Types (scan : pystr -> outcome (pyval * pystr)) (s rest : pystr) (v : pyval).

Lemma object_loop_mapping scan fuel rval s v rest :
  Json.object_loop scan fuel rval s = Return (v, rest) -> is_mapping v = true.
Proof.
  revert rval s. induction fuel as [|fuel IH]; intros rval s; simpl; [done|].
  repeat case_match; try done.
  - by intros [= <- _].
  - apply IH.
Qed.

Lemma parse_object_mapping scan s v rest :
  Json.parse_object scan s = Return (v, rest) -> is_mapping v = true.
Proof.
  unfold Json.parse_object. repeat case_match; try done.
  - by intros [= <- _].
  - apply object_loop_mapping.
Qed.

Lemma array_loop_list scan fuel rval s v rest :
  Json.array_loop scan fuel rval s = Return (v, rest) -> is_mapping v = false.
Proof.
  revert rval s. induction fuel as [|fuel IH]; intros rval s; simpl; [done|].
  repeat case_match; try done.
  - by intros [= <- _].
  - apply IH.
Qed.

Lemma parse_array_list scan s v rest :
  Json.parse_array scan s = Return (v, rest) -> is_mapping v = false.
Proof.
  unfold Json.parse_array. repeat case_match; try done.
  - by intros [= <- _].
  - apply array_loop_list.
Qed.

Lemma match_number_number s v rest :
  Json.match_number digits s = Return (v, rest) -> is_mapping v = false.
Proof.
  unfold Json.match_number, Json.long_from_digits.
  destruct (Json.number_sign s) as [negative s1].
  destruct (Json.number_integer s1) as [[integer s2]|]; [|done].
  destruct (Json.number_fraction s2) as [frac s3].
  destruct (Json.number_exponent s3) as [exp s4].
  destruct frac, exp; try (by intros [= <- _]).
  destruct (_ && _); [done | by intros [= <- _]].
Qed.

Lemma scan_constant_not_mapping s v rest :
  Json.scan_constant digits s = Return (v, rest) -> is_mapping v = false.
Proof.
  unfold Json.scan_constant.
  repeat (destruct (startswith _ s); [by intros [= <- _]|]).
  apply match_number_number.
Qed.

(** The scanner returns a mapping exactly when the text starts with a
    brace. *)
Lemma scan_once_mapping depth s v rest :
  Json.scan_once digits depth s = Return (v, rest) ->
  is_mapping v = startswith (py "{") s.
Proof.
  destruct s as [|c s']; [by destruct depth|].
  change (startswith (py "{") (c :: s')) with ((123 =? c) && true).
  rewrite andb_true_r.
  destruct depth as [|depth]; cbn [Json.scan_once];
    (destruct (N.eqb_spec c 34) as [-> | _];
     [ destruct (Json.scanstring [] s') as [[? ?]|]; [by intros [= <- _] | done] |]);
    (destruct (N.eqb_spec c 123) as [-> | Hbrace];
     [ first [done | apply parse_object_mapping] |]);
    (assert ((123 =? c) = false) as -> by (apply N.eqb_neq; congruence));
    (destruct (N.eqb_spec c 91) as [-> | _];
     [ first [done | apply parse_array_list] |]);
    apply scan_constant_not_mapping.
Qed.

Lemma loads_mapping depth s v :
  Json.loads digits depth s = Return v ->
  is_mapping v = startswith (py "{") (Json.skip_ws s).
Proof.
  unfold Json.loads. repeat case_match; try done.
  intros [= <-]. eauto using scan_once_mapping.
Qed.

End JsonFacts.

(** ** [json.loads]: the loops have fuel enough *)

Section JsonFuel.
Context (digits : nat).
Implicit Types (scan : pystr -> outcome (pyval * pystr)) (s rest : pystr) (v : pyval).

Lemma skip_ws_length s : (length (Json.skip_ws s) <= length s)%nat.
Proof. induction s as [|c s IH]; simpl; [done|]. destruct (Json.is_ws c); simpl; lia. Qed.

Lemma scanstring_consumes acc s str rest :
  Json.scanstring acc s = Return (str, rest) -> (length rest < length s)%nat.
Proof.
  remember (length s) as n eqn:Hn. revert acc s Hn.
  induction n as [n IH] using lt_wf_ind. intros acc s ->.
  assert (forall acc' s', (length s' < length s)%nat ->
            Json.scanstring acc' s' = Return (str, rest) ->
            (length rest < length s)%nat) as Hrec.
  { intros acc' s' Hlt Hr. eapply IH in Hr; [| exact Hlt | reflexivity]. lia. }
  clear IH. destruct s as [|c s1]; [done|]. cbn [Json.scanstring].
  destruct (c =? 34); [intros [= <- <-]; simpl; lia|].
  destruct (c =? 92); cycle 1.
  { destruct (c <=? 31); [done|]. apply Hrec. simpl. lia. }
  destruct s1 as [|e s2]; [done|].
  destruct (e =? 117); cycle 1.
  { repeat (destruct (_ : bool); [apply Hrec; simpl; lia|]). done. }
  destruct s2 as [|h1 [|h2 [|h3 [|h4 after]]]]; try done.
  destruct (Json.hex4_value [h1; h2; h3; h4]) as [[u ?]|]; [|done].
  destruct after as [|b [|u' [|l1 [|l2 [|l3 [|l4 after']]]]]];
    try (apply Hrec; simpl; lia).
  destruct (_ && _); [|apply Hrec; simpl; lia].
  destruct (Json.hex4_value [l1; l2; l3; l4]) as [[u2 ?]|]; [|done].
  destruct (Json.is_low_surrogate u2); apply Hrec; simpl; lia.
Qed.

Lemma span_digits_length s ds rest :
  Json.span_digits s = (ds, rest) -> (length rest <= length s)%nat.
Proof.
  revert ds rest. induction s as [|c s IH]; intros ds rest; simpl.
  - by intros [= <- <-].
  - destruct (Json.is_digit c); [|intros [= <- <-]; simpl; lia].
    destruct (Json.span_digits s) as [ds' rest'] eqn:E. intros [= <- <-].
    specialize (IH _ _ eq_refl). lia.
Qed.

Lemma number_sign_length s negative rest :
  Json.number_sign s = (negative, rest) -> (length rest <= length s)%nat.
Proof.
  destruct s as [|c s]; simpl; [by intros [= <- <-]|].
  destruct (c =? 45); intros [= <- <-]; simpl; lia.
Qed.

Lemma number_integer_length s integer rest :
  Json.number_integer s = Some (integer, rest) -> (length rest < length s)%nat.
Proof.
  destruct s as [|c s]; simpl; [done|].
  destruct (_ && _).
  - destruct (Json.span_digits s) as [ds r] eqn:E. apply span_digits_length in E.
    intros [= <- <-]. lia.
  - destruct (c =? 48); [|done]. intros [= <- <-]. lia.
Qed.

Lemma number_fraction_length s frac rest :
  Json.number_fraction s = (frac, rest) -> (length rest <= length s)%nat.
Proof.
  destruct s as [|dot [|d s]]; cbn [Json.number_fraction]; try by intros [= <- <-].
  destruct (_ && _); [|by intros [= <- <-]].
  destruct (Json.span_digits (d :: s)) as [ds r] eqn:E. apply span_digits_length in E.
  intros [= <- <-]. simpl in *. lia.
Qed.

Lemma number_exponent_length s exp rest :
  Json.number_exponent s = (exp, rest) -> (length rest <= length s)%nat.
Proof.
  destruct s as [|e s1]; cbn [Json.number_exponent]; [by intros [= <- <-]|].
  destruct (_ || _); [|by intros [= <- <-]].
  assert (forall s2, (length s2 <= length s1)%nat ->
            match Json.span_digits s2 with
            | ([], _) => ([], e :: s1)
            | (ds, r) => (e :: ds, r)
            end = (exp, rest) \/
            (exists sg, match Json.span_digits s2 with
                        | ([], _) => ([], e :: s1)
                        | (ds, r) => (e :: [sg] ++ ds, r)
                        end = (exp, rest)) ->
            (length rest <= length (e :: s1))%nat) as Hdigits.
  { intros s2 Hle H. destruct (Json.span_digits s2) as [ds r] eqn:E.
    apply span_digits_length in E.
    destruct ds; destruct H as [H | [sg H]]; injection H as <- <-; simpl; lia. }
  destruct s1 as [|sg [|x s2]].
  - intros H. apply (Hdigits []); [done | by left].
  - intros H. apply (Hdigits [sg]); [done | by left].
  - destruct (_ || _).
    + intros H. apply (Hdigits (x :: s2)); [simpl; lia | right; eauto].
    + intros H. apply (Hdigits (sg :: x :: s2)); [done | by left].
Qed.

Lemma match_number_consumes : consumes (Json.match_number digits).
Proof.
  intros s v rest. unfold Json.match_number, Json.long_from_digits.
  destruct (Json.number_sign s) as [negative s1] eqn:H1.
  apply number_sign_length in H1.
  destruct (Json.number_integer s1) as [[integer s2]|] eqn:H2; [|done].
  apply number_integer_length in H2.
  destruct (Json.number_fraction s2) as [frac s3] eqn:H3.
  apply number_fraction_length in H3.
  destruct (Json.number_exponent s3) as [exp s4] eqn:H4.
  apply number_exponent_length in H4.
  destruct frac, exp; try (intros [= <- <-]; lia).
  destruct (_ && _); [done | intros [= <- <-]; lia].
Qed.

Lemma startswith_drop_length (p s : pystr) n :
  startswith p s = true -> n = length p -> p <> [] ->
  (length (drop n s) < length s)%nat.
Proof.
  intros [t ->]%startswith_spec -> Hp. rewrite length_drop, length_app.
  destruct p; [done | simpl; lia].
Qed.

Lemma scan_constant_consumes : consumes (Json.scan_constant digits).
Proof.
  intros s v rest. unfold Json.scan_constant.
  repeat match goal with
         | |- context [if startswith ?p s then _ else _] =>
             destruct (startswith p s) eqn:?;
             [ intros [= <- <-]; by eapply startswith_drop_length |]
         end.
  apply (match_number_consumes s v rest).
Qed.

Lemma array_loop_consumes scan fuel rval :
  consumes scan -> consumes (Json.array_loop scan fuel rval).
Proof.
  intros Hscan. revert rval.
  induction fuel as [|fuel IH]; intros rval s v rest; cbn [Json.array_loop]; [done|].
  destruct (scan s) as [[val s1]|] eqn:Hs; [|done]. apply Hscan in Hs.
  pose proof (skip_ws_length s1).
  destruct (Json.skip_ws s1) as [|c s2] eqn:Hw; [done|]. cbn [length] in *.
  destruct (c =? 93); [intros [= <- <-]; lia|].
  destruct (c =? 44); [|done].
  intros Hr%IH. pose proof (skip_ws_length s2). lia.
Qed.

Lemma parse_array_consumes scan : consumes scan -> consumes (Json.parse_array scan).
Proof.
  intros Hscan s v rest. unfold Json.parse_array.
  pose proof (skip_ws_length s).
  destruct (Json.skip_ws s) as [|c s1] eqn:Hw; [done|]. cbn [length] in *.
  destruct (c =? 93); [intros [= <- <-]; lia|].
  intros Hr%array_loop_consumes; [cbn [length] in *; lia | done].
Qed.

Lemma object_loop_consumes scan fuel rval :
  consumes scan -> consumes (Json.object_loop scan fuel rval).
Proof.
  intros Hscan. revert rval.
  induction fuel as [|fuel IH]; intros rval s v rest; cbn [Json.object_loop]; [done|].
  destruct s as [|q s]; [done|]. destruct (q =? 34); [|done].
  destruct (Json.scanstring [] s) as [[key s1]|] eqn:Hk; [|done].
  apply scanstring_consumes in Hk.
  pose proof (skip_ws_length s1).
  destruct (Json.skip_ws s1) as [|colon s2] eqn:Hw1; [done|]. cbn [length] in *.
  destruct (colon =? 58); [|done].
  pose proof (skip_ws_length s2).
  destruct (scan (Json.skip_ws s2)) as [[val s3]|] eqn:Hs; [|done]. apply Hscan in Hs.
  pose proof (skip_ws_length s3).
  destruct (Json.skip_ws s3) as [|c s4] eqn:Hw3; [done|]. cbn [length] in *.
  destruct (c =? 125); [intros [= <- <-]; lia|].
  destruct (c =? 44); [|done].
  intros Hr%IH. pose proof (skip_ws_length s4). lia.
Qed.

Lemma parse_object_consumes scan : consumes scan -> consumes (Json.parse_object scan).
Proof.
  intros Hscan s v rest. unfold Json.parse_object.
  pose proof (skip_ws_length s).
  destruct (Json.skip_ws s) as [|c s1] eqn:Hw; [done|]. cbn [length] in *.
  destruct (c =? 125); [intros [= <- <-]; lia|].
  intros Hr%object_loop_consumes; [cbn [length] in *; lia | done].
Qed.

Lemma scan_once_consumes depth : consumes (Json.scan_once digits depth).
Proof.
  induction depth as [|depth IH]; intros s v rest; destruct s as [|c s']; try done;
    cbn [Json.scan_once];
    (destruct (c =? 34);
     [ destruct (Json.scanstring [] s') as [[str r]|] eqn:Hk; [|done];
       apply scanstring_consumes in Hk; intros [= <- <-]; cbn [length]; lia |]);
    (destruct (c =? 123);
     [ first [done | intros Hr%parse_object_consumes; [cbn [length]; lia | done]] |]);
    (destruct (c =? 91);
     [ first [done | intros Hr%parse_array_consumes; [cbn [length]; lia | done]] |]);
    apply (scan_constant_consumes (c :: s') v rest).
Qed.

(** With fuel at least the length of the text the loops give the same
    result, whatever the fuel. *)
Lemma array_loop_fuel scan fuel1 fuel2 rval s :
  consumes scan -> scan [] = Raise JSONDecodeError ->
  (length s <= fuel1)%nat -> (length s <= fuel2)%nat ->
  Json.array_loop scan fuel1 rval s = Json.array_loop scan fuel2 rval s.
Proof.
  intros Hscan Hnil. revert fuel2 rval s.
  induction fuel1 as [|fuel1 IH]; intros fuel2 rval s H1 H2.
  - destruct s; [|simpl in H1; lia].
    destruct fuel2; cbn [Json.array_loop]; [done|]. by rewrite Hnil.
  - destruct fuel2 as [|fuel2].
    + destruct s; [|simpl in H2; lia]. cbn [Json.array_loop]. by rewrite Hnil.
    + cbn [Json.array_loop].
      destruct (scan s) as [[val s1]|] eqn:Hs; [|done]. apply Hscan in Hs.
      pose proof (skip_ws_length s1).
      destruct (Json.skip_ws s1) as [|c s2] eqn:Hw; [done|]. cbn [length] in *.
      destruct (c =? 93); [done|]. destruct (c =? 44); [|done].
      pose proof (skip_ws_length s2). apply IH; lia.
Qed.

Lemma object_loop_fuel scan fuel1 fuel2 rval s :
  consumes scan ->
  (length s <= fuel1)%nat -> (length s <= fuel2)%nat ->
  Json.object_loop scan fuel1 rval s = Json.object_loop scan fuel2 rval s.
Proof.
  intros Hscan. revert fuel2 rval s.
  induction fuel1 as [|fuel1 IH]; intros fuel2 rval s H1 H2.
  - destruct s; [|simpl in H1; lia]. by destruct fuel2.
  - destruct fuel2 as [|fuel2].
    + destruct s; [done | simpl in H2; lia].
    + cbn [Json.object_loop]. destruct s as [|q s]; [done|]. destruct (q =? 34); [|done].
      destruct (Json.scanstring [] s) as [[key s1]|] eqn:Hk; [|done].
      apply scanstring_consumes in Hk.
      pose proof (skip_ws_length s1).
      destruct (Json.skip_ws s1) as [|colon s2] eqn:Hw1; [done|]. cbn [length] in *.
      destruct (colon =? 58); [|done].
      pose proof (skip_ws_length s2).
      destruct (scan (Json.skip_ws s2)) as [[val s3]|] eqn:Hs; [|done].
      apply Hscan in Hs.
      pose proof (skip_ws_length s3).
      destruct (Json.skip_ws s3) as [|c s4] eqn:Hw3; [done|]. cbn [length] in *.
      destruct (c =? 125); [done|]. destruct (c =? 44); [|done].
      pose proof (skip_ws_length s4). apply IH; lia.
Qed.

(** The fuel that [parse_array] and [parse_object] give their loops is
    enough: more of it changes nothing. *)
Lemma parse_fuel_is_enough depth fuel s :
  (length s <= fuel)%nat ->
  Json.array_loop (Json.scan_once digits depth) fuel [] (Json.skip_ws s)
  = Json.array_loop (Json.scan_once digits depth) (length s) [] (Json.skip_ws s)
  /\ Json.object_loop (Json.scan_once digits depth) fuel ∅ (Json.skip_ws s)
     = Json.object_loop (Json.scan_once digits depth) (length s) ∅ (Json.skip_ws s).
Proof.
  intros Hfuel. pose proof (skip_ws_length s). split.
  - apply array_loop_fuel; [apply scan_once_consumes | by destruct depth | lia | lia].
  - apply object_loop_fuel; [apply scan_once_consumes | lia | lia].
Qed.

End JsonFuel.

(** ** What [json.loads] reads is well-formed *)

Section JsonGrammar.
Context (digits : nat).
Implicit Types (scan : pystr -> outcome (pyval * pystr)) (s rest : pystr) (v : pyval).

Ltac to_props :=
  repeat match goal with
  | H : _ && _ = true |- _ => apply andb_true_iff in H as [? ?]
  | H : _ || _ = true |- _ => apply orb_true_iff in H as [?|?]
  | H : _ || _ = false |- _ => apply orb_false_iff in H as [? ?]
  | H : (_ <=? _) = true |- _ => apply N.leb_le in H
  | H : (_ <=? _) = false |- _ => apply N.leb_gt in H
  | H : (_ =? _) = true |- _ => apply N.eqb_eq in H
  | H : (_ =? _) = false |- _ => apply N.eqb_neq in H
  end.

(** An element of a list written out. *)
Ltac listed := solve [repeat first [by constructor 1 | constructor 2]].

(** Two ways to bracket one concatenation. *)
Ltac reassoc :=
  repeat first [rewrite <- app_assoc | rewrite <- app_comm_cons]; reflexivity.

Lemma skip_ws_spec s : exists ws, s = ws ++ Json.skip_ws s /\ Forall json_ws ws.
Proof.
  induction s as [|c s (ws & Hs & Hws)]; [by exists []|]. cbn [Json.skip_ws].
  destruct (Json.is_ws c) eqn:Hc; [|by exists []].
  exists (c :: ws). split; [by rewrite Hs at 1|]. constructor; [|done].
  unfold Json.is_ws in Hc. unfold json_ws. to_props; auto.
Qed.

Lemma hex_value_hex c n : Json.hex_value c = Some n -> json_hex c.
Proof.
  unfold Json.hex_value, json_hex.
  repeat match goal with
  | |- context [if ?b then _ else _] => destruct b eqn:?
  end; try done; intros _; to_props; lia.
Qed.

Lemma hex4_value_hex h1 h2 h3 h4 u r :
  Json.hex4_value [h1; h2; h3; h4] = Some (u, r) -> Forall json_hex [h1; h2; h3; h4].
Proof.
  cbn [Json.hex4_value].
  destruct (Json.hex_value h1) eqn:H1; [|done].
  destruct (Json.hex_value h2) eqn:H2; [|done].
  destruct (Json.hex_value h3) eqn:H3; [|done].
  destruct (Json.hex_value h4) eqn:H4; [|done].
  intros _. repeat (constructor; [by eapply hex_value_hex|]). constructor.
Qed.

Lemma scanstring_sound acc s str rest :
  Json.scanstring acc s = Return (str, rest) ->
  exists body, s = body ++ 34 :: rest /\ json_chars body.
Proof.
  remember (length s) as n eqn:Hn. revert acc s Hn.
  induction n as [n IH] using lt_wf_ind. intros acc s ->.
  assert (forall acc' s', (length s' < length s)%nat ->
            Json.scanstring acc' s' = Return (str, rest) ->
            exists body, s' = body ++ 34 :: rest /\ json_chars body) as Hrec.
  { intros acc' s' Hlt Hr. eapply IH in Hr; [done | exact Hlt | reflexivity]. }
  clear IH. destruct s as [|c s1]; [done|]. cbn [Json.scanstring].
  destruct (c =? 34) eqn:Hquote.
  { intros [= <- <-]. to_props. subst. exists []. split; [done | constructor]. }
  destruct (c =? 92) eqn:Hback; cycle 1.
  { destruct (c <=? 31) eqn:Hctl; [done|]. intros Hr.
    apply Hrec in Hr as (body & -> & Hbody); [|simpl; lia].
    exists (c :: body). split; [done|]. to_props. constructor; [lia | done | done | done]. }
  to_props. subst c.
  destruct s1 as [|e s2]; [done|].
  destruct (e =? 117) eqn:Hu; cycle 1.
  { assert (forall a, Json.scanstring a s2 = Return (str, rest) ->
              e ∈ [34; 92; 47; 98; 102; 110; 114; 116] ->
              exists body, 92 :: e :: s2 = body ++ 34 :: rest /\ json_chars body) as Hesc.
    { intros a Hr He. apply Hrec in Hr as (body & -> & Hbody); [|simpl; lia].
      exists (92 :: e :: body). split; [done|]. by constructor. }
    destruct (_ || _) eqn:H1.
    { intros Hr. apply (Hesc _ Hr). to_props; subst; set_solver. }
    repeat match goal with
    | |- context [if e =? ?k then _ else _] =>
        destruct (e =? k) eqn:?;
        [ intros Hr; apply (Hesc _ Hr); to_props; subst; set_solver |]
    end.
    done. }
  to_props. subst e.
  destruct s2 as [|h1 [|h2 [|h3 [|h4 after]]]]; try done.
  destruct (Json.hex4_value [h1; h2; h3; h4]) as [[u ?]|] eqn:Hhex; [|done].
  apply hex4_value_hex in Hhex.
  assert (forall a, Json.scanstring a after = Return (str, rest) ->
            exists body,
              92 :: 117 :: h1 :: h2 :: h3 :: h4 :: after = body ++ 34 :: rest
              /\ json_chars body) as Hone.
  { intros a Hr. apply Hrec in Hr as (body & -> & Hbody); [|simpl; lia].
    exists (92 :: 117 :: h1 :: h2 :: h3 :: h4 :: body). split; [done|].
    by constructor. }
  destruct after as [|b [|u' [|l1 [|l2 [|l3 [|l4 after']]]]]]; try apply Hone.
  destruct (_ && _) eqn:Hpair; [|apply Hone].
  destruct (Json.hex4_value [l1; l2; l3; l4]) as [[u2 ?]|] eqn:Hlow; [|done].
  apply hex4_value_hex in Hlow.
  destruct (Json.is_low_surrogate u2); [|apply Hone].
  intros Hr. apply Hrec in Hr as (body & -> & Hbody); [|simpl; lia].
  to_props. subst b u'.
  exists (92 :: 117 :: h1 :: h2 :: h3 :: h4 :: 92 :: 117 :: l1 :: l2 :: l3 :: l4 :: body).
  split; [done|]. constructor; [done|]. by constructor.
Qed.

Lemma is_digit_digit c : Json.is_digit c = true -> json_digit c.
Proof. unfold Json.is_digit, json_digit. intros H. to_props. lia. Qed.

Lemma span_digits_spec s ds rest :
  Json.span_digits s = (ds, rest) -> s = ds ++ rest /\ Forall json_digit ds.
Proof.
  revert ds rest. induction s as [|c s IH]; intros ds rest; cbn [Json.span_digits].
  - by intros [= <- <-].
  - destruct (Json.is_digit c) eqn:Hc; [|by intros [= <- <-]].
    destruct (Json.span_digits s) as [ds' rest'] eqn:E. intros [= <- <-].
    destruct (IH _ _ eq_refl) as [-> Hds]. split; [done|].
    constructor; [by apply is_digit_digit | done].
Qed.

Lemma number_sign_spec s negative rest :
  Json.number_sign s = (negative, rest) ->
  exists sign, s = sign ++ rest /\ (sign = [] \/ sign = [45]).
Proof.
  destruct s as [|c s]; cbn [Json.number_sign]; [intros [= <- <-]; exists []; auto|].
  destruct (c =? 45) eqn:Hc; intros [= <- <-]; [|exists []; auto].
  to_props. subst. exists [45]. auto.
Qed.

Lemma number_integer_spec s integer rest :
  Json.number_integer s = Some (integer, rest) ->
  s = integer ++ rest
  /\ (integer = [48]
      \/ exists d ds, integer = d :: ds /\ 49 <= d <= 57 /\ Forall json_digit ds).
Proof.
  destruct s as [|c s]; cbn [Json.number_integer]; [done|].
  destruct (_ && _) eqn:Hc.
  - destruct (Json.span_digits s) as [ds r] eqn:E. apply span_digits_spec in E as [-> Hds].
    intros [= <- <-]. split; [done|]. right. exists c, ds. to_props.
    split; [done|]. split; [lia | done].
  - destruct (c =? 48) eqn:Hz; [|done]. intros [= <- <-]. to_props. subst. auto.
Qed.

Lemma number_fraction_spec s frac rest :
  Json.number_fraction s = (frac, rest) ->
  s = frac ++ rest /\ (frac = [] \/ exists ds, frac = 46 :: ds /\ json_digits ds).
Proof.
  destruct s as [|dot [|d s]]; cbn [Json.number_fraction];
    try (intros [= <- <-]; by auto).
  destruct (_ && _) eqn:Hc; [|intros [= <- <-]; by auto].
  destruct (Json.span_digits (d :: s)) as [ds r] eqn:E.
  pose proof E as [Hs Hds]%span_digits_spec.
  intros [= <- <-]. to_props. subst dot. split; [by rewrite Hs|]. right.
  exists ds. split; [done|]. split; [|done].
  cbn [Json.span_digits] in E. destruct (Json.is_digit d); [|done].
  destruct (Json.span_digits s). by injection E as <- _.
Qed.

Lemma number_exponent_spec s exp rest :
  Json.number_exponent s = (exp, rest) ->
  s = exp ++ rest
  /\ (exp = []
      \/ exists e esign ds,
           exp = e :: esign ++ ds /\ (e = 101 \/ e = 69)
           /\ (esign = [] \/ esign = [43] \/ esign = [45]) /\ json_digits ds).
Proof.
  destruct s as [|e s1]; cbn [Json.number_exponent]; [intros [= <- <-]; by auto|].
  destruct (_ || _) eqn:He; [|intros [= <- <-]; by auto].
  assert (e = 101 \/ e = 69) as Hletter by (to_props; auto).
  clear He.
  assert (forall esign s2,
            s1 = esign ++ s2 -> (esign = [] \/ esign = [43] \/ esign = [45]) ->
            match Json.span_digits s2 with
            | ([], _) => ([], e :: s1)
            | (ds, r) => (e :: esign ++ ds, r)
            end = (exp, rest) ->
            e :: s1 = exp ++ rest
            /\ (exp = []
                \/ exists e esign ds,
                     exp = e :: esign ++ ds /\ (e = 101 \/ e = 69)
                     /\ (esign = [] \/ esign = [43] \/ esign = [45])
                     /\ json_digits ds)) as Hdigits.
  { intros esign s2 -> Hsign H.
    destruct (Json.span_digits s2) as [ds r] eqn:E.
    apply span_digits_spec in E as [-> Hds].
    destruct ds as [|d ds]; injection H as <- <-; [by auto|].
    split; [by rewrite (app_assoc esign)|]. right. exists e, esign, (d :: ds). done. }
  destruct s1 as [|sg [|x s2]].
  - apply (Hdigits [] []); auto.
  - apply (Hdigits [] [sg]); auto.
  - destruct (_ || _) eqn:Hsg.
    + apply (Hdigits [sg] (x :: s2)); [done|]. to_props; subst; auto.
    + apply (Hdigits [] (sg :: x :: s2)); auto.
Qed.

Lemma match_number_sound : reads json_number (Json.match_number digits).
Proof.
  intros s v rest. unfold Json.match_number, Json.long_from_digits.
  destruct (Json.number_sign s) as [negative s1] eqn:H1.
  apply number_sign_spec in H1 as (sign & -> & Hsign).
  destruct (Json.number_integer s1) as [[integer s2]|] eqn:H2; [|done].
  apply number_integer_spec in H2 as (-> & Hinteger).
  destruct (Json.number_fraction s2) as [frac s3] eqn:H3.
  apply number_fraction_spec in H3 as (-> & Hfrac).
  destruct (Json.number_exponent s3) as [exp s4] eqn:H4.
  apply number_exponent_spec in H4 as (-> & Hexp).
  intros Hr.
  assert (rest = s4) as ->.
  { destruct frac, exp; try by injection Hr as _ <-.
    destruct (_ && _); [done | by injection Hr as _ <-]. }
  exists (sign ++ integer ++ frac ++ exp). split; [reassoc|].
  by exists sign, integer, frac, exp.
Qed.

Lemma scan_constant_sound : reads json_value (Json.scan_constant digits).
Proof.
  intros s v rest. unfold Json.scan_constant.
  assert (forall (p : pystr) n, startswith p s = true -> n = length p ->
            json_value p -> exists text, s = text ++ drop n s /\ json_value text) as Hname.
  { intros p n [t ->]%startswith_spec -> Hp. exists p.
    by rewrite drop_app_length. }
  repeat match goal with
  | |- context [if startswith ?p s then _ else _] =>
      destruct (startswith p s) eqn:?;
      [ intros [= <- <-]; eapply Hname; [eassumption | reflexivity |];
        first [ apply value_constant; listed
              | apply value_python_constant; listed ] |]
  end.
  intros (text & -> & Htext)%match_number_sound. exists text. split; [done|].
  by apply value_number.
Qed.

Lemma array_loop_sound scan fuel rval :
  reads json_value scan ->
  forall s v rest,
    Json.array_loop scan fuel rval s = Return (v, rest) ->
    exists elements, s = elements ++ 93 :: rest /\ json_elements elements.
Proof.
  intros Hscan. revert rval.
  induction fuel as [|fuel IH]; intros rval s v rest; cbn [Json.array_loop]; [done|].
  destruct (scan s) as [[val s1]|] eqn:Hs; [|done].
  apply Hscan in Hs as (value & -> & Hvalue).
  destruct (skip_ws_spec s1) as (ws & Hs1 & Hws).
  destruct (Json.skip_ws s1) as [|c s2] eqn:Hw; [done|].
  destruct (c =? 93) eqn:Hclose.
  { intros [= <- <-]. to_props. subst c. exists (value ++ ws).
    split; [rewrite Hs1; reassoc|]. by constructor. }
  destruct (c =? 44) eqn:Hcomma; [|done]. to_props. subst c.
  destruct (skip_ws_spec s2) as (ws2 & Hs2 & Hws2).
  intros (elements & Hrest & Helements)%IH.
  exists (value ++ ws ++ 44 :: ws2 ++ elements). split; [|by constructor].
  rewrite Hs1, Hs2, Hrest. reassoc.
Qed.

Lemma parse_array_sound scan :
  reads json_value scan ->
  forall s v rest,
    Json.parse_array scan s = Return (v, rest) ->
    exists text, 91 :: s = text ++ rest /\ json_value text.
Proof.
  intros Hscan s v rest. unfold Json.parse_array.
  destruct (skip_ws_spec s) as (ws & Hs & Hws).
  destruct (Json.skip_ws s) as [|c s1] eqn:Hw; [done|].
  destruct (c =? 93) eqn:Hclose.
  { intros [= <- <-]. to_props. subst c. exists (91 :: ws ++ [93]).
    split; [rewrite Hs; reassoc | by constructor]. }
  intros (elements & Hrest & Helements)%array_loop_sound; [|done].
  exists (91 :: ws ++ elements ++ [93]). split; [|by constructor].
  rewrite Hs, Hrest. reassoc.
Qed.

Lemma object_loop_sound scan fuel rval :
  reads json_value scan ->
  forall s v rest,
    Json.object_loop scan fuel rval s = Return (v, rest) ->
    exists members, s = members ++ 125 :: rest /\ json_members members.
Proof.
  intros Hscan. revert rval.
  induction fuel as [|fuel IH]; intros rval s v rest; cbn [Json.object_loop]; [done|].
  destruct s as [|q s]; [done|]. destruct (q =? 34) eqn:Hq; [|done]. to_props. subst q.
  destruct (Json.scanstring [] s) as [[key s1]|] eqn:Hk; [|done].
  apply scanstring_sound in Hk as (name & -> & Hname).
  destruct (skip_ws_spec s1) as (ws & Hs1 & Hws).
  destruct (Json.skip_ws s1) as [|colon s2] eqn:Hw1; [done|].
  destruct (colon =? 58) eqn:Hcolon; [|done]. to_props. subst colon.
  destruct (skip_ws_spec s2) as (ws2 & Hs2 & Hws2).
  destruct (scan (Json.skip_ws s2)) as [[val s3]|] eqn:Hs; [|done].
  apply Hscan in Hs as (value & Hs3 & Hvalue).
  destruct (skip_ws_spec s3) as (ws3 & Hs3' & Hws3).
  destruct (Json.skip_ws s3) as [|c s4] eqn:Hw3; [done|].
  destruct (c =? 125) eqn:Hclose.
  { intros [= <- <-]. to_props. subst c.
    exists (34 :: name ++ 34 :: ws ++ 58 :: ws2 ++ value ++ ws3).
    split; [|by constructor].
    rewrite Hs1, Hs2, Hs3, Hs3'. cbn [app]. f_equal.
    reassoc. }
  destruct (c =? 44) eqn:Hcomma; [|done]. to_props. subst c.
  destruct (skip_ws_spec s4) as (ws4 & Hs4 & Hws4).
  intros (members & Hrest & Hmembers)%IH.
  exists (34 :: name ++ 34 :: ws ++ 58 :: ws2 ++ value ++ ws3 ++ 44 :: ws4 ++ members).
  split; [|by constructor].
  rewrite Hs1, Hs2, Hs3, Hs3', Hs4, Hrest. cbn [app]. f_equal.
  reassoc.
Qed.

Lemma parse_object_sound scan :
  reads json_value scan ->
  forall s v rest,
    Json.parse_object scan s = Return (v, rest) ->
    exists text, 123 :: s = text ++ rest /\ json_value text.
Proof.
  intros Hscan s v rest. unfold Json.parse_object.
  destruct (skip_ws_spec s) as (ws & Hs & Hws).
  destruct (Json.skip_ws s) as [|c s1] eqn:Hw; [done|].
  destruct (c =? 125) eqn:Hclose.
  { intros [= <- <-]. to_props. subst c. exists (123 :: ws ++ [125]).
    split; [rewrite Hs; reassoc | by constructor]. }
  intros (members & Hrest & Hmembers)%object_loop_sound; [|done].
  exists (123 :: ws ++ members ++ [125]). split; [|by constructor].
  rewrite Hs, Hrest. reassoc.
Qed.

Lemma scan_once_sound depth : reads json_value (Json.scan_once digits depth).
Proof.
  induction depth as [|depth IH]; intros s v rest; destruct s as [|c s']; try done;
    cbn [Json.scan_once].
  all: destruct (c =? 34) eqn:Hquote;
    [ destruct (Json.scanstring [] s') as [[str r]|] eqn:Hk; [|done];
      apply scanstring_sound in Hk as (body & -> & Hbody);
      intros [= <- <-]; to_props; subst c; exists (34 :: body ++ [34]);
      split; [reassoc | by constructor] |].
  all: destruct (c =? 123) eqn:Hbrace;
    [ first [done | to_props; subst c; by apply parse_object_sound] |].
  all: destruct (c =? 91) eqn:Hbracket;
    [ first [done | to_props; subst c; by apply parse_array_sound] |].
  all: apply (scan_constant_sound (c :: s') v rest).
Qed.

(** What [json.loads] reads is a JSON text. *)
Lemma loads_sound depth s v :
  Json.loads digits depth s = Return v ->
  exists ws value ws',
    s = ws ++ value ++ ws' /\ Forall json_ws ws /\ json_value value
    /\ Forall json_ws ws' /\ Json.skip_ws s = value ++ ws'.
Proof.
  unfold Json.loads. destruct (startswith _ s); [done|].
  destruct (skip_ws_spec s) as (ws & Hs & Hws).
  destruct (Json.scan_once digits depth (Json.skip_ws s)) as [[obj rest]|] eqn:Hscan;
    [|done].
  apply scan_once_sound in Hscan as (value & Hvalue & Hjson).
  destruct (skip_ws_spec rest) as (ws' & Hrest & Hws').
  destruct (Json.skip_ws rest); [|done]. intros _.
  rewrite app_nil_r in Hrest. subst ws'.
  exists ws, value, rest. rewrite Hs at 1. by rewrite Hvalue.
Qed.

Lemma json_value_not_nil value : json_value value -> value <> [].
Proof.
  destruct 1 as [| text (sign & integer & frac & exp & -> & _ & Hinteger & _)
                 | text Hin | text Hin | | | |]; try done.
  - intros Hnil. apply app_eq_nil in Hnil as [_ [Hnil _]%app_eq_nil].
    by destruct Hinteger as [-> | (d & ds & -> & _)].
  - intros ->. repeat (apply elem_of_cons in Hin as [Hin | Hin]; [done|]).
    by apply elem_of_nil in Hin.
  - intros ->. repeat (apply elem_of_cons in Hin as [Hin | Hin]; [done|]).
    by apply elem_of_nil in Hin.
Qed.

End JsonGrammar.

(** ** The coercer *)

Section CoercerFacts.
Context (interp : Interpreter).
Implicit Types (s v kv key value : pystr) (params : gmap pystr pyval).

Lemma contains_eq_sign_cons c s :
  contains (py "=") (c :: s) = (61 =? c) || contains (py "=") s.
Proof. change (py "=") with [61]. cbn [contains startswith]. by rewrite andb_true_r. Qed.

(** The two parts that [pair.split('=', 1)] gives are the text before and
    the text after the first [=]. *)
Lemma split1_cut kv :
  contains (py "=") kv = true ->
  exists key value,
    cut_at_first 61 kv = Some (key, value) /\ split1 (py "=") kv = [key; value].
Proof.
  induction kv as [|c kv IH]; [done|].
  rewrite contains_eq_sign_cons. change (py "=") with [61] in *.
  cbn [cut_at_first split1 startswith]. rewrite andb_true_r, (N.eqb_sym c 61).
  destruct (61 =? c); simpl.
  - intros _. eauto.
  - intros (key & value & Hcut & Hsplit)%IH. rewrite Hcut, Hsplit. eauto.
Qed.

Lemma cut_none kv : contains (py "=") kv = false -> cut_at_first 61 kv = None.
Proof.
  induction kv as [|c kv IH]; [done|].
  rewrite contains_eq_sign_cons. cbn [cut_at_first]. rewrite (N.eqb_sym c 61).
  destruct (61 =? c); simpl; [done|]. by intros ->%IH.
Qed.

Lemma convert_value_readable value :
  unreadable_digits interp value = false ->
  convert_value interp value = Return (coerced_value interp value).
Proof.
  unfold unreadable_digits, convert_value, coerced_value.
  repeat case_bool_decide; simpl; try done.
  destruct (isdigit _ value); simpl; [|done].
  by destruct (int interp value).
Qed.

Lemma convert_value_unreadable value :
  unreadable_digits interp value = true ->
  exists e, convert_value interp value = Raise e.
Proof.
  unfold unreadable_digits, convert_value.
  repeat case_bool_decide; simpl; try done.
  destruct (isdigit _ value); simpl; [|done].
  destruct (int interp value); [done | eauto].
Qed.

(** When every value can be converted, the loop builds the mapping pair
    after pair. *)
Lemma url_pairs_readable pairs params :
  Forall (readable_pair interp) pairs ->
  url_pairs interp pairs params = Return (foldl (add_pair interp) params pairs).
Proof.
  intros H. revert params.
  induction H as [|kv pairs Hkv _ IH]; intros params; [done|].
  cbn [url_pairs foldl]. unfold add_pair at 2.
  destruct (contains (py "=") kv) eqn:Hc.
  - destruct (split1_cut kv Hc) as (key & value & Hcut & ->). rewrite Hcut.
    rewrite convert_value_readable by eauto. apply IH.
  - rewrite (cut_none kv Hc). apply IH.
Qed.

(** When some value cannot, the loop raises. *)
Lemma url_pairs_unreadable pairs params :
  Exists (fun kv => exists key value,
              cut_at_first 61 kv = Some (key, value)
              /\ unreadable_digits interp value = true) pairs ->
  exists e, url_pairs interp pairs params = Raise e.
Proof.
  intros H. revert params.
  induction pairs as [|kv pairs IH]; intros params; [by inversion H|].
  cbn [url_pairs].
  destruct (contains (py "=") kv) eqn:Hc.
  - destruct (split1_cut kv Hc) as (key & value & Hcut & ->).
    destruct (convert_value interp value) as [x | e] eqn:Hconv; [|eauto].
    apply IH. inversion H as [? ? (key' & value' & Hcut' & Hbad) | ]; [|done].
    simplify_eq. apply convert_value_unreadable in Hbad as [e He]. congruence.
  - apply IH. inversion H as [? ? (key' & value' & Hcut' & _) | ]; [|done].
    rewrite (cut_none kv Hc) in Hcut'. done.
Qed.

Lemma url_parameters_mapping v :
  contains (py "=") v = true ->
  Forall (readable_pair interp) (split_char 38 v) ->
  url_parameters interp v = Return (PDict (query_mapping interp v)).
Proof.
  intros Hc H. unfold url_parameters, query_mapping.
  by rewrite Hc, url_pairs_readable.
Qed.

(** The last pair with a given key decides its value, and the key is the
    text before the [=], as it stands. *)
Lemma add_pair_other params kv key :
  (forall value, cut_at_first 61 kv <> Some (key, value)) ->
  add_pair interp params kv !! key = params !! key.
Proof.
  intros H. unfold add_pair. destruct (cut_at_first 61 kv) as [[k x]|] eqn:E; [|done].
  apply lookup_insert_ne. intros ->. by eapply H.
Qed.

Lemma last_pair_wins before kv after key value params :
  cut_at_first 61 kv = Some (key, value) ->
  Forall (fun kv' => forall value', cut_at_first 61 kv' <> Some (key, value')) after ->
  foldl (add_pair interp) params (before ++ kv :: after) !! key
  = Some (coerced_value interp value).
Proof.
  intros Hcut Hafter. rewrite foldl_app. cbn [foldl].
  generalize (foldl (add_pair interp) params before). intros m.
  assert (add_pair interp m kv !! key = Some (coerced_value interp value)) as Hm.
  { unfold add_pair. rewrite Hcut. apply lookup_insert_eq. }
  revert Hm. generalize (add_pair interp m kv). clear m.
  induction Hafter as [|kv' after Hkv' _ IH]; intros m Hm; [done|].
  cbn [foldl]. apply IH. by rewrite add_pair_other.
Qed.

(** The first strategy hands back whatever [json.loads] returns. *)
Lemma validator_json_value s x :
  s <> [] -> json_loads interp s = Return x ->
  str_to_dict_validator interp (PStr s) = Return x.
Proof. intros Hs Hj. destruct s; [done|]. simpl. by rewrite Hj. Qed.

(** Values that are no strings are returned as they are. *)
Lemma validator_not_a_string (x : pyval) :
  (forall s, x <> PStr s) -> str_to_dict_validator interp x = Return x.
Proof. intros H. destruct x; try done. by destruct (H s). Qed.

(** The coercer returns whenever the two parsers raise nothing but what
    the handlers around them catch, and the stream prints what the
    handlers print. *)
Lemma validator_returns_when_caught (x : pyval) :
  (forall s e, x = PStr s -> json_loads interp s = Raise e -> e = JSONDecodeError) ->
  (forall s e, x = PStr s -> literal_eval interp s = Raise e ->
               literal_handler_catches e = true) ->
  (forall s, x = PStr s -> prints interp s) ->
  returns (str_to_dict_validator interp x) = true.
Proof.
  intros Hjson Hliteral Hprints. destruct x as [| | | |s| | |]; try done.
  destruct s as [|c s]; [done|]. cbn [str_to_dict_validator].
  destruct (Hprints _ eq_refl) as (Hprint & Hnone & Hexception).
  destruct (json_loads interp (c :: s)) as [obj | e] eqn:Hj; [done|].
  rewrite (Hjson _ _ eq_refl Hj). unfold print_then at 1. rewrite Hprint.
  assert (returns (url_parameters interp (c :: s)) = true) as Hurl.
  { unfold url_parameters, print_then. rewrite Hprint, Hnone, Hexception.
    by repeat case_match. }
  unfold python_literal. destruct (looks_like_dict (c :: s)); [|done].
  destruct (literal_eval interp (c :: s)) as [obj | e'] eqn:Hl; [done|].
  rewrite (Hliteral _ _ eq_refl Hl). unfold print_then. by rewrite Hprint.
Qed.

(** On a string that is not wrapped in braces [ast.literal_eval] is not
    called: the result is the same with any evaluator. *)
Lemma validator_without_literal_eval (f : pystr -> outcome pyval) s :
  looks_like_dict s = false ->
  str_to_dict_validator (with_literal_eval interp f) (PStr s)
  = str_to_dict_validator interp (PStr s).
Proof.
  intros H. destruct s as [|c s]; [done|]. cbn [str_to_dict_validator].
  change (json_loads (with_literal_eval interp f)) with (json_loads interp).
  destruct (json_loads interp (c :: s)) as [|[]]; try done.
  unfold python_literal. rewrite H. reflexivity.
Qed.

(** The query string, all conditions of the third strategy met, on a
    stream that prints the string in the handlers before it. *)
Lemma validator_query_string s :
  json_loads interp s = Raise JSONDecodeError ->
  (looks_like_dict s = false
   \/ exists e, literal_eval interp s = Raise e /\ literal_handler_catches e = true) ->
  contains (py "=") s = true ->
  Forall (readable_pair interp) (split_char 38 s) ->
  print_error interp s = None ->
  str_to_dict_validator interp (PStr s) = Return (PDict (query_mapping interp s)).
Proof.
  intros Hj Hl Hc Hr Hprint. destruct s as [|c s]; [done|].
  cbn [str_to_dict_validator].
  rewrite Hj. unfold print_then at 1. rewrite Hprint. unfold python_literal.
  destruct Hl as [-> | (e & -> & ->)]; [by apply url_parameters_mapping|].
  unfold print_then. rewrite Hprint.
  destruct (looks_like_dict (c :: s)); by apply url_parameters_mapping.
Qed.

End CoercerFacts.

(** The example of the specification. *)
Example validator_query_example (f : pystr -> outcome pyval) :
  str_to_dict_validator (with_literal_eval cpython f)
    (PStr (py "wait=2000&screenshot=true"))
  = Return (PDict (<[py "wait" := PInt 2000]> (<[py "screenshot" := PBool true]> ∅))).
Proof. vm_compute. reflexivity. Qed.

(** C2 (the code departs from it).  A value made of a superscript two is
    all digits for [str.isdigit], but [int] does not read it: the
    conversion raises, the handler of the third strategy catches it, and
    the coercer returns the input string where the claim has the mapping
    from [a] to that value. *)
Theorem superscript_digit_defeats_query_string (f : pystr -> outcome pyval) :
  let interp := with_literal_eval cpython f in
  let v := py "a=" ++ [0xB2] in
  json_loads interp v = Raise JSONDecodeError
  /\ looks_like_dict v = false
  /\ contains (py "=") v = true
  /\ isdigit (unicode interp) [0xB2] = true
  /\ int interp [0xB2] = Raise ValueError
  /\ str_to_dict_validator interp (PStr v) = Return (PStr v).
Proof. vm_compute. repeat split; reflexivity. Qed.

(** C3 (as amended).  The first strategy succeeds only on well-formed
    JSON, whatever the top-level value is, and the coercer then returns
    the parsed value as it is: a mapping exactly when the top-level value
    is an object, that is when its text starts with a brace. *)
Theorem json_value_is_returned_as_is (interp : Interpreter) (s : pystr) (x : pyval) :
  s <> [] ->
  json_loads interp s = Return x ->
  (exists ws value ws',
      s = ws ++ value ++ ws' /\ Forall json_ws ws /\ json_value value
      /\ Forall json_ws ws'
      /\ is_mapping x = startswith (py "{") value)
  /\ str_to_dict_validator interp (PStr s) = Return x.
Proof.
  intros Hs Hj. split; [|by apply validator_json_value].
  pose proof Hj as (ws & value & ws' & Hsplit & Hws & Hvalue & Hws' & Hskip)%loads_sound.
  exists ws, value, ws'. repeat (split; [done|]).
  rewrite (loads_mapping _ _ _ _ Hj), Hskip.
  pose proof (json_value_not_nil value Hvalue). by destruct value.
Qed.

Lemma json_value_is_returned_as_is_witness :
  (exists ws value ws',
      py " [1,2]" = ws ++ value ++ ws' /\ Forall json_ws ws /\ json_value value
      /\ Forall json_ws ws'
      /\ is_mapping (PList [PInt 1; PInt 2]) = startswith (py "{") value)
  /\ str_to_dict_validator cpython (PStr (py " [1,2]")) = Return (PList [PInt 1; PInt 2]).
Proof.
  apply (json_value_is_returned_as_is cpython (py " [1,2]") (PList [PInt 1; PInt 2]));
    [discriminate | vm_compute; reflexivity].
Defined.

(** C3, as stated, fails on well-formed JSON whose top-level value is no
    object: the first strategy succeeds and the coercer returns an integer
    or a list.  It succeeds as well on the constant [NaN], which
    [json.loads] reads and the grammar of JSON does not have. *)
Lemma json_strategy_returns_non_mappings :
  str_to_dict_validator cpython (PStr (py "42")) = Return (PInt 42)
  /\ is_mapping (PInt 42) = false
  /\ str_to_dict_validator cpython (PStr (py "[1,2]")) = Return (PList [PInt 1; PInt 2])
  /\ is_mapping (PList [PInt 1; PInt 2]) = false
  /\ str_to_dict_validator cpython (PStr (py "NaN")) = Return (PFloat (py "NaN")).
Proof. vm_compute. repeat split; reflexivity. Qed.

(** C4 (the code departs from it).  On a string of 4301 digits
    [json.loads] raises [ValueError] for the length of the integer, which
    is no [JSONDecodeError]: the first handler does not catch it and the
    coercer raises. *)
Theorem long_integer_escapes_the_validator (f : pystr -> outcome pyval) :
  json_loads (with_literal_eval cpython f) (replicate 4301 49) = Raise ValueError
  /\ str_to_dict_validator (with_literal_eval cpython f) (PStr (replicate 4301 49))
     = Raise ValueError.
Proof. vm_compute. split; reflexivity. Qed.

(** The example of the specification: nothing parses, the string comes
    back. *)
Example validator_unparseable_example (f : pystr -> outcome pyval) :
  str_to_dict_validator (with_literal_eval cpython f) (PStr (py "not parseable at all"))
  = Return (PStr (py "not parseable at all")).
Proof. vm_compute. reflexivity. Qed.

(** ** Base64: decoding what was encoded *)

Section Base64Facts.
Import Encode.

Lemma check_below (n : nat) (P : N -> bool) :
  forallb P (below n) = true -> forall a, a < N.of_nat n -> P a = true.
Proof.
  intros H a Ha. rewrite forallb_forall in H. apply H.
  unfold below. apply in_map_iff. exists (N.to_nat a). split; [lia|].
  apply in_seq. lia.
Qed.

Lemma check_below2 (n m : nat) (P : N -> N -> bool) :
  forallb (fun a => forallb (P a) (below m)) (below n) = true ->
  forall a b, a < N.of_nat n -> b < N.of_nat m -> P a b = true.
Proof.
  intros H a b Ha Hb.
  apply (check_below m (P a)); [|done].
  by apply (check_below n (fun a => forallb (P a) (below m))).
Qed.

(** A character of the alphabet is no padding, no white space, and the
    decoding table gives its value back. *)
Lemma alphabet_char v :
  v < 64 ->
  (table_b2a_base64 v =? BASE64_PAD) = false
  /\ table_a2b_base64 (table_b2a_base64 v) = Some v
  /\ is_ascii (table_b2a_base64 v) = true
  /\ isspace (table_b2a_base64 v) = false.
Proof.
  intros Hv.
  pose proof (check_below 64
    (fun v => negb (table_b2a_base64 v =? BASE64_PAD)
              && match table_a2b_base64 (table_b2a_base64 v) with
                 | Some w => w =? v
                 | None => false
                 end
              && is_ascii (table_b2a_base64 v)
              && negb (isspace (table_b2a_base64 v)))
    ltac:(vm_compute; reflexivity) v Hv) as H.
  apply andb_true_iff in H as [H Hspace]. apply andb_true_iff in H as [H Hascii].
  apply andb_true_iff in H as [Hpad Htable].
  apply negb_true_iff in Hpad, Hspace.
  destruct (table_a2b_base64 (table_b2a_base64 v)) as [w|]; [|done].
  apply N.eqb_eq in Htable as ->. done.
Qed.

(** The shifts and masks of the decoder undo those of the encoder. *)
Lemma sextets_of_octets a b :
  a < 256 -> b < 256 ->
  sextet1 a < 64 /\ sextet2 a b < 64 /\ sextet3 a b < 64 /\ sextet4 a < 64
  /\ u8 (N.lor (N.shiftl (sextet1 a) 2) (N.shiftr (sextet2 a b) 4)) = a
  /\ N.land (sextet2 a b) 0x0f = N.shiftr b 4
  /\ u8 (N.lor (N.shiftl (N.shiftr a 4) 4) (N.shiftr (sextet3 a b) 2)) = a
  /\ N.land (sextet3 a b) 0x03 = N.shiftr b 6
  /\ u8 (N.lor (N.shiftl (N.shiftr a 6) 6) (sextet4 a)) = a.
Proof.
  intros Ha Hb.
  pose proof (check_below2 256 256
    (fun a b =>
       (sextet1 a <? 64) && (sextet2 a b <? 64) && (sextet3 a b <? 64)
       && (sextet4 a <? 64)
       && (u8 (N.lor (N.shiftl (sextet1 a) 2) (N.shiftr (sextet2 a b) 4)) =? a)
       && (N.land (sextet2 a b) 0x0f =? N.shiftr b 4)
       && (u8 (N.lor (N.shiftl (N.shiftr a 4) 4) (N.shiftr (sextet3 a b) 2)) =? a)
       && (N.land (sextet3 a b) 0x03 =? N.shiftr b 6)
       && (u8 (N.lor (N.shiftl (N.shiftr a 6) 6) (sextet4 a)) =? a))
    ltac:(vm_compute; reflexivity) a b Ha Hb) as H.
  repeat (apply andb_true_iff in H as [H ?]).
  repeat match goal with
         | H : (_ <? _) = true |- _ => apply N.ltb_lt in H
         | H : (_ =? _) = true |- _ => apply N.eqb_eq in H
         end.
  done.
Qed.

(** One step of the decoder on a character of the alphabet. *)
Lemma a2b_loop_alphabet quad_pos leftchar pads out v rest :
  v < 64 ->
  a2b_loop quad_pos leftchar pads out (table_b2a_base64 v :: rest)
  = if quad_pos =? 0 then a2b_loop 1 v 0 out rest
    else if quad_pos =? 1 then
      a2b_loop 2 (N.land v 0x0f) 0
        (u8 (N.lor (N.shiftl leftchar 2) (N.shiftr v 4)) :: out) rest
    else if quad_pos =? 2 then
      a2b_loop 3 (N.land v 0x03) 0
        (u8 (N.lor (N.shiftl leftchar 4) (N.shiftr v 2)) :: out) rest
    else a2b_loop 0 0 0 (u8 (N.lor (N.shiftl leftchar 6) v) :: out) rest.
Proof.
  intros (Hpad & Htable & _)%alphabet_char. cbn [a2b_loop]. by rewrite Hpad, Htable.
Qed.

(** Lists three elements at a time. *)
Lemma list_ind3 {A} (P : list A -> Prop) :
  P [] -> (forall a, P [a]) -> (forall a b, P [a; b]) ->
  (forall a b c rest, P rest -> P (a :: b :: c :: rest)) ->
  forall l, P l.
Proof.
  intros H0 H1 H2 H3.
  fix IH 1. intros [|a [|b [|c rest]]]; [done..|]. apply H3, IH.
Qed.

Lemma a2b_loop_b64encode s out :
  is_bytes s -> a2b_loop 0 0 0 out (b64encode s) = Ok (rev out ++ s).
Proof.
  revert out. induction s as [|a|a b|a b c rest IH] using list_ind3; intros out Hs.
  - simpl. by rewrite app_nil_r.
  - apply Forall_cons in Hs as [Ha _].
    destruct (sextets_of_octets a 0 Ha ltac:(lia))
      as (H1 & H2 & _ & _ & Hbyte1 & _).
    cbn [b64encode]. rewrite !a2b_loop_alphabet by done. cbn [N.eqb Pos.eqb].
    rewrite Hbyte1. reflexivity.
  - apply Forall_cons in Hs as [Ha [Hb _]%Forall_cons].
    destruct (sextets_of_octets a b Ha Hb) as (H1 & H2 & _ & _ & Hbyte1 & Hleft1 & _).
    destruct (sextets_of_octets b 0 Hb ltac:(lia))
      as (_ & _ & H3 & _ & _ & _ & Hbyte2 & _).
    cbn [b64encode]. rewrite !a2b_loop_alphabet by done. cbn [N.eqb Pos.eqb].
    rewrite Hbyte1, Hleft1, Hbyte2. simpl. by rewrite <- app_assoc.
  - apply Forall_cons in Hs as [Ha [Hb [Hc Hrest]%Forall_cons]%Forall_cons].
    destruct (sextets_of_octets a b Ha Hb) as (H1 & H2 & _ & _ & Hbyte1 & Hleft1 & _).
    destruct (sextets_of_octets b c Hb Hc)
      as (_ & _ & H3 & _ & _ & _ & Hbyte2 & Hleft2 & _).
    destruct (sextets_of_octets c 0 Hc ltac:(lia))
      as (_ & _ & _ & H4 & _ & _ & _ & _ & Hbyte3).
    cbn [b64encode]. rewrite !a2b_loop_alphabet by done. cbn [N.eqb Pos.eqb].
    rewrite Hbyte1, Hleft1, Hbyte2, Hleft2, Hbyte3, IH by done.
    simpl. by rewrite <- !app_assoc.
Qed.

(** What the encoder writes needs no cleaning: it is ASCII without white
    space or comma, and its length is a multiple of four. *)
Lemma clean_alphabet_char v : v < 64 -> clean_char (table_b2a_base64 v).
Proof.
  intros Hv. destruct (alphabet_char v Hv) as (_ & Htable & Hascii & Hspace).
  repeat split; try done. intros Hcomma. by rewrite Hcomma in Htable.
Qed.

Lemma b64encode_clean s :
  is_bytes s -> Forall clean_char (b64encode s) /\ (length (b64encode s) mod 4 = 0)%nat.
Proof.
  induction s as [|a|a b|a b c rest IH] using list_ind3; intros Hs.
  - by split.
  - apply Forall_cons in Hs as [Ha _].
    destruct (sextets_of_octets a 0 Ha ltac:(lia)) as (H1 & H2 & _).
    split; [|done]. cbn [b64encode].
    repeat (apply Forall_cons; split); auto using clean_alphabet_char; done.
  - apply Forall_cons in Hs as [Ha [Hb _]%Forall_cons].
    destruct (sextets_of_octets a b Ha Hb) as (H1 & H2 & _).
    destruct (sextets_of_octets b 0 Hb ltac:(lia)) as (_ & _ & H3 & _).
    split; [|done]. cbn [b64encode].
    repeat (apply Forall_cons; split); auto using clean_alphabet_char; done.
  - apply Forall_cons in Hs as [Ha [Hb [Hc Hrest]%Forall_cons]%Forall_cons].
    destruct (sextets_of_octets a b Ha Hb) as (H1 & H2 & _).
    destruct (sextets_of_octets b c Hb Hc) as (_ & _ & H3 & _).
    destruct (sextets_of_octets c 0 Hc ltac:(lia)) as (_ & _ & _ & H4 & _).
    destruct (IH Hrest) as [Hclean Hlen].
    split.
    + cbn [b64encode].
      repeat (apply Forall_cons; split); auto using clean_alphabet_char.
    + cbn [b64encode length].
      change (S (S (S (S (length (b64encode rest)))))) with (4 + length (b64encode rest))%nat.
      by rewrite <- Nat.Div0.add_mod_idemp_l.
Qed.

Lemma b64decode_b64encode s : is_bytes s -> b64decode (b64encode s) = Ok s.
Proof.
  intros Hs. unfold b64decode, a2b_base64.
  destruct (b64encode_clean s Hs) as [Hclean _].
  assert (forallb is_ascii (b64encode s) = true) as ->.
  { apply forallb_forall. intros c Hc%list_elem_of_In.
    by destruct (proj1 (Forall_forall _ _) Hclean c Hc). }
  by rewrite a2b_loop_b64encode.
Qed.

End Base64Facts.

(** ** The declared type of a data URI is not read *)

Section DeclaredTypeFacts.
Import Encode.
Implicit Types (p s declared payload : pystr).

Lemma contains_spec p s : contains p s = true <-> exists a b, s = a ++ p ++ b.
Proof.
  induction s as [|c s IH].
  - cbn [contains]. rewrite orb_false_r, startswith_spec. split.
    + intros [t Ht]. exists [], t. done.
    + intros (a & b & Hab). symmetry in Hab.
      apply app_eq_nil in Hab as [-> [-> ->]%app_eq_nil]. by exists [].
  - cbn [contains]. rewrite orb_true_iff, startswith_spec, IH. split.
    + intros [[t Ht] | (a & b & ->)]; [by exists [], t | by exists (c :: a), b].
    + intros ([|c' a] & b & Hab); [left; by exists b|].
      injection Hab as -> ->. right. eauto.
Qed.

Lemma marker_needs_comma s : contains (py "base64,") s = true -> 44 ∈ s.
Proof.
  intros (a & b & ->)%contains_spec. rewrite !elem_of_app. right. left.
  change (py "base64,") with [98; 97; 115; 101; 54; 52; 44]. set_solver.
Qed.

Lemma remove_whitespace_clean s : Forall clean_char s -> remove_whitespace s = s.
Proof.
  induction 1 as [|c s (_ & Hspace & _) _ IH]; [done|].
  unfold remove_whitespace in *. simpl. by rewrite Hspace, IH.
Qed.

(** The marker of a data URI is the first [base64,] when nothing before it
    holds a comma. *)
Lemma after_first_marker declared payload :
  44 ∉ declared ->
  after_first (py "base64,") (declared ++ py "base64," ++ payload) = Some payload.
Proof.
  change (py "base64,") with [98; 97; 115; 101; 54; 52; 44].
  induction declared as [|d declared IH]; intros Hcomma.
  - reflexivity.
  - cbn [app after_first].
    destruct (startswith _ (d :: declared ++ _)) eqn:Hstart.
    + exfalso. apply startswith_spec in Hstart as [t Ht].
      apply (f_equal (fun l => l !! 6%nat)) in Ht as Hsix.
      change (([98; 97; 115; 101; 54; 52; 44] ++ t) !! 6%nat) with (Some 44) in Hsix.
      rewrite app_comm_cons in Hsix.
      destruct (decide (6 < length (d :: declared))%nat) as [Hlong | Hshort].
      * rewrite lookup_app_l in Hsix by done.
        apply Hcomma. by eapply list_elem_of_lookup_2.
      * rewrite lookup_app_r in Hsix by lia.
        assert (6 - length (d :: declared) < 6)%nat as Hlt by (simpl; lia).
        destruct (6 - length (d :: declared))%nat as [|[|[|[|[|[|?]]]]]];
          simpl in Hsix; (done || lia).
    + apply IH. set_solver.
Qed.

(** What is declared before the marker does not reach the decoder. *)
Lemma decode_image_data_ignores_declared declared declared' payload :
  44 ∉ declared -> 44 ∉ declared' ->
  decode_image_data (declared ++ py "base64," ++ payload)
  = decode_image_data (declared' ++ py "base64," ++ payload).
Proof.
  intros H H'. unfold decode_image_data. rewrite !clean_b64_data_policy.
  unfold Policy.strip_base64_prefix. by rewrite !after_first_marker.
Qed.

(** The persister decodes what was encoded, whatever is declared before
    the marker, and also when there is no marker at all. *)
Lemma decode_image_data_encoded declared s :
  is_bytes s -> 44 ∉ declared ->
  decode_image_data (declared ++ py "base64," ++ b64encode s) = Ok s
  /\ decode_image_data (b64encode s) = Ok s.
Proof.
  intros Hs Hcomma. destruct (b64encode_clean s Hs) as [Hclean Hlen].
  unfold decode_image_data. rewrite !clean_b64_data_policy.
  unfold Policy.strip_base64_prefix, Policy.pad_to_multiple_of_4.
  rewrite after_first_marker by done.
  rewrite (after_first_none _ (b64encode s)); cycle 1.
  { destruct (contains _ (b64encode s)) eqn:Hc; [|done].
    apply marker_needs_comma in Hc.
    by destruct (proj1 (Forall_forall _ _) Hclean 44 Hc) as (_ & _ & ?). }
  cbn [default from_option id]. rewrite !remove_whitespace_clean, Hlen by done.
  cbn [replicate Nat.sub Nat.modulo Nat.divmod snd].
  by rewrite app_nil_r, b64decode_b64encode.
Qed.

End DeclaredTypeFacts.

(** C5.  For a payload that decodes, on a file system that lets the
    directory and the file be written, the persister saves the decoded
    bytes under a name whose extension is the format that the table of
    magic bytes gives for them ([jpg] when none matches), and nothing else
    decides it.  What a data URI declares before its [base64,] marker
    does not change what is decoded.  So the base64 encoding of bytes that
    start with the PNG signature is saved with the extension [png],
    whatever type is declared and also without any declaration. *)
Theorem extension_comes_from_magic_bytes (ucd : UnicodeData) :
  (forall image_data folder_path filename_prefix title image_bytes fs,
      let image_format := detect_format image_bytes in
      let file_path :=
        path_join folder_path
          (filename_prefix ++ py "_" ++ _sanitize_filename ucd title
           ++ py "." ++ image_format) in
      decode_image_data image_data = Ok image_bytes ->
      io_fault fs folder_path = None ->
      io_fault fs file_path = None ->
      (forall fmt, sniffed image_bytes fmt <-> fmt = image_format)
      /\ _save_base64_image ucd image_data folder_path filename_prefix title fs
         = ({| files := <[file_path := Binary image_bytes]> (files fs);
               dirs := {[folder_path]} ∪ dirs fs;
               io_fault := io_fault fs |},
            Ok (py "Saved: " ++ file_path)))
  /\ (forall declared declared' payload,
         44 ∉ declared -> 44 ∉ declared' ->
         decode_image_data (declared ++ py "base64," ++ payload)
         = decode_image_data (declared' ++ py "base64," ++ payload))
  /\ (forall declared image_bytes,
         Encode.is_bytes image_bytes ->
         44 ∉ declared ->
         startswith PNG_MAGIC image_bytes = true ->
         decode_image_data (declared ++ py "base64," ++ Encode.b64encode image_bytes)
         = Ok image_bytes
         /\ decode_image_data (Encode.b64encode image_bytes) = Ok image_bytes
         /\ detect_format image_bytes = py "png").
Proof.
  split; [|split].
  - intros image_data folder_path filename_prefix title image_bytes fs
      image_format file_path Hdec Hdir Hfile.
    split.
    + intros fmt. split; [apply sniffed_unique|].
      intros ->. apply detect_format_sniffed.
    + by apply save_base64_image_saved.
  - apply decode_image_data_ignores_declared.
  - intros declared image_bytes Hbytes Hcomma Hpng.
    destruct (decode_image_data_encoded declared image_bytes Hbytes Hcomma) as [H1 H2].
    split; [done|]. split; [done|]. unfold detect_format. by rewrite Hpng.
Qed.

Lemma extension_comes_from_magic_bytes_witness :
  let fs := {| files := ∅; dirs := ∅; io_fault := fun _ => None |} in
  let png := PNG_MAGIC ++ [0; 0; 0; 13] in
  decode_image_data (py "data:image/jpeg;base64," ++ Encode.b64encode png) = Ok png
  /\ _save_base64_image latin1
       (py "data:image/jpeg;base64," ++ Encode.b64encode png)
       (py "out") (py "01") (py "Logo - v2") fs
     = ({| files := {[ py "out/01_Logo_v2.png" := Binary png ]};
           dirs := {[ py "out" ]} ∪ ∅;
           io_fault := fun _ => None |},
        Ok (py "Saved: out/01_Logo_v2.png")).
Proof.
  intros fs png.
  destruct (extension_comes_from_magic_bytes latin1) as (Hsave & _ & Hpng).
  destruct (Hpng (py "data:image/jpeg;") png) as (Hdec & _ & Hfmt).
  { unfold Encode.is_bytes. repeat constructor. }
  { apply (bool_decide_unpack (44 ∉ py "data:image/jpeg;")). vm_compute. exact I. }
  { reflexivity. }
  split; [exact Hdec|].
  destruct (Hsave (py "data:image/jpeg;base64," ++ Encode.b64encode png)
              (py "out") (py "01") (py "Logo - v2") png fs Hdec eq_refl eq_refl)
    as [_ Hsaved].
  exact Hsaved.
Defined.

(** * More of the code *)

(** ** The names of the files *)

Section NameFacts.
Context (ucd : UnicodeData).
Implicit Types (s name url : pystr) (c : N).

(** What [re.sub(r'[-\s]+', '_', ...)] leaves: no hyphen and no white
    space. *)
Lemma collapse_runs_no_separator in_run s :
  Forall (fun c => is_hyphen_or_space c = false) (collapse_runs in_run s).
Proof.
  revert in_run. induction s as [|c s IH]; intros in_run; cbn [collapse_runs].
  - constructor.
  - destruct (is_hyphen_or_space c) eqn:Hc.
    + destruct in_run; [apply IH|]. constructor; [reflexivity | apply IH].
    + constructor; [done | apply IH].
Qed.

Lemma collapse_runs_keeps (P : N -> Prop) in_run s :
  P 95 -> Forall P s -> Forall P (collapse_runs in_run s).
Proof.
  intros Hunder H. revert in_run.
  induction H as [|c s Hc _ IH]; intros in_run; cbn [collapse_runs].
  - constructor.
  - destruct (is_hyphen_or_space c).
    + destruct in_run; [apply IH|]. constructor; [done | apply IH].
    + constructor; [done | apply IH].
Qed.

Lemma collapse_runs_nothing_to_do in_run s :
  Forall (fun c => is_hyphen_or_space c = false) s -> collapse_runs in_run s = s.
Proof.
  intros H. revert in_run.
  induction H as [|c s Hc _ IH]; intros in_run; cbn [collapse_runs]; [done|].
  by rewrite Hc, IH.
Qed.

Lemma lstrip_nothing_to_do s : Forall (fun c => isspace c = false) s -> lstrip s = s.
Proof. destruct 1 as [|c s Hc _]; cbn [lstrip]; [done|]. by rewrite Hc. Qed.

Lemma strip_nothing_to_do s : Forall (fun c => isspace c = false) s -> strip s = s.
Proof.
  intros H. unfold strip. rewrite (lstrip_nothing_to_do s H).
  rewrite lstrip_nothing_to_do, rev_involutive; [done|].
  apply Forall_forall. intros c Hc%list_elem_of_In%in_rev%list_elem_of_In.
  by apply (proj1 (Forall_forall _ _) H).
Qed.

Lemma not_separator_not_space c : is_hyphen_or_space c = false -> isspace c = false.
Proof. unfold is_hyphen_or_space. by intros [_ ?]%orb_false_iff. Qed.

Lemma Forall_lstrip (P : N -> Prop) s : Forall P s -> Forall P (lstrip s).
Proof.
  induction 1 as [|c s Hc H IH]; cbn [lstrip]; [constructor|].
  destruct (isspace c); [done | by constructor].
Qed.

Lemma Forall_strip (P : N -> Prop) s : Forall P s -> Forall P (strip s).
Proof.
  intros H. unfold strip. apply Forall_rev, Forall_lstrip, Forall_rev.
  by apply Forall_lstrip.
Qed.

Lemma url_name_char_plain c : url_name_char ucd c -> c <> 47 /\ c <> 58 /\ c <> 45.
Proof.
  intros [Hword Hsep]. repeat split; intros ->.
  - destruct Hword as [Hword | ?]; [by vm_compute in Hword | done].
  - destruct Hword as [Hword | ?]; [by vm_compute in Hword | done].
  - by vm_compute in Hsep.
Qed.

Lemma sanitize_filename_chars url max_length :
  Forall (url_name_char ucd) (sanitize_filename ucd url max_length).
Proof.
  unfold sanitize_filename.
  set (kept := map _ (strip_scheme url)).
  assert (Forall (fun c => is_word ucd c = true \/ c = 46 \/ is_hyphen_or_space c = true)
            kept) as Hkept.
  { unfold kept. apply Forall_map, Forall_forall. intros c _. cbn.
    destruct (keeps_in_url ucd c) eqn:Hk.
    - unfold keeps_in_url in Hk. unfold is_hyphen_or_space.
      apply orb_true_iff in Hk as [Hk | Hhyphen]; [|right; right; by rewrite Hhyphen].
      apply orb_true_iff in Hk as [Hk | Hdot%N.eqb_eq]; [|by right; left].
      apply orb_true_iff in Hk as [Hword | Hspace]; [by left|].
      right; right. rewrite Hspace. apply orb_true_r.
    - left. unfold is_word. by rewrite orb_true_r. }
  assert (Forall (url_name_char ucd) (collapse_runs false kept)) as Hclean.
  { pose proof (collapse_runs_no_separator false kept) as Hsep.
    pose proof (collapse_runs_keeps
                  (fun c => is_word ucd c = true \/ c = 46
                            \/ is_hyphen_or_space c = true) false kept
                  ltac:(left; unfold is_word; by rewrite orb_true_r) Hkept) as Hin.
    apply Forall_forall. intros c Hc.
    pose proof (proj1 (Forall_forall _ _) Hsep c Hc) as H1.
    pose proof (proj1 (Forall_forall _ _) Hin c Hc) as H2.
    split; [|done]. destruct H2 as [? | [? | ?]]; [by left | by right | congruence]. }
  unfold slice_to. destruct (_ <? _)%Z; by apply Forall_take.
Qed.

Lemma sanitized_title_chars name :
  Forall (title_name_char ucd) (_sanitize_filename ucd name).
Proof.
  unfold _sanitize_filename.
  set (kept := strip (List.filter _ name)).
  assert (Forall (fun c => is_word ucd c = true \/ is_hyphen_or_space c = true) kept)
    as Hkept.
  { unfold kept. apply Forall_strip, Forall_forall.
    intros c [_ Hc]%list_elem_of_In%filter_In. unfold is_hyphen_or_space.
    apply orb_true_iff in Hc as [Hc | ->]; [|right; done].
    apply orb_true_iff in Hc as [Hword | ->]; [by left | right; apply orb_true_r]. }
  apply Forall_take, Forall_forall. intros c Hc.
  pose proof (proj1 (Forall_forall _ _) (collapse_runs_no_separator false kept) c Hc)
    as Hsep.
  pose proof (proj1 (Forall_forall _ _)
                (collapse_runs_keeps
                   (fun c => is_word ucd c = true \/ is_hyphen_or_space c = true)
                   false kept ltac:(left; unfold is_word; by rewrite orb_true_r) Hkept)
                c Hc) as [Hword | Hbad]; [done | congruence].
Qed.

Lemma title_name_char_plain c :
  title_name_char ucd c -> c <> 47 /\ c <> 46 /\ isspace c = false.
Proof.
  intros [Hword Hsep]. split; [|split].
  - intros ->. by vm_compute in Hword.
  - intros ->. by vm_compute in Hword.
  - by apply not_separator_not_space.
Qed.

Lemma sanitize_filename_length url max_length :
  (0 <= max_length)%Z ->
  (length (sanitize_filename ucd url max_length) <= Z.to_nat max_length)%nat.
Proof.
  intros Hmax. unfold sanitize_filename, slice_to.
  destruct (Z.ltb_spec max_length 0); [lia|]. rewrite length_take. lia.
Qed.

Lemma sanitized_title_length title :
  (length (_sanitize_filename ucd title) <= 100)%nat.
Proof. unfold _sanitize_filename. rewrite length_take. lia. Qed.

End NameFacts.

(** X1.  A name made from a URL, for a bound that is not negative, is no
    longer than the bound and is made of word characters and dots only: it
    holds no slash, no colon, no hyphen and no white space. *)
Theorem sanitize_filename_is_safe (ucd : UnicodeData) (url : pystr) (max_length : Z) :
  (0 <= max_length)%Z ->
  let name := sanitize_filename ucd url max_length in
  (length name <= Z.to_nat max_length)%nat
  /\ Forall (url_name_char ucd) name
  /\ (47 ∉ name) /\ (58 ∉ name) /\ (45 ∉ name)
  /\ Forall (fun c => isspace c = false) name.
Proof.
  intros Hmax name. pose proof (sanitize_filename_chars ucd url max_length) as Hchars.
  fold name in Hchars.
  assert (forall c, c ∈ name -> url_name_char ucd c) as Hin
    by (by apply Forall_forall).
  split; [|split; [done|]].
  - by apply sanitize_filename_length.
  - repeat split.
    + intros H%Hin%url_name_char_plain. by destruct H as (? & ? & ?).
    + intros H%Hin%url_name_char_plain. by destruct H as (? & ? & ?).
    + intros H%Hin%url_name_char_plain. by destruct H as (? & ? & ?).
    + apply Forall_forall. intros c [_ Hsep]%Hin. by apply not_separator_not_space.
Qed.

Lemma sanitize_filename_is_safe_witness :
  (0 <= 100)%Z
  /\ sanitize_filename latin1 (py "https://example.com/page?param=value") 100
     = py "example.com_page_param_value"
  /\ 47 ∉ sanitize_filename latin1 (py "https://example.com/page?param=value") 100.
Proof.
  split; [lia|]. split; [vm_compute; reflexivity|].
  apply (sanitize_filename_is_safe latin1 (py "https://example.com/page?param=value") 100).
  lia.
Defined.

(** X2.  Sanitizing a name that is already sanitized (with the same bound,
    not negative) changes nothing. *)
Theorem sanitize_filename_idempotent (ucd : UnicodeData) (url : pystr) (max_length : Z) :
  (0 <= max_length)%Z ->
  sanitize_filename ucd (sanitize_filename ucd url max_length) max_length
  = sanitize_filename ucd url max_length.
Proof.
  intros Hmax.
  pose proof (sanitize_filename_length ucd url max_length Hmax) as Hlen.
  pose proof (sanitize_filename_chars ucd url max_length) as Hchars.
  set (name := sanitize_filename ucd url max_length) in *.
  assert (58 ∉ name) as Hcolon.
  { intros Hin. apply (proj1 (Forall_forall _ _) Hchars) in Hin.
    apply url_name_char_plain in Hin. by destruct Hin as (? & ? & ?). }
  unfold sanitize_filename at 1.
  assert (strip_scheme name = name) as ->.
  { unfold strip_scheme.
    destruct (startswith (py "http://") name) eqn:H1.
    { apply startswith_spec in H1 as [t Ht]. exfalso. apply Hcolon. rewrite Ht.
      change (py "http://") with [104; 116; 116; 112; 58; 47; 47]. set_solver. }
    destruct (startswith (py "https://") name) eqn:H2; [|done].
    apply startswith_spec in H2 as [t Ht]. exfalso. apply Hcolon. rewrite Ht.
    change (py "https://") with [104; 116; 116; 112; 115; 58; 47; 47]. set_solver. }
  assert (map (fun c => if keeps_in_url ucd c then c else 95) name = name) as ->.
  { clear Hlen Hcolon. induction Hchars as [|c s [Hword _] _ IH]; [done|].
    cbn [map]. rewrite IH. unfold keeps_in_url.
    destruct Hword as [-> | ->]; [done|]. by rewrite orb_true_r. }
  rewrite collapse_runs_nothing_to_do; cycle 1.
  { eapply Forall_impl; [exact Hchars|]. by intros c [_ ?]. }
  unfold slice_to. destruct (Z.ltb_spec max_length 0); [lia|]. by apply take_ge.
Qed.

Lemma sanitize_filename_idempotent_witness :
  (0 <= 100)%Z
  /\ sanitize_filename latin1
       (sanitize_filename latin1 (py "https://test.com/file@#$%") 100) 100
     = py "test.com_file____".
Proof.
  split; [lia|].
  rewrite (sanitize_filename_idempotent latin1 (py "https://test.com/file@#$%") 100)
    by lia.
  vm_compute. reflexivity.
Defined.

(** X3.  A name made from a title has at most 100 characters, all of them
    word characters: it holds no slash, no dot and no white space. *)
Theorem sanitized_title_is_safe (ucd : UnicodeData) (title : pystr) :
  let name := _sanitize_filename ucd title in
  (length name <= 100)%nat
  /\ Forall (title_name_char ucd) name
  /\ (47 ∉ name) /\ (46 ∉ name)
  /\ Forall (fun c => isspace c = false) name.
Proof.
  intros name. pose proof (sanitized_title_chars ucd title) as Hchars.
  fold name in Hchars.
  assert (forall c, c ∈ name -> title_name_char ucd c) as Hin
    by (by apply Forall_forall).
  split; [|split; [done|]].
  - apply sanitized_title_length.
  - repeat split.
    + intros H%Hin%title_name_char_plain. by destruct H as (? & ? & ?).
    + intros H%Hin%title_name_char_plain. by destruct H as (? & ? & ?).
    + apply Forall_forall. intros c H%Hin%title_name_char_plain.
      by destruct H as (? & ? & ?).
Qed.

(** X4.  Sanitizing a title that is already sanitized changes nothing. *)
Theorem sanitized_title_idempotent (ucd : UnicodeData) (title : pystr) :
  _sanitize_filename ucd (_sanitize_filename ucd title) = _sanitize_filename ucd title.
Proof.
  pose proof (sanitized_title_length ucd title) as Hlen.
  pose proof (sanitized_title_chars ucd title) as Hchars.
  set (name := _sanitize_filename ucd title) in *.
  assert (Forall (fun c => isspace c = false) name) as Hspace.
  { eapply Forall_impl; [exact Hchars|].
    intros c [_ Hsep]. by apply not_separator_not_space. }
  unfold _sanitize_filename at 1.
  assert (List.filter (fun c => is_word ucd c || isspace c || (c =? 45)) name = name)
    as ->.
  { clear Hlen Hspace. induction Hchars as [|c s [Hword _] _ IH]; [done|].
    cbn [List.filter]. by rewrite Hword, IH. }
  rewrite strip_nothing_to_do by done.
  rewrite collapse_runs_nothing_to_do; cycle 1.
  { eapply Forall_impl; [exact Hchars|]. by intros c [_ ?]. }
  by apply take_ge.
Qed.

(** ** The classifier on raw base64 and on plain words *)

Section ClassifierFacts.
Import Encode.
Implicit Types (s t : pystr) (c : N).

Lemma alphabet_char_in_alphabet v :
  v < 64 -> in_alphabet (table_b2a_base64 v) = true /\ table_b2a_base64 v <> 58.
Proof.
  intros Hv.
  pose proof (check_below 64
    (fun v => in_alphabet (table_b2a_base64 v) && negb (table_b2a_base64 v =? 58))
    ltac:(vm_compute; reflexivity) v Hv) as H.
  apply andb_true_iff in H as [H1 H2%negb_true_iff%N.eqb_neq]. done.
Qed.

Lemma b64encode_no_colon s : is_bytes s -> 58 ∉ b64encode s.
Proof.
  induction s as [|a|a b|a b c rest IH] using list_ind3; intros Hs.
  - set_solver.
  - apply Forall_cons in Hs as [Ha _].
    destruct (sextets_of_octets a 0 Ha ltac:(lia)) as (H1 & H2 & _).
    apply alphabet_char_in_alphabet in H1 as [_ H1], H2 as [_ H2].
    cbn [b64encode]. rewrite !not_elem_of_cons. unfold BASE64_PAD. set_solver.
  - apply Forall_cons in Hs as [Ha [Hb _]%Forall_cons].
    destruct (sextets_of_octets a b Ha Hb) as (H1 & H2 & _).
    destruct (sextets_of_octets b 0 Hb ltac:(lia)) as (_ & _ & H3 & _).
    apply alphabet_char_in_alphabet in H1 as [_ H1], H2 as [_ H2], H3 as [_ H3].
    cbn [b64encode]. rewrite !not_elem_of_cons. unfold BASE64_PAD. set_solver.
  - apply Forall_cons in Hs as [Ha [Hb [Hc Hrest]%Forall_cons]%Forall_cons].
    destruct (sextets_of_octets a b Ha Hb) as (H1 & H2 & _).
    destruct (sextets_of_octets b c Hb Hc) as (_ & _ & H3 & _).
    destruct (sextets_of_octets c 0 Hc ltac:(lia)) as (_ & _ & _ & H4 & _).
    apply alphabet_char_in_alphabet in H1 as [_ H1], H2 as [_ H2], H3 as [_ H3],
      H4 as [_ H4].
    cbn [b64encode]. rewrite !not_elem_of_cons. specialize (IH Hrest). done.
Qed.

(** The first character that the encoder writes is a slash exactly for a
    first octet of 252 or more. *)
Lemma b64encode_head a rest :
  a < 256 ->
  exists tail,
    b64encode (a :: rest) = table_b2a_base64 (sextet1 a) :: tail
    /\ (47 =? table_b2a_base64 (sextet1 a)) = negb (a <? 252).
Proof.
  intros Ha.
  pose proof (check_below 256
    (fun a => Bool.eqb (47 =? table_b2a_base64 (sextet1 a)) (negb (a <? 252)))
    ltac:(vm_compute; reflexivity) a Ha) as H%Bool.eqb_prop.
  destruct rest as [|b [|c rest]]; eexists; (split; [reflexivity | done]).
Qed.

Lemma no_colon_no_scheme s :
  58 ∉ s ->
  startswith (py "data:image/") s = false
  /\ startswith (py "http://") s = false
  /\ startswith (py "https://") s = false.
Proof.
  intros Hcolon.
  assert (forall p, 58 ∈ p -> startswith p s = false) as H.
  { intros p Hp. destruct (startswith p s) eqn:E; [|done].
    apply startswith_spec in E as [t ->]. set_solver. }
  repeat split; apply H; vm_compute; set_solver.
Qed.

End ClassifierFacts.

(** How the classifier takes the base64 text of a file. *)
Lemma b64encode_classified (a : N) (rest : pybytes) :
  Encode.is_bytes (a :: rest) ->
  _is_base64_image (Encode.b64encode (a :: rest)) = (a <? 252).
Proof.
  intros Hbytes. pose proof Hbytes as [Ha _]%Forall_cons.
  destruct (b64encode_head a rest Ha) as (tail & Hhead & Hslash).
  destruct (no_colon_no_scheme _ (b64encode_no_colon _ Hbytes)) as (Hdata & Hhttp & Hhttps).
  destruct (decode_image_data_encoded [] (a :: rest) Hbytes ltac:(set_solver))
    as [_ Hdecode].
  unfold _is_base64_image. rewrite Hdata. cbn [andb].
  unfold is_url. rewrite Hhttp, Hhttps, Hdecode. cbn [orb succeeds].
  rewrite Hhead.
  change (startswith (py "/") (?c :: tail)) with ((47 =? c) && true).
  change (startswith (py "//") (?c :: tail))
    with ((47 =? c) && startswith (py "/") tail).
  rewrite andb_true_r, Hslash.
  destruct (a <? 252); [done|]. cbn. by rewrite orb_true_r.
Qed.

(** X5.  The base64 text of a file, with no data URI before it, is taken
    for an image exactly when the first octet of the file is below 252:
    from 252 on the text starts with a slash and is taken for a URL. *)
Theorem raw_base64_is_recognised_unless_slash (a : N) (rest : pybytes) :
  Encode.is_bytes (a :: rest) ->
  _is_base64_image (Encode.b64encode (a :: rest)) = true <-> a < 252.
Proof.
  intros Hbytes. rewrite (b64encode_classified a rest Hbytes). apply N.ltb_lt.
Qed.

Lemma raw_base64_is_recognised_unless_slash_witness :
  Encode.is_bytes (PNG_MAGIC ++ [0; 0; 0; 13])
  /\ _is_base64_image (Encode.b64encode (PNG_MAGIC ++ [0; 0; 0; 13])) = true.
Proof.
  split; [unfold Encode.is_bytes; by repeat constructor|].
  apply (raw_base64_is_recognised_unless_slash 0x89
           [0x50; 0x4E; 0x47; 0x0D; 0x0A; 0x1A; 0x0A; 0; 0; 0; 13]); [|reflexivity].
  unfold Encode.is_bytes. by repeat constructor.
Defined.

(** X6.  The base64 text of a JPEG file (any bytes after the signature
    FF D8 FF), with no data URI before it, is not taken for an image: it
    goes to the list of links. *)
Theorem raw_base64_jpeg_is_taken_for_a_link (image_bytes : pybytes) :
  Encode.is_bytes image_bytes ->
  startswith JPEG_MAGIC image_bytes = true ->
  _is_base64_image (Encode.b64encode image_bytes) = false
  /\ detect_format image_bytes = py "jpg".
Proof.
  intros Hbytes Hjpeg. split.
  - apply startswith_spec in Hjpeg as [t ->].
    apply (b64encode_classified 0xFF) in Hbytes. exact Hbytes.
  - unfold detect_format. rewrite Hjpeg.
    apply startswith_spec in Hjpeg as [t ->]. reflexivity.
Qed.

Lemma raw_base64_jpeg_is_taken_for_a_link_witness :
  _is_base64_image (Encode.b64encode (JPEG_MAGIC ++ [0xE0; 0; 16])) = false.
Proof.
  apply (raw_base64_jpeg_is_taken_for_a_link (JPEG_MAGIC ++ [0xE0; 0; 16]));
    [unfold Encode.is_bytes; by repeat constructor | reflexivity].
Defined.

Section WordFacts.
Implicit Types (s t : pystr) (c : N).

Lemma in_alphabet_char c :
  in_alphabet c = true ->
  (exists v, table_a2b_base64 c = Some v) /\ (c =? BASE64_PAD) = false
  /\ clean_char c /\ c <> 58.
Proof.
  unfold in_alphabet. intros H.
  destruct (table_a2b_base64 c) as [v|] eqn:Hv; [|done].
  assert (c < 128) as Hc.
  { destruct (N.lt_ge_cases c 128) as [|Hge]; [done|]. exfalso.
    unfold table_a2b_base64 in Hv.
    replace (c <=? 90) with false in Hv by (symmetry; apply N.leb_gt; lia).
    replace (c <=? 122) with false in Hv by (symmetry; apply N.leb_gt; lia).
    replace (c <=? 57) with false in Hv by (symmetry; apply N.leb_gt; lia).
    replace (c =? 43) with false in Hv by (symmetry; apply N.eqb_neq; lia).
    replace (c =? 47) with false in Hv by (symmetry; apply N.eqb_neq; lia).
    by rewrite !andb_false_r in Hv. }
  pose proof (check_below 128
    (fun c => negb (in_alphabet c)
              || (negb (c =? 61) && negb (c =? 44) && negb (c =? 58) && negb (isspace c)))
    ltac:(vm_compute; reflexivity) c Hc) as Hall.
  unfold in_alphabet in Hall. rewrite Hv in Hall. cbn [negb orb] in Hall.
  apply andb_true_iff in Hall as [[[H61 H44]%andb_true_iff H58]%andb_true_iff Hsp].
  apply negb_true_iff in H61, H44, H58, Hsp.
  apply N.eqb_neq in H44, H58.
  repeat split; [by eexists | exact H61 | by apply N.ltb_lt | done | done | done].
Qed.

(** A run of alphabet characters moves the decoder round its four
    positions and leaves no padding counted. *)
Lemma a2b_loop_word s : forall (n : nat) leftchar pads out t,
  Forall (fun c => in_alphabet c = true) s -> (n < 4)%nat ->
  exists leftchar' out',
    a2b_loop (N.of_nat n) leftchar pads out (s ++ t)
    = a2b_loop (N.of_nat ((n + length s) mod 4)) leftchar'
        (match s with [] => pads | _ => 0 end) out' t.
Proof.
  induction s as [|c s IH]; intros n leftchar pads out t Hs Hn.
  - exists leftchar, out. by rewrite Nat.add_0_r, Nat.mod_small.
  - apply Forall_cons in Hs as [Hc Hs].
    destruct (in_alphabet_char c Hc) as ([v Hv] & Hpad & _).
    cbn [app a2b_loop length]. rewrite Hpad, Hv.
    assert (forall m l o, (m < 4)%nat -> ((m + length s) mod 4 = (n + S (length s)) mod 4)%nat ->
      exists leftchar' out',
        a2b_loop (N.of_nat m) l 0 o (s ++ t)
        = a2b_loop (N.of_nat ((n + S (length s)) mod 4)) leftchar' 0 out' t) as Hnext.
    { intros m l o Hm <-. destruct (IH m l 0 o t Hs Hm) as (l' & o' & ->).
      exists l', o'. by destruct s. }
    destruct n as [|[|[|[|]]]]; [| | | |lia]; cbn [N.of_nat N.eqb Pos.of_succ_nat Pos.succ Pos.eqb].
    + apply (Hnext 1%nat); [lia | f_equal; lia].
    + apply (Hnext 2%nat); [lia | f_equal; lia].
    + apply (Hnext 3%nat); [lia | f_equal; lia].
    + apply (Hnext 0%nat); [lia|].
      replace (3 + S (length s))%nat with (0 + length s + 1 * 4)%nat by lia.
      by rewrite Nat.Div0.mod_add.
Qed.

End WordFacts.

(** X7.  A word made only of letters, digits, [+] and [/] that does not
    start with a slash is taken for a base64 image, whatever it says,
    unless its length is one more than a multiple of four. *)
Theorem plain_word_is_taken_for_an_image (word : pystr) :
  word <> [] ->
  Forall (fun c => in_alphabet c = true) word ->
  startswith (py "/") word = false ->
  _is_base64_image word = negb (length word mod 4 =? 1)%nat.
Proof.
  intros Hne Hword Hslash.
  assert (Forall clean_char word) as Hclean.
  { eapply Forall_impl; [exact Hword|]. intros c Hc. by apply in_alphabet_char. }
  assert (58 ∉ word) as Hcolon.
  { intros Hin. apply (proj1 (Forall_forall _ _) Hword) in Hin.
    by apply in_alphabet_char in Hin as (_ & _ & _ & ?). }
  assert (contains (py "base64,") word = false) as Hmarker.
  { destruct (contains _ word) eqn:Hc; [|done].
    apply marker_needs_comma in Hc.
    by destruct (proj1 (Forall_forall _ _) Hclean 44 Hc) as (_ & _ & ?). }
  destruct (no_colon_no_scheme _ Hcolon) as (Hdata & Hhttp & Hhttps).
  assert (startswith (py "//") word = false) as Hslashes.
  { destruct (startswith (py "//") word) eqn:E; [|done].
    apply startswith_spec in E as [t ->]. done. }
  assert (_is_base64_image word
          = if startswith (py "data:image/") word && contains (py "base64,") word
            then true
            else if is_url word then false
            else succeeds (decode_image_data word)) as ->
    by (by destruct word).
  rewrite Hdata. cbn [andb]. unfold is_url.
  rewrite Hhttp, Hhttps, Hslashes, Hslash. cbn [orb].
  unfold decode_image_data, clean_b64_data. rewrite Hmarker.
  rewrite remove_whitespace_clean by done.
  assert (forall t, Forall (fun c => c = BASE64_PAD) t ->
            forallb is_ascii (word ++ t) = true) as Hascii.
  { intros t Ht. apply forallb_forall. intros c [Hin|Hin]%in_app_or.
    - apply list_elem_of_In in Hin.
      by destruct (proj1 (Forall_forall _ _) Hclean c Hin).
    - apply list_elem_of_In in Hin.
      by rewrite (proj1 (Forall_forall _ _) Ht c Hin). }
  pose proof (Nat.mod_upper_bound (length word) 4 ltac:(lia)) as Hlt.
  assert (forall t, exists l o,
            a2b_loop 0 0 0 [] (word ++ t)
            = a2b_loop (N.of_nat (length word mod 4)) l 0 o t) as Hrun.
  { intros t. destruct (a2b_loop_word word 0 0 0 [] t Hword ltac:(lia)) as (l & o & E).
    exists l, o.
    change (a2b_loop 0 0 0 [] (word ++ t)
            = a2b_loop (N.of_nat (length word mod 4)) l
                (match word with [] => 0 | _ => 0 end) o t) in E.
    rewrite E. by destruct word. }
  assert (forall t, Forall (fun c => c = BASE64_PAD) t ->
            exists l o, b64decode (word ++ t)
                        = a2b_loop (N.of_nat (length word mod 4)) l 0 o t) as Hdecode.
  { intros t Ht. unfold b64decode, a2b_base64. rewrite (Hascii t Ht). apply Hrun. }
  destruct (length word mod 4)%nat as [|[|[|[|]]]] eqn:Hmod; [| | | |lia];
    cbn [Nat.eqb negb Nat.sub replicate].
  - destruct (Hdecode [] ltac:(constructor)) as (l & o & E).
    rewrite app_nil_r in E. rewrite E. reflexivity.
  - destruct (Hdecode [BASE64_PAD; BASE64_PAD; BASE64_PAD] ltac:(by repeat constructor))
      as (l & o & ->). reflexivity.
  - destruct (Hdecode [BASE64_PAD; BASE64_PAD] ltac:(by repeat constructor))
      as (l & o & ->). reflexivity.
  - destruct (Hdecode [BASE64_PAD] ltac:(by repeat constructor)) as (l & o & ->).
    reflexivity.
Qed.

Lemma plain_word_is_taken_for_an_image_witness :
  _is_base64_image (py "untitled") = true /\ _is_base64_image (py "image") = false.
Proof.
  split.
  - apply (plain_word_is_taken_for_an_image (py "untitled"));
      [done | by repeat constructor | reflexivity].
  - apply (plain_word_is_taken_for_an_image (py "image"));
      [done | by repeat constructor | reflexivity].
Defined.
(** ** The persister and its loop on the disk *)

(** A character that a literal does not have. *)
Ltac absent :=
  match goal with
  | |- ?c ∉ ?l => apply (bool_decide_unpack (c ∉ l)); vm_compute; exact I
  end.

Section DiskFacts.
Context (ucd : UnicodeData).
Implicit Types (fs : filesystem) (title folder_path : pystr).

(** Whatever a call of the persister does: a report comes back, the faults
    of the file system stay, and either one file was written or none. *)
Lemma save_base64_image_effect image_data folder_path filename_prefix title fs :
  exists fs' report,
    _save_base64_image ucd image_data folder_path filename_prefix title fs
    = (fs', Ok report)
    /\ io_fault fs' = io_fault fs
    /\ ((exists image_bytes,
           let file_path :=
             path_join folder_path
               (image_filename ucd filename_prefix title (detect_format image_bytes)) in
           decode_image_data image_data = Ok image_bytes
           /\ io_fault fs folder_path = None /\ io_fault fs file_path = None
           /\ report = py "Saved: " ++ file_path
           /\ files fs' = <[file_path := Binary image_bytes]> (files fs))
        \/ (exists msg,
              report = save_failure title msg
              /\ files fs' = files fs
              /\ (decode_image_data image_data = Err msg
                  \/ io_fault fs folder_path = Some msg
                  \/ exists image_bytes,
                       decode_image_data image_data = Ok image_bytes
                       /\ io_fault fs
                            (path_join folder_path
                               (image_filename ucd filename_prefix title
                                  (detect_format image_bytes))) = Some msg))).
Proof.
  destruct (decode_image_data image_data) as [image_bytes | msg] eqn:Hdec.
  - destruct (io_fault fs folder_path) as [msg|] eqn:Hdir.
    { unfold _save_base64_image, try_except, bind, lift, makedirs, ret.
      rewrite Hdec, Hdir. eexists _, _. split; [done|]. split; [done|].
      right. exists msg. eauto. }
    destruct (io_fault fs (path_join folder_path
                (image_filename ucd filename_prefix title (detect_format image_bytes))))
      as [msg|] eqn:Hfile.
    { unfold _save_base64_image, try_except, bind, lift, makedirs, open_write, ret.
      rewrite Hdec, Hdir. cbn [io_fault files dirs]. rewrite Hfile.
      eexists _, _. split; [done|]. split; [done|].
      right. exists msg. split; [done|]. split; [done|]. right. right. eauto. }
    rewrite (save_base64_image_saved ucd _ _ _ _ image_bytes) by done.
    eexists _, _. split; [done|]. split; [done|]. left. exists image_bytes.
    cbn zeta. done.
  - rewrite (save_base64_image_decode_error ucd _ _ _ _ msg) by done.
    eexists _, _. split; [done|]. split; [done|]. right. exists msg. eauto.
Qed.

Lemma str_of_N_no_slash (n : N) : 47 ∉ str_of_N n.
Proof.
  unfold str_of_N. generalize (N.to_uint n). intros u.
  induction u; cbn; rewrite ?not_elem_of_cons; try (split; [done|assumption]).
  apply not_elem_of_nil.
Qed.

Lemma format_02d_no_slash (position : Z) : 47 ∉ format_02d position.
Proof.
  unfold format_02d.
  assert (47 ∉ str_of_Z position) as H.
  { unfold str_of_Z. destruct position; try apply str_of_N_no_slash.
    rewrite not_elem_of_app. split; [absent | apply str_of_N_no_slash]. }
  repeat case_match; try done.
  rewrite not_elem_of_app. split; [absent | done].
Qed.

Lemma detect_format_no_slash image_bytes : 47 ∉ detect_format image_bytes.
Proof. unfold detect_format. repeat case_match; absent. Qed.


(** The name of the file of an image has no slash, and so the file is
    right in the folder. *)
Lemma image_filename_no_slash position title image_bytes :
  47 ∉ image_filename ucd (format_02d position) title (detect_format image_bytes).
Proof.
  unfold image_filename. rewrite !not_elem_of_app.
  pose proof (sanitized_title_chars ucd title) as Hchars.
  split; [apply format_02d_no_slash|]. split; [absent|].
  split; [|split; [absent | apply detect_format_no_slash]].
  intros Hin. apply (proj1 (Forall_forall _ _) Hchars) in Hin as [Hword _].
  by vm_compute in Hword.
Qed.

(** The loop leaves alone every path that is not the name of a file right
    in the folder; the faults of the file system stay. *)
Lemma save_base64_images_effect folder_path base64_images :
  forall saved_images fs,
  exists fs' reports,
    save_base64_images ucd folder_path base64_images saved_images fs
    = (fs', Ok (saved_images ++ reports))
    /\ io_fault fs' = io_fault fs
    /\ (forall path,
          (forall name, 47 ∉ name -> path <> path_join folder_path name) ->
          files fs' !! path = files fs !! path).
Proof.
  induction base64_images as [|item rest IH]; intros saved fs;
    cbn [save_base64_images].
  - exists fs, []. rewrite app_nil_r. done.
  - destruct (save_base64_image_effect (b64_data item) folder_path
                (format_02d (b64_position item)) (b64_title item) fs)
      as (fs1 & report & Hsave & Hfault & Hfiles).
    unfold bind. rewrite Hsave.
    destruct (IH (saved ++ [report]) fs1) as (fs2 & reports & Hrest & Hfault2 & Hfiles2).
    exists fs2, (report :: reports). rewrite Hrest, <- app_assoc.
    split; [done|]. split; [congruence|].
    intros path Hpath. rewrite (Hfiles2 path Hpath).
    destruct Hfiles as [(image_bytes & _ & _ & _ & _ & Hwritten) | (msg & _ & Hsame & _)].
    + rewrite Hwritten. apply lookup_insert_ne. intros <-.
      by apply (Hpath _ (image_filename_no_slash (b64_position item) (b64_title item)
                           image_bytes)).
    + by rewrite Hsame.
Qed.

End DiskFacts.

(** X8.  The persister never raises, and its report tells what is on
    the disk.  A report that the summary counts as saved (it starts with
    [Saved:]) names a file that now holds the decoded bytes.  When the
    payload does not decode, or the folder cannot be made, or the file
    cannot be opened, the report is the failure with the title and the
    message of the cause, and the files are as they were. *)
Theorem counted_report_is_a_file_on_disk (ucd : UnicodeData)
  (image_data folder_path filename_prefix title : pystr) (fs : filesystem) :
  exists fs' report,
    _save_base64_image ucd image_data folder_path filename_prefix title fs
    = (fs', Ok report)
    /\ (startswith (py "Saved:") report = true ->
        exists image_bytes file_path,
          decode_image_data image_data = Ok image_bytes
          /\ report = py "Saved: " ++ file_path
          /\ files fs' !! file_path = Some (Binary image_bytes))
    /\ (forall msg,
          decode_image_data image_data = Err msg
          \/ (exists image_bytes,
                decode_image_data image_data = Ok image_bytes
                /\ (io_fault fs folder_path = Some msg
                    \/ io_fault fs folder_path = None
                       /\ io_fault fs
                            (path_join folder_path
                               (image_filename ucd filename_prefix title
                                  (detect_format image_bytes))) = Some msg)) ->
          report = save_failure title msg /\ files fs' = files fs).
Proof.
  destruct (decode_image_data image_data) as [image_bytes | decode_msg] eqn:Hdec.
  - destruct (io_fault fs folder_path) as [folder_msg|] eqn:Hdir.
    { unfold _save_base64_image, try_except, bind, lift, makedirs, ret.
      rewrite Hdec, Hdir. eexists _, _. split; [done|]. split; [done|].
      intros msg [? | (image_bytes' & ? & [? | [? _]])]; by simplify_eq. }
    destruct (io_fault fs (path_join folder_path
                (image_filename ucd filename_prefix title (detect_format image_bytes))))
      as [file_msg|] eqn:Hfile.
    { unfold _save_base64_image, try_except, bind, lift, makedirs, open_write, ret.
      rewrite Hdec, Hdir. cbn [io_fault files dirs]. rewrite Hfile.
      eexists _, _. split; [done|]. split; [done|].
      intros msg [? | (image_bytes' & ? & [? | [_ ?]])]; by simplify_eq. }
    rewrite (save_base64_image_saved ucd _ _ _ _ image_bytes) by done.
    eexists _, _. split; [done|]. split.
    + intros _. eexists image_bytes, _. split; [done|]. split; [done|].
      cbn [files]. apply lookup_insert_eq.
    + intros msg [? | (image_bytes' & ? & [? | [_ ?]])]; by simplify_eq.
  - rewrite (save_base64_image_decode_error ucd _ _ _ _ decode_msg) by done.
    eexists _, _. split; [done|]. split; [done|].
    intros msg [? | (image_bytes' & ? & _)]; by simplify_eq.
Qed.

(** X9.  The loop over the inline images writes only files right in the
    results folder: a path that is not the folder joined with a name
    without a slash keeps its content, whatever the titles and the payloads
    are. *)
Theorem image_loop_writes_only_in_the_folder (ucd : UnicodeData) (folder_path : pystr)
  (base64_images : list base64_entry) (fs : filesystem) (path : pystr) :
  (forall name, 47 ∉ name -> path <> path_join folder_path name) ->
  files (fst (save_base64_images ucd folder_path base64_images [] fs)) !! path
  = files fs !! path.
Proof.
  intros Hpath.
  destruct (save_base64_images_effect ucd folder_path base64_images [] fs)
    as (fs' & reports & -> & _ & Hfiles).
  by apply Hfiles.
Qed.

Lemma image_loop_writes_only_in_the_folder_witness :
  let fs := {| files := {[ py "x" := Text (py "mine") ]}; dirs := ∅;
               io_fault := fun _ => None |} in
  let entry := {| b64_data := py "data:image/png;base64,iVBORw0KGgo=";
                  b64_title := py "../x"; b64_position := 1 |} in
  files (fst (save_base64_images latin1 (py "out") [entry] [] fs)) !! py "x"
  = files fs !! py "x".
Proof.
  intros fs entry.
  apply (image_loop_writes_only_in_the_folder latin1 (py "out") [entry] fs (py "x")).
  intros name Hname. unfold path_join.
  destruct (startswith (py "/") name) eqn:Hslash.
  - apply startswith_spec in Hslash as [t ->]. destruct Hname. by left.
  - discriminate.
Defined.

(** X10.  Two inline images whose titles sanitize to the same name, with
    the same position and the same detected format, go to the same file:
    both are reported and counted as saved, and the file holds the second
    one only. *)
Theorem images_with_one_name_share_a_file (ucd : UnicodeData) (folder_path : pystr)
  (first second : base64_entry) (first_bytes second_bytes : pybytes)
  (fs : filesystem) :
  let file_path :=
    path_join folder_path
      (image_filename ucd (format_02d (b64_position first)) (b64_title first)
         (detect_format first_bytes)) in
  _sanitize_filename ucd (b64_title first) = _sanitize_filename ucd (b64_title second) ->
  b64_position first = b64_position second ->
  decode_image_data (b64_data first) = Ok first_bytes ->
  decode_image_data (b64_data second) = Ok second_bytes ->
  detect_format first_bytes = detect_format second_bytes ->
  io_fault fs folder_path = None ->
  io_fault fs file_path = None ->
  exists fs',
    save_base64_images ucd folder_path [first; second] [] fs
    = (fs', Ok [py "Saved: " ++ file_path; py "Saved: " ++ file_path])
    /\ files fs' = <[file_path := Binary second_bytes]> (files fs)
    /\ success_count [py "Saved: " ++ file_path; py "Saved: " ++ file_path] = 2%nat.
Proof.
  intros file_path Htitle Hposition Hfirst Hsecond Hformat Hdir Hfile.
  assert (path_join folder_path
            (image_filename ucd (format_02d (b64_position second)) (b64_title second)
               (detect_format second_bytes)) = file_path) as Hsame.
  { unfold file_path, image_filename. by rewrite Htitle, Hposition, Hformat. }
  cbn [save_base64_images]. unfold bind.
  rewrite (save_base64_image_saved ucd _ _ _ _ first_bytes) by done.
  fold file_path.
  rewrite (save_base64_image_saved ucd _ _ _ _ second_bytes)
    by (rewrite ?Hsame; done).
  rewrite Hsame. cbn [files]. eexists. split; [reflexivity|].
  cbn [files]. split; [apply insert_insert_eq | reflexivity].
Qed.

Lemma images_with_one_name_share_a_file_witness :
  let fs := {| files := ∅; dirs := ∅; io_fault := fun _ => None |} in
  let first := {| b64_data := Encode.b64encode (PNG_MAGIC ++ [1]);
                  b64_title := py "Logo: v2"; b64_position := 1 |} in
  let second := {| b64_data := Encode.b64encode (PNG_MAGIC ++ [2]);
                   b64_title := py "Logo v2"; b64_position := 1 |} in
  exists fs',
    save_base64_images latin1 (py "out") [first; second] [] fs
    = (fs', Ok [py "Saved: out/01_Logo_v2.png"; py "Saved: out/01_Logo_v2.png"])
    /\ files fs' = <[py "out/01_Logo_v2.png" := Binary (PNG_MAGIC ++ [2])]> ∅
    /\ success_count [py "Saved: out/01_Logo_v2.png"; py "Saved: out/01_Logo_v2.png"]
       = 2%nat.
Proof.
  intros fs first second.
  apply (images_with_one_name_share_a_file latin1 (py "out") first second
           (PNG_MAGIC ++ [1]) (PNG_MAGIC ++ [2]) fs); reflexivity.
Defined.

(** X11.  A payload that the classifier accepted by decoding it (one that
    is no data URI) is decoded again by the persister and saved when the
    file system lets the folder and the file be written. *)
Theorem accepted_bare_payload_is_saved (ucd : UnicodeData)
  (image_data folder_path filename_prefix title : pystr) (fs : filesystem) :
  _is_base64_image image_data = true ->
  startswith (py "data:image/") image_data && contains (py "base64,") image_data = false ->
  (forall path, io_fault fs path = None) ->
  exists fs' image_bytes,
    let file_path :=
      path_join folder_path
        (image_filename ucd filename_prefix title (detect_format image_bytes)) in
    decode_image_data image_data = Ok image_bytes
    /\ _save_base64_image ucd image_data folder_path filename_prefix title fs
       = (fs', Ok (py "Saved: " ++ file_path))
    /\ files fs' !! file_path = Some (Binary image_bytes).
Proof.
  intros Haccepted Hbare Hfs.
  unfold _is_base64_image in Haccepted. rewrite Hbare in Haccepted.
  destruct image_data as [|c rest]; [done|].
  destruct (is_url (c :: rest)); [done|].
  destruct (decode_image_data (c :: rest)) as [image_bytes|msg] eqn:Hdec; [|done].
  eexists _, image_bytes. cbn zeta. split; [done|].
  rewrite (save_base64_image_saved ucd _ _ _ _ image_bytes) by done.
  split; [reflexivity|]. cbn [files]. apply lookup_insert_eq.
Qed.

Lemma accepted_bare_payload_is_saved_witness :
  let fs := {| files := ∅; dirs := ∅; io_fault := fun _ => None |} in
  exists fs' image_bytes,
    decode_image_data (py "R0lGODlh") = Ok image_bytes
    /\ _save_base64_image latin1 (py "R0lGODlh") (py "out") (py "07") (py "dot") fs
       = (fs', Ok (py "Saved: " ++ path_join (py "out")
                     (image_filename latin1 (py "07") (py "dot")
                        (detect_format image_bytes))))
    /\ files fs'
         !! path_join (py "out")
              (image_filename latin1 (py "07") (py "dot") (detect_format image_bytes))
       = Some (Binary image_bytes).
Proof.
  intros fs.
  apply (accepted_bare_payload_is_saved latin1 (py "R0lGODlh") (py "out") (py "07")
           (py "dot") fs); reflexivity.
Defined.

(** ** The manifest when something fails *)

Section ManifestFaults.
Implicit Types (fs : filesystem) (s t : pystr).

Lemma utf8_error_surrogate pos s :
  ~ encodable s -> exists msg, utf8_error pos s = Some msg.
Proof.
  revert pos. induction s as [|c s IH]; intros pos Hs.
  - destruct Hs. constructor.
  - cbn [utf8_error]. destruct (is_surrogate c) eqn:Hc; [by eexists|].
    apply IH. intros Hrest. apply Hs. by constructor.
Qed.

Lemma not_encodable_app s t u : ~ encodable t -> ~ encodable (s ++ t ++ u).
Proof.
  intros Ht H. apply Ht.
  by apply Forall_app in H as [_ [? _]%Forall_app].
Qed.

Lemma write_all_app path chunks more fs :
  write_all path (chunks ++ more) fs
  = (write_all path chunks ;;; write_all path more)%io fs.
Proof.
  revert fs. induction chunks as [|s chunks IH]; intros fs; cbn [app write_all].
  - reflexivity.
  - unfold bind. destruct (write_text path s fs) as [fs' [[]|msg]]; [|done].
    apply IH.
Qed.

End ManifestFaults.

(** X12.  A folder that cannot be made: the manifest writer raises, since
    it makes the folder before its [try], while the persister of the
    images reports the same fault as a failure and returns. *)
Theorem folder_fault_escapes_the_manifest_writer (ucd : UnicodeData)
  (now folder_path msg : pystr) (image_links : list link_info)
  (image_data filename_prefix title : pystr) (image_bytes : pybytes)
  (fs : filesystem) :
  io_fault fs folder_path = Some msg ->
  image_links <> [] ->
  decode_image_data image_data = Ok image_bytes ->
  _save_image_links now image_links folder_path fs = (fs, Err msg)
  /\ _save_base64_image ucd image_data folder_path filename_prefix title fs
     = (fs, Ok (save_failure title msg)).
Proof.
  intros Hfault Hlinks Hdec. split.
  - unfold _save_image_links. destruct image_links as [|l rest]; [done|].
    unfold bind at 1. unfold makedirs. by rewrite Hfault.
  - unfold _save_base64_image, try_except, bind, lift, makedirs, ret.
    by rewrite Hdec, Hfault.
Qed.

Lemma folder_fault_escapes_the_manifest_writer_witness :
  let fs := {| files := ∅; dirs := ∅;
               io_fault := fun path => if bool_decide (path = py "out")
                                       then Some (py "Permission denied") else None |} in
  let link := {| link_url := py "https://x.com/a.png"; link_title := py "A";
                 link_position := 3 |} in
  _save_image_links (py "2025-01-01T00:00:00") [link] (py "out") fs
  = (fs, Err (py "Permission denied"))
  /\ _save_base64_image latin1 (py "R0lGODlh") (py "out") (py "07") (py "dot") fs
     = (fs, Ok (save_failure (py "dot") (py "Permission denied"))).
Proof.
  intros fs link.
  apply (folder_fault_escapes_the_manifest_writer latin1 (py "2025-01-01T00:00:00")
           (py "out") (py "Permission denied") [link] (py "R0lGODlh") (py "07")
           (py "dot") (py "GIF89a") fs); [reflexivity | discriminate | reflexivity].
Defined.

(** X13.  A manifest file that cannot be opened: the writer returns a
    failure with the message and writes no file (the folder was made). *)
Theorem manifest_file_fault_is_reported (now folder_path msg : pystr)
  (image_links : list link_info) (fs : filesystem) :
  let links_file := path_join folder_path (py "image_links.txt") in
  image_links <> [] ->
  io_fault fs folder_path = None ->
  io_fault fs links_file = Some msg ->
  _save_image_links now image_links folder_path fs
  = ({| files := files fs; dirs := {[folder_path]} ∪ dirs fs;
        io_fault := io_fault fs |},
     Ok (py "Failed to save image links: " ++ msg)).
Proof.
  intros links_file Hlinks Hdir Hfile.
  unfold _save_image_links. destruct image_links as [|l rest]; [done|].
  unfold bind at 1. unfold makedirs. rewrite Hdir.
  unfold try_except, bind, open_write. cbn [io_fault files dirs].
  fold links_file. by rewrite Hfile.
Qed.

Lemma manifest_file_fault_is_reported_witness :
  let fs := {| files := ∅; dirs := ∅;
               io_fault := fun path => if bool_decide (path = py "out/image_links.txt")
                                       then Some (py "Read-only file system")
                                       else None |} in
  let link := {| link_url := py "https://x.com/a.png"; link_title := py "A";
                 link_position := 3 |} in
  _save_image_links (py "2025-01-01T00:00:00") [link] (py "out") fs
  = ({| files := ∅; dirs := {[py "out"]} ∪ ∅; io_fault := io_fault fs |},
     Ok (py "Failed to save image links: Read-only file system")).
Proof.
  intros fs link.
  apply (manifest_file_fault_is_reported (py "2025-01-01T00:00:00") (py "out")
           (py "Read-only file system") [link] fs);
    [discriminate | reflexivity | reflexivity].
Defined.

(** X14.  A title that cannot be written in UTF-8 (a lone surrogate, which
    a JSON response can carry) stops the manifest at its first link: the
    writer returns a failure, and the file is left on disk with the two
    lines of the header only. *)
Theorem unwritable_title_leaves_the_header_only (now folder_path : pystr)
  (link : link_info) (more_links : list link_info) (fs : filesystem) :
  let links_file := path_join folder_path (py "image_links.txt") in
  io_fault fs folder_path = None ->
  io_fault fs links_file = None ->
  encodable now ->
  ~ encodable (link_title link) ->
  exists fs' msg,
    _save_image_links now (link :: more_links) folder_path fs
    = (fs', Ok (py "Failed to save image links: " ++ msg))
    /\ files fs' !! links_file = Some (Text (concat (manifest_header now))).
Proof.
  intros links_file Hdir Hfile Hnow Htitle.
  unfold _save_image_links.
  unfold bind at 1. unfold makedirs. rewrite Hdir.
  unfold try_except, bind at 1, open_write. cbn [io_fault files dirs].
  fold links_file. rewrite Hfile.
  unfold bind at 1. rewrite write_all_app. unfold bind at 1.
  rewrite (write_all_appends links_file _ []);
    [| by apply encodable_header | cbn [files]; apply lookup_insert_eq].
  cbn [link_blocks link_block app write_all]. unfold bind at 1, write_text at 1.
  destruct (utf8_error_surrogate 0
              (str_of_N (N.of_nat 1) ++ py ". Title: " ++ link_title link ++ [10]))
    as [msg ->].
  { rewrite app_assoc. by apply not_encodable_app. }
  eexists _, msg. split; [reflexivity|].
  cbn [files]. rewrite insert_insert_eq. apply lookup_insert_eq.
Qed.

Lemma unwritable_title_leaves_the_header_only_witness :
  let fs := {| files := ∅; dirs := ∅; io_fault := fun _ => None |} in
  let link := {| link_url := py "https://x.com/a.png"; link_title := [0xD83D];
                 link_position := 3 |} in
  exists fs' msg,
    _save_image_links (py "2025-01-01T00:00:00") [link] (py "out") fs
    = (fs', Ok (py "Failed to save image links: " ++ msg))
    /\ files fs' !! py "out/image_links.txt"
       = Some (Text (concat (manifest_header (py "2025-01-01T00:00:00")))).
Proof.
  intros fs link.
  apply (unwritable_title_leaves_the_header_only (py "2025-01-01T00:00:00") (py "out")
           link [] fs); [reflexivity | reflexivity | by repeat constructor |].
  intros H. by apply Forall_cons in H as [? _].
Defined.

(** ** From the response to the disk *)

Section PipelineFacts.
Context (ucd : UnicodeData).
Implicit Types (fs : filesystem) (folder_path : pystr).

Lemma save_image_links_writes now folder_path image_links fs :
  let links_file := path_join folder_path (py "image_links.txt") in
  image_links <> [] ->
  io_fault fs folder_path = None ->
  io_fault fs links_file = None ->
  encodable now ->
  Forall (fun l => encodable (link_title l) /\ encodable (link_url l)) image_links ->
  _save_image_links now image_links folder_path fs
  = ({| files := <[links_file := Text (manifest_text now image_links)]> (files fs);
        dirs := {[folder_path]} ∪ dirs fs;
        io_fault := io_fault fs |},
     Ok (py "Saved " ++ str_of_N (N.of_nat (length image_links))
         ++ py " image links to: " ++ links_file)).
Proof.
  intros links_file Hne Hdir Hfile Hnow Hlinks.
  unfold _save_image_links. destruct image_links as [|l rest]; [done|].
  set (links := l :: rest) in *.
  unfold bind at 1. unfold makedirs. rewrite Hdir.
  unfold try_except, bind, open_write. cbn [io_fault files dirs].
  fold links_file. rewrite Hfile.
  rewrite (write_all_appends links_file _ []); cycle 1.
  { apply Forall_app_2; [by apply encodable_header | by apply encodable_blocks]. }
  { cbn [files]. apply lookup_insert_eq. }
  cbn [files dirs io_fault]. unfold ret.
  by rewrite insert_insert_eq, manifest_chunks.
Qed.

Lemma success_count_app saved reports :
  success_count (saved ++ reports) = (success_count saved + success_count reports)%nat.
Proof. unfold success_count. by rewrite List.filter_app, length_app. Qed.

(** On a file system without faults the loop saves what decodes. *)
Lemma save_base64_images_counts folder_path base64_images :
  forall saved_images fs,
  (forall path, io_fault fs path = None) ->
  exists fs' reports,
    save_base64_images ucd folder_path base64_images saved_images fs
    = (fs', Ok (saved_images ++ reports))
    /\ length reports = length base64_images
    /\ success_count reports = length (List.filter decodes base64_images).
Proof.
  induction base64_images as [|item rest IH]; intros saved fs Hfs;
    cbn [save_base64_images].
  - exists fs, []. rewrite app_nil_r. done.
  - destruct (save_base64_image_effect ucd (b64_data item) folder_path
                (format_02d (b64_position item)) (b64_title item) fs)
      as (fs1 & report & Hsave & Hfault & Hcases).
    unfold bind. rewrite Hsave.
    destruct (IH (saved ++ [report]) fs1) as (fs2 & reports & Hrest & Hlen & Hcount).
    { intros path. by rewrite Hfault. }
    exists fs2, (report :: reports). rewrite Hrest, <- app_assoc.
    split; [done|]. split; [cbn [length]; by rewrite Hlen|].
    change (report :: reports) with ([report] ++ reports).
    rewrite success_count_app, Hcount. cbn [List.filter]. unfold decodes at 2.
    destruct Hcases as [(image_bytes & Hdec & _ & _ & -> & _)
                       | (msg & -> & _ & [Hdec | [Hdir | (image_bytes & _ & Hfile)]])].
    + rewrite Hdec. reflexivity.
    + rewrite Hdec. reflexivity.
    + by rewrite Hfs in Hdir.
    + by rewrite Hfs in Hfile.
Qed.

End PipelineFacts.

(** X15.  On a file system without faults the number that the summary
    gives as saved images is the number of inline images whose payload
    decodes; the others are reported as failures, and every entry has one
    report. *)
Theorem saved_count_is_the_decodable_payloads (ucd : UnicodeData) (folder_path : pystr)
  (base64_images : list base64_entry) (fs : filesystem) :
  (forall path, io_fault fs path = None) ->
  exists fs' saved_images,
    save_base64_images ucd folder_path base64_images [] fs = (fs', Ok saved_images)
    /\ length saved_images = length base64_images
    /\ success_count saved_images = length (List.filter decodes base64_images).
Proof.
  intros Hfs.
  destruct (save_base64_images_counts ucd folder_path base64_images [] fs Hfs)
    as (fs' & reports & Hrun & Hlen & Hcount).
  by exists fs', reports.
Qed.

Lemma saved_count_is_the_decodable_payloads_witness :
  let fs := {| files := ∅; dirs := ∅; io_fault := fun _ => None |} in
  let good := {| b64_data := py "data:image/gif;base64,R0lGODlh";
                 b64_title := py "dot"; b64_position := 1 |} in
  let bad := {| b64_data := py "data:image/png;base64,A";
                b64_title := py "Saved: all"; b64_position := 2 |} in
  exists fs' saved_images,
    save_base64_images latin1 (py "out") [good; bad] [] fs = (fs', Ok saved_images)
    /\ length saved_images = 2%nat
    /\ success_count saved_images = 1%nat.
Proof.
  intros fs good bad.
  apply (saved_count_is_the_decodable_payloads latin1 (py "out") [good; bad] fs).
  reflexivity.
Defined.

(** X16.  The image branch as a whole, on a file system without faults and
    with text that UTF-8 can encode: every item of the response gets a
    report of the persister or a block of the manifest, and the manifest on
    disk lists exactly the items that the classifier rejected, in the order
    of the response. *)
Theorem manifest_lists_the_rejected_items (ucd : UnicodeData) (now folder_path : pystr)
  (image_results : list image_result) (fs : filesystem) :
  let rejected := List.filter (fun item => negb (is_inline_image item)) image_results in
  let links_file := path_join folder_path (py "image_links.txt") in
  (forall path, io_fault fs path = None) ->
  encodable now ->
  Forall (fun item => encodable (get (res_title item) (py "untitled"))
                      /\ encodable (get (res_image item) [])) image_results ->
  exists fs' saved_images links_result,
    save_image_results ucd now image_results folder_path fs
    = (fs', Ok (saved_images, links_result))
    /\ (length saved_images + length rejected = length image_results)%nat
    /\ match rejected with
       | [] => links_result = py "No image links to save"
       | _ =>
           links_result
           = py "Saved " ++ str_of_N (N.of_nat (length rejected))
             ++ py " image links to: " ++ links_file
           /\ files fs' !! links_file
              = Some (Text (manifest_text now (map link_info_of rejected)))
       end.
Proof.
  intros rejected links_file Hfs Hnow Htext.
  unfold save_image_results. rewrite separate_filter. cbn [app].
  fold rejected.
  destruct (save_base64_images_counts ucd folder_path
              (map base64_entry_of (List.filter is_inline_image image_results)) [] fs Hfs)
    as (fs1 & reports & Hrun & Hlen & _).
  destruct (save_base64_images_effect ucd folder_path
              (map base64_entry_of (List.filter is_inline_image image_results)) [] fs)
    as (fs1' & reports' & Hrun' & Hfault & _).
  rewrite Hrun in Hrun'. injection Hrun' as <- <-.
  unfold bind at 1. rewrite Hrun. cbn [app].
  assert (length reports + length rejected = length image_results)%nat as Hall.
  { rewrite Hlen, length_map. apply filter_partition_length. }
  assert (Forall (fun l => encodable (link_title l) /\ encodable (link_url l))
            (map link_info_of rejected)) as Hlinks.
  { apply Forall_map, Forall_forall. intros it Hit. unfold rejected in Hit.
    apply list_elem_of_In, filter_In in Hit as [Hit%list_elem_of_In _].
    apply (proj1 (Forall_forall _ _) Htext it Hit). }
  clearbody rejected. destruct rejected as [|item more].
  - cbn [map]. unfold bind, _save_image_links, ret.
    eexists fs1, reports, _. done.
  - set (rejected := item :: more) in *. unfold bind at 1.
    rewrite save_image_links_writes;
      [| done | by rewrite Hfault | by rewrite Hfault | done | done].
    unfold ret. eexists _, reports, _. split; [reflexivity|]. split; [done|].
    rewrite length_map. split; [done|].
    cbn [files]. apply lookup_insert_eq.
Qed.

Lemma manifest_lists_the_rejected_items_witness :
  let fs := {| files := ∅; dirs := ∅; io_fault := fun _ => None |} in
  let inline := {| res_image := Some (py "data:image/gif;base64,R0lGODlh");
                   res_title := Some (py "dot"); res_position := Some 1%Z |} in
  let linked := {| res_image := Some (py "https://x.com/a.png");
                   res_title := None; res_position := Some 2%Z |} in
  exists fs' saved_images links_result,
    save_image_results latin1 (py "2025-01-01T00:00:00") [inline; linked] (py "out") fs
    = (fs', Ok (saved_images, links_result))
    /\ (length saved_images + 1 = 2)%nat
    /\ links_result = py "Saved 1 image links to: out/image_links.txt"
    /\ files fs' !! py "out/image_links.txt"
       = Some (Text (manifest_text (py "2025-01-01T00:00:00") [link_info_of linked])).
Proof.
  intros fs inline linked.
  apply (manifest_lists_the_rejected_items latin1 (py "2025-01-01T00:00:00") (py "out")
           [inline; linked] fs); [reflexivity | by repeat constructor |].
  repeat constructor.
Defined.

(** ** The request of the scraper *)

Section RequestFacts.
Context (json_dumps : pyval -> pystr).
Implicit Types (params : gmap pystr pyval) (headers : gmap pystr pystr).

Lemma contains_longer (p q suffix s : pystr) :
  q = p ++ suffix -> contains q s = true -> contains p s = true.
Proof.
  intros -> (a & b & ->)%contains_spec. rewrite <- app_assoc. apply contains_app.
Qed.

Lemma spb_key_inj key key' : spb_key key = spb_key key' -> key = key'.
Proof. unfold spb_key. apply app_inv_head. Qed.

(** What the loop over the headers builds. *)
Lemma spb_headers_lookup headers :
  let final_headers : gmap pystr pystr :=
    map_fold (fun key value final_headers => <[spb_key key := value]> final_headers)
      ∅ headers in
  (forall key, final_headers !! spb_key key = headers !! key)
  /\ (forall name, (forall key, name <> spb_key key) -> final_headers !! name = None).
Proof.
  cbn zeta.
  apply (map_fold_weak_ind
    (fun (final : gmap pystr pystr) (m : gmap pystr pystr) =>
       (forall key, final !! spb_key key = m !! key)
       /\ (forall name, (forall key, name <> spb_key key) -> final !! name = None))).
  - split; intros; apply lookup_empty.
  - intros key value m final Hfresh [IH1 IH2]. split.
    + intros key'. destruct (decide (key = key')) as [->|Hne].
      * by rewrite !lookup_insert_eq.
      * rewrite !lookup_insert_ne; [apply IH1 | done |].
        intros Heq. by apply Hne, spb_key_inj.
    + intros name Hname. rewrite lookup_insert_ne; [by apply IH2|].
      intros <-. by apply (Hname key).
Qed.


End RequestFacts.

(** X17.  A content type for which the scraper knows an extension is one
    that it saves as a binary file: whenever the extension is not [bin],
    the test on the content type in [is_binary] holds.  The extension is
    one of six. *)
Theorem known_extension_means_binary_content (content_type : pystr) :
  _get_extension_from_content_type content_type
    ∈ [py "png"; py "jpg"; py "pdf"; py "webp"; py "gif"; py "bin"]
  /\ (_get_extension_from_content_type content_type <> py "bin" ->
      has_binary_content_type content_type = true).
Proof.
  unfold _get_extension_from_content_type, has_binary_content_type.
  cbn [existsb]. rewrite orb_false_r.
  destruct (contains (py "image/png") content_type) eqn:Hpng.
  { apply (contains_longer (py "image/") _ (py "png")) in Hpng as ->; [|done].
    split; [set_solver | done]. }
  destruct (contains (py "image/jpeg") content_type) eqn:Hjpeg.
  { apply (contains_longer (py "image/") _ (py "jpeg")) in Hjpeg as ->; [|done].
    split; [set_solver | done]. }
  destruct (contains (py "image/jpg") content_type) eqn:Hjpg.
  { apply (contains_longer (py "image/") _ (py "jpg")) in Hjpg as ->; [|done].
    split; [set_solver | done]. }
  cbn [orb].
  destruct (contains (py "application/pdf") content_type) eqn:Hpdf.
  { split; [set_solver | intros _; apply orb_true_r]. }
  destruct (contains (py "image/webp") content_type) eqn:Hwebp.
  { apply (contains_longer (py "image/") _ (py "webp")) in Hwebp as ->; [|done].
    split; [set_solver | done]. }
  destruct (contains (py "image/gif") content_type) eqn:Hgif.
  { apply (contains_longer (py "image/") _ (py "gif")) in Hgif as ->; [|done].
    split; [set_solver | done]. }
  split; [set_solver | done].
Qed.

Lemma known_extension_means_binary_content_witness :
  has_binary_content_type (py "image/webp; charset=binary") = true.
Proof.
  apply (known_extension_means_binary_content (py "image/webp; charset=binary")).
  discriminate.
Defined.

(** X18.  After [stringify_nested_objects] no value is a dictionary or a
    list, the keys are those of the argument, the values that were neither
    are untouched, and a second pass changes nothing. *)
Theorem stringified_params_are_flat (json_dumps : pyval -> pystr)
  (params : gmap pystr pyval) :
  let processed_params := stringify_nested_objects json_dumps params in
  dom processed_params = dom params
  /\ map_Forall (fun _ value => forall d l, value <> PDict d /\ value <> PList l)
       processed_params
  /\ map_Forall (fun key value =>
                   (forall d l, value <> PDict d /\ value <> PList l) ->
                   processed_params !! key = Some value) params
  /\ stringify_nested_objects json_dumps processed_params = processed_params.
Proof.
  cbn zeta. unfold stringify_nested_objects. split; [apply dom_fmap_L|].
  split; [|split].
  - intros key value. rewrite lookup_fmap.
    destruct (params !! key) as [v|]; [|done]. cbn. intros [= <-].
    by destruct v.
  - intros key value Hkey Hflat. rewrite lookup_fmap, Hkey. cbn. f_equal.
    destruct value; try done.
    + by destruct (Hflat ∅ l) as [_ ?].
    + by destruct (Hflat d []) as [? _].
  - rewrite <- map_fmap_compose. apply map_fmap_ext.
    intros key value _. by destruct value.
Qed.

(** X19.  The headers of the request: [User-Agent] is always [LangChain],
    every header of the caller is sent under its name with [Spb-] before
    it, and there is no other header; so no header of the caller can
    replace the [User-Agent]. *)
Theorem caller_headers_are_prefixed (json_dumps : pyval -> pystr) (api_key url : pystr)
  (params : option (gmap pystr pyval)) (headers : option (gmap pystr pystr)) :
  let final_headers := snd (scrape_request json_dumps api_key url params headers) in
  final_headers !! py "User-Agent" = Some (py "LangChain")
  /\ (forall key, final_headers !! spb_key key = default ∅ headers !! key)
  /\ size final_headers = S (size (default ∅ headers)).
Proof.
  cbn zeta. unfold scrape_request. cbn [snd].
  destruct (spb_headers_lookup (default ∅ headers)) as [Hkeys Hothers].
  cbn zeta in Hkeys, Hothers.
  set (final := map_fold _ ∅ (default ∅ headers)) in *.
  split; [apply lookup_insert_eq|]. split.
  - intros key. rewrite lookup_insert_ne by done. apply Hkeys.
  - rewrite map_size_insert_None by (by apply Hothers). f_equal.
    unfold final. clear.
    apply (map_fold_weak_ind
      (fun (final : gmap pystr pystr) (m : gmap pystr pystr) =>
         size final = size m
         /\ forall key, final !! spb_key key = m !! key)).
    + split; [by rewrite !map_size_empty | intros; by rewrite !lookup_empty].
    + intros key value m r Hfresh [Hsize Hlookup]. split.
      * rewrite !map_size_insert_None; [by rewrite Hsize | done |].
        by rewrite Hlookup.
      * intros key'. destruct (decide (key = key')) as [->|Hne].
        -- by rewrite !lookup_insert_eq.
        -- rewrite !lookup_insert_ne; [apply Hlookup | done |].
           intros Heq. by apply Hne, spb_key_inj.
Qed.

(** X20.  The parameters of the request: an entry of the caller's [params]
    named [api_key] or [url] replaces the key of the tool or the URL to
    scrape; without such an entry they are sent as given.  As soon as there
    is a header, [forward_headers] is sent as [True], whatever [params]
    says. *)
Theorem caller_params_come_last (json_dumps : pyval -> pystr) (api_key url : pystr)
  (params : option (gmap pystr pyval)) (headers : option (gmap pystr pystr)) :
  let request_params := fst (scrape_request json_dumps api_key url params headers) in
  let sent name fallback :=
    request_params !! name
    = Some (default fallback (stringify_value json_dumps <$> default ∅ params !! name)) in
  sent (py "api_key") (PStr api_key)
  /\ sent (py "url") (PStr url)
  /\ request_params !! py "forward_headers"
     = (if bool_decide (default ∅ headers = ∅)
        then stringify_value json_dumps <$> default ∅ params !! py "forward_headers"
        else Some (PBool true))
  /\ (forall name value,
        name <> py "forward_headers" ->
        default ∅ params !! name = Some value ->
        request_params !! name = Some (stringify_value json_dumps value)).
Proof.
  cbn zeta. unfold scrape_request. cbn [fst].
  set (given := default ∅ params).
  set (processed := if bool_decide (default ∅ headers = ∅)
                    then stringify_nested_objects json_dumps given
                    else <[py "forward_headers" := PBool true]>
                           (stringify_nested_objects json_dumps given)).
  assert (forall name, name <> py "forward_headers" ->
            processed !! name = stringify_value json_dumps <$> given !! name) as Hprocessed.
  { intros name Hname. unfold processed, stringify_nested_objects.
    case_bool_decide; rewrite ?lookup_insert_ne by done; apply lookup_fmap. }
  set (base := <[py "url" := PStr url]> {[py "api_key" := PStr api_key]}
              : gmap pystr pyval).
  assert (base !! py "api_key" = Some (PStr api_key)) as Hkey.
  { unfold base. rewrite lookup_insert_ne by done. apply lookup_singleton_eq. }
  assert (base !! py "url" = Some (PStr url)) as Hurl.
  { unfold base. apply lookup_insert_eq. }
  assert (base !! py "forward_headers" = None) as Hforward.
  { unfold base. rewrite lookup_insert_ne by done. by apply lookup_singleton_ne. }
  split; [|split; [|split]].
  - rewrite lookup_union, Hprocessed, Hkey by done.
    by destruct (given !! py "api_key").
  - rewrite lookup_union, Hprocessed, Hurl by done.
    by destruct (given !! py "url").
  - rewrite lookup_union, Hforward, (right_id None _). unfold processed, stringify_nested_objects.
    case_bool_decide; [apply lookup_fmap | apply lookup_insert_eq].
  - intros name value Hname Hgiven.
    rewrite lookup_union, Hprocessed, Hgiven by done.
    by destruct (base !! name).
Qed.

(** ** The query string of the coercer *)

Section QueryFacts.
Context (interp : Interpreter).
Implicit Types (s kv key value : pystr) (params : gmap pystr pyval).

Lemma url_pairs_app before after params :
  url_pairs interp (before ++ after) params
  = match url_pairs interp before params with
    | Return params' => url_pairs interp after params'
    | Raise e => Raise e
    end.
Proof.
  revert params. induction before as [|kv before IH]; intros params; [done|].
  cbn [app url_pairs].
  destruct (contains (py "=") kv); [|apply IH].
  destruct (split1 (py "=") kv) as [|k [|v [|]]]; try done.
  destruct (convert_value interp v); [apply IH | done].
Qed.

(** A pair that the loop gets past leaves the other keys alone. *)
Lemma url_pairs_other_keys after key : forall params params',
  Forall (fun kv => forall value, split1 (py "=") kv <> [key; value]) after ->
  url_pairs interp after params = Return params' ->
  params' !! key = params !! key.
Proof.
  induction after as [|kv after IH]; intros params params' Hafter Hrun.
  - cbn in Hrun. by injection Hrun as ->.
  - apply Forall_cons in Hafter as [Hkv Hafter]. cbn [url_pairs] in Hrun.
    destruct (contains (py "=") kv); [|by apply IH].
    destruct (split1 (py "=") kv) as [|k [|v [|]]] eqn:Hsplit; try done.
    destruct (convert_value interp v) as [x|]; [|done].
    rewrite (IH _ _ Hafter Hrun). apply lookup_insert_ne. intros ->.
    by apply (Hkv v).
Qed.

Lemma split_char_contains c sep s field :
  field ∈ split_char sep s -> c ∈ field -> c ∈ s.
Proof.
  revert field. induction s as [|d s IH]; intros field Hfield Hc.
  - cbn in Hfield. apply list_elem_of_singleton in Hfield as ->. done.
  - cbn [split_char] in Hfield. destruct (d =? sep).
    + apply elem_of_cons in Hfield as [-> | Hfield]; [by apply elem_of_nil in Hc|].
      right. by apply (IH field).
    + destruct (split_char sep s) as [|first more] eqn:Hsplit.
      * apply list_elem_of_singleton in Hfield as ->.
        apply list_elem_of_singleton in Hc as ->. left.
      * apply elem_of_cons in Hfield as [-> | Hfield].
        -- apply elem_of_cons in Hc as [-> | Hc]; [left|].
           right. apply (IH first); [left | done].
        -- right. apply (IH field); [by right | done].
Qed.

Lemma contains_eq_sign s : contains (py "=") s = true <-> 61 ∈ s.
Proof.
  induction s as [|c s IH]; [by split; [|intros ?%elem_of_nil]|].
  rewrite contains_eq_sign_cons, orb_true_iff, IH, elem_of_cons, N.eqb_eq. done.
Qed.

End QueryFacts.

(** X21.  In a query string the segments without [=] count for nothing:
    the loop over the pairs gives the same result, or raises the same
    error, with and without them. *)
Theorem segments_without_equals_are_skipped (interp : Interpreter)
  (pairs : list pystr) (params : gmap pystr pyval) :
  url_pairs interp (List.filter (contains (py "=")) pairs) params
  = url_pairs interp pairs params.
Proof.
  revert params. induction pairs as [|kv pairs IH]; intros params; [done|].
  cbn [List.filter url_pairs].
  destruct (contains (py "=") kv) eqn:Hkv; [|apply IH].
  cbn [url_pairs]. rewrite Hkv.
  destruct (split1 (py "=") kv) as [|k [|v [|]]]; try done.
  destruct (convert_value interp v); [apply IH | done].
Qed.

(** X22.  When the loop over the pairs returns, the value of a key is the
    converted text after the first [=] of the last pair with this key:
    later pairs replace earlier ones, and the text after the first [=] may
    hold more of them. *)
Theorem last_pair_decides_the_value (interp : Interpreter)
  (before after : list pystr) (kv key value : pystr)
  (params params' : gmap pystr pyval) :
  url_pairs interp (before ++ kv :: after) params = Return params' ->
  contains (py "=") kv = true ->
  split1 (py "=") kv = [key; value] ->
  Forall (fun kv' => forall value', split1 (py "=") kv' <> [key; value']) after ->
  exists x, convert_value interp value = Return x /\ params' !! key = Some x.
Proof.
  intros Hrun Hkv Hsplit Hafter. rewrite url_pairs_app in Hrun.
  destruct (url_pairs interp before params) as [m|]; [|done].
  cbn [url_pairs] in Hrun. rewrite Hkv, Hsplit in Hrun.
  destruct (convert_value interp value) as [x|]; [|done].
  exists x. split; [done|].
  rewrite (url_pairs_other_keys interp after key _ _ Hafter Hrun).
  apply lookup_insert_eq.
Qed.

Lemma last_pair_decides_the_value_witness :
  exists x,
    convert_value cpython (py "b=TRUE") = Return x
    /\ ({[py "a" := PStr (py "b=TRUE"); py "wait" := PInt 3000]} : gmap pystr pyval)
         !! py "a" = Some x.
Proof.
  apply (last_pair_decides_the_value cpython [py "a=1"] [py "wait=3000"]
           (py "a=b=TRUE") (py "a") (py "b=TRUE") ∅
           {[py "a" := PStr (py "b=TRUE"); py "wait" := PInt 3000]}).
  - vm_compute. reflexivity.
  - reflexivity.
  - reflexivity.
  - repeat constructor. intros value'. vm_compute. discriminate.
Defined.

(** X23.  One value that cannot be converted loses the whole query string:
    when the conversion of the value of some pair raises (digits that
    [int] does not read), none of the pairs is read.  On a stream that
    prints what the handlers print the coercer returns the string as it
    came; on any stream, what it returns, if it returns, is that string
    (it raises when a [print] of a handler does). *)
Theorem one_bad_value_loses_every_pair (interp : Interpreter) (s : pystr) :
  json_loads interp s = Raise JSONDecodeError ->
  looks_like_dict s = false ->
  Exists (fun kv => exists key value e,
            contains (py "=") kv = true
            /\ split1 (py "=") kv = [key; value]
            /\ convert_value interp value = Raise e) (split_char 38 s) ->
  (prints interp s -> str_to_dict_validator interp (PStr s) = Return (PStr s))
  /\ (forall x, str_to_dict_validator interp (PStr s) = Return x -> x = PStr s).
Proof.
  intros Hjson Hliteral Hbad.
  assert (contains (py "=") s = true) as Hcontains.
  { apply Exists_exists in Hbad as (kv & Hin & _ & _ & _ & Hkv & _).
    apply contains_eq_sign. apply contains_eq_sign in Hkv.
    by apply (split_char_contains 61 38 s kv). }
  assert (forall params, exists e, url_pairs interp (split_char 38 s) params = Raise e)
    as Hraise.
  { clear Hcontains. induction Hbad as [kv pairs (key & value & e & Hkv & Hsplit & He)
                                       | kv pairs _ IH]; intros params.
    - cbn [url_pairs]. rewrite Hkv, Hsplit, He. eauto.
    - cbn [url_pairs].
      destruct (contains (py "=") kv); [|apply IH].
      destruct (split1 (py "=") kv) as [|k [|v [|]]]; eauto.
      destruct (convert_value interp v); eauto. }
  destruct s as [|c s]; [done|]. cbn [str_to_dict_validator]. rewrite Hjson.
  unfold python_literal. rewrite Hliteral. unfold url_parameters. rewrite Hcontains.
  destruct (Hraise ∅) as [e ->]. unfold print_then. split.
  - intros (-> & -> & ->). reflexivity.
  - intros x.
    destruct (print_error interp (c :: s)); [done|].
    destruct (print_exception_error interp (c :: s)); [done|].
    destruct (print_error interp (py "None")); [done|]. congruence.
Qed.

Lemma one_bad_value_loses_every_pair_witness :
  str_to_dict_validator cpython (PStr (py "wait=3000&n=" ++ [0xB2]))
  = Return (PStr (py "wait=3000&n=" ++ [0xB2]))
  /\ str_to_dict_validator cpython (PStr (py "n=" ++ [0xB2] ++ py "&t=" ++ [0xD800]))
     = Raise ValueError.
Proof.
  split; [|vm_compute; reflexivity].
  apply (one_bad_value_loses_every_pair cpython (py "wait=3000&n=" ++ [0xB2])).
  - vm_compute. reflexivity.
  - reflexivity.
  - apply Exists_cons_tl, Exists_cons_hd.
    exists (py "n"), [0xB2], ValueError.
    split; [reflexivity|]. split; [reflexivity|]. vm_compute. reflexivity.
  - repeat split.
Defined.

(** ** The file of the scraper *)

Section ScrapeFileFacts.
Context (ucd : UnicodeData).

Lemma extension_no_slash content_type :
  (47 ∉ _get_extension_from_content_type content_type)
  /\ (length (_get_extension_from_content_type content_type) <= 4)%nat.
Proof.
  unfold _get_extension_from_content_type.
  repeat match goal with
  | |- context [if ?b then _ else _] => destruct b
  end; (split; [absent | cbn; lia]).
Qed.

Lemma sanitize_filename_no_slash url :
  (47 ∉ sanitize_filename ucd url 100)
  /\ (length (sanitize_filename ucd url 100) <= 100)%nat.
Proof.
  split.
  - intros Hin.
    apply (proj1 (Forall_forall _ _) (sanitize_filename_chars ucd url 100)) in Hin.
    apply url_name_char_plain in Hin. by destruct Hin as (? & ? & ?).
  - unfold sanitize_filename, slice_to. cbn [Z.ltb Z.compare Z.to_nat Pos.to_nat].
    rewrite length_take. lia.
Qed.

End ScrapeFileFacts.

(** X24.  Without a custom file name the scraper saves right in the
    results folder: the name made from the URL has no slash and at most
    105 characters, whatever the URL and the content type are.  A custom
    file name is used as it is: one that starts with a slash is the path
    of the file, and the results folder is left out. *)
Theorem scrape_file_is_in_the_folder_by_default (ucd : UnicodeData)
  (folder_path url content_type : pystr) (is_binary : bool) :
  (forall custom_filename,
      custom_filename = None \/ custom_filename = Some [] ->
      let filename := scrape_filename ucd url custom_filename is_binary content_type in
      (47 ∉ filename) /\ (length filename <= 105)%nat
      /\ filename <> [])
  /\ (forall name,
        scrape_file_path ucd folder_path url (Some (47 :: name)) is_binary content_type
        = 47 :: name).
Proof.
  split.
  - intros custom_filename Hcustom. cbn zeta.
    destruct (sanitize_filename_no_slash ucd url) as [Hslash Hlen].
    destruct (extension_no_slash content_type) as [Hext Hextlen].
    assert (scrape_filename ucd url custom_filename is_binary content_type
            = if is_binary
              then sanitize_filename ucd url 100 ++ py "."
                   ++ _get_extension_from_content_type content_type
              else sanitize_filename ucd url 100 ++ py ".html") as ->
      by (by destruct Hcustom as [-> | ->]).
    destruct is_binary.
    + rewrite !not_elem_of_app, !length_app. split; [|split].
      * split; [done|]. split; [absent | done].
      * change (length (py ".")) with 1%nat. lia.
      * intros H%(f_equal length). rewrite !length_app in H.
        change (length (py ".")) with 1%nat in H. cbn in H. lia.
    + rewrite not_elem_of_app, length_app. split; [|split].
      * split; [done | absent].
      * change (length (py ".html")) with 5%nat. lia.
      * intros H%(f_equal length). rewrite length_app in H.
        change (length (py ".html")) with 5%nat in H. cbn in H. lia.
  - intros name. reflexivity.
Qed.

Lemma scrape_file_is_in_the_folder_by_default_witness :
  let filename :=
    scrape_filename latin1 (py "https://example.com/../etc/passwd") None true
      (py "application/pdf") in
  (47 ∉ filename) /\ (length filename <= 105)%nat /\ filename <> [].
Proof.
  destruct (scrape_file_is_in_the_folder_by_default latin1 (py "out")
              (py "https://example.com/../etc/passwd") (py "application/pdf") true)
    as [Hdefault _].
  apply (Hdefault None). by left.
Defined.
